(** * Expense tracker: categorisation pipeline and referential integrity

    A shallow embedding of the core of the expense tracker:

    - [lib/parser.ts]     ([parseBankCSV]): the normaliser;
    - [lib/matcher.ts]    ([applyMappings]): the rule matcher;
    - [lib/db.ts]         ([saveTransactions], [deleteCategory], [addCategory],
      [addMapping], [deleteMapping], [setIgnoredAccounts],
      [ensureSystemCategories]): the store;
    - [pages/Import.tsx]  ([handleFileSelect], [handleSave]);
    - [pages/Categories.tsx] ([handleReapplyRules], [handleImportRules],
      [handleExportRules], [findSuggestions], [saveMapping],
      [handleAddCategory], [handleUpdateColor]);
    - [pages/Transactions.tsx] ([updateCategory], [availableMonths], the
      filters, [toggleCategory]) and [pages/Uncategorized.tsx]
      ([handleCategorize], the list of the page);
    - [pages/Settings.tsx] ([handleAddAccount], [handleDeleteAccount]);
    - [pages/Dashboard.tsx] ([internalCatIds] and the test on internal
      transfers; the sums, in floating point, are left out).

    Strings are sequences of code units below 256 (the Latin-1 part of
    UTF-16); [toLowerCase] and [trim] are ECMAScript's on that range.
    Object stores are finite maps from the primary key to the record. *)

From stdpp Require Import base option list sorting strings pretty gmap fin_maps.
From Stdlib Require Import ZArith NArith Ascii String.

Open Scope string_scope.

(* ===================================================================== *)
(** * JavaScript strings                                                  *)
(* ===================================================================== *)

Module Js.

(** [String.prototype.toLowerCase] on one code unit: A-Z, and the Latin-1
    capitals U+00C0..U+00DE except the multiplication sign U+00D7. *)
Definition lowerChar (c : ascii) : ascii :=
  let n := N_of_ascii c in
  if ((65 <=? n) && (n <=? 90)
      || (192 <=? n) && (n <=? 222) && negb (n =? 215))%N
  then ascii_of_N (n + 32) else c.

Fixpoint toLowerCase (s : string) : string :=
  match s with
  | EmptyString => EmptyString
  | String c s' => String (lowerChar c) (toLowerCase s')
  end.

(** White space and line terminators of ECMAScript below U+0100:
    TAB, LF, VT, FF, CR, SP and NBSP. *)
Definition isWhiteSpace (c : ascii) : bool :=
  let n := N_of_ascii c in
  ((9 <=? n) && (n <=? 13) || (n =? 32) || (n =? 160))%N.

Fixpoint trimStart (s : string) : string :=
  match s with
  | EmptyString => EmptyString
  | String c s' => if isWhiteSpace c then trimStart s' else s
  end.

Fixpoint trimEnd (s : string) : string :=
  match s with
  | EmptyString => EmptyString
  | String c s' =>
      let r := trimEnd s' in
      if isWhiteSpace c && (r =? EmptyString)%string then EmptyString
      else String c r
  end.

(** [String.prototype.trim]. *)
Definition trim (s : string) : string := trimEnd (trimStart s).

(** [s.startsWith(p)]. *)
Fixpoint startsWith (s p : string) {struct p} : bool :=
  match p with
  | EmptyString => true
  | String a p' =>
      match s with
      | EmptyString => false
      | String b s' => Ascii.eqb a b && startsWith s' p'
      end
  end.

(** [s.includes(p)]: [p] occurs in [s] at some position. *)
Fixpoint includes (s p : string) : bool :=
  startsWith s p
  || match s with
     | EmptyString => false
     | String _ s' => includes s' p
     end.

(** Truthiness of a [string | undefined]: defined and not empty. *)
Definition truthy (v : option string) : bool :=
  match v with
  | Some s => negb (s =? EmptyString)%string
  | None => false
  end.

(** [v || d] for a [string | undefined] on the left. *)
Definition orElse (v : option string) (d : string) : string :=
  match v with
  | Some s => if (s =? EmptyString)%string then d else s
  | None => d
  end.

(** A string is blank when it is empty or made of white space only. *)
Fixpoint blank (s : string) : bool :=
  match s with
  | EmptyString => true
  | String c s' => isWhiteSpace c && blank s'
  end.

End Js.

(* ===================================================================== *)
(** * Numbers read by [parseFloat]                                        *)
(* ===================================================================== *)

(** A Number as [parseFloat] returns it.  [Decimal neg m e] stands for
    the binary64 that is nearest to [(-1)^neg * m * 10^e], the value of
    the [StrDecimalLiteral] that was read; it is finite, the magnitude
    being below the overflow threshold (see [Num.overflows]), and carries
    the sign [neg] ([Decimal true 0 e] is [-0]).  A magnitude at or above
    the threshold gives [Infinity].  The rounding of a finite value is
    not carried out: it keeps the sign and keeps zero at zero, and the
    code that is modelled never computes with an amount or compares two
    amounts. *)
Inductive JsNumber : Type :=
  | NaN
  | Infinity (negative : bool)
  | Decimal (negative : bool) (mantissa : N) (exponent : Z).

#[global] Instance JsNumber_eq_dec : EqDecision JsNumber.
Proof. solve_decision. Defined.

(** A finite number that is not below zero. *)
Definition isNonNegativeDecimal (x : JsNumber) : bool :=
  match x with
  | Decimal neg m _ => negb neg || (m =? 0)%N
  | _ => false
  end.

(** [-x]. *)
Definition negate (x : JsNumber) : JsNumber :=
  match x with
  | NaN => NaN
  | Infinity neg => Infinity (negb neg)
  | Decimal neg m e => Decimal (negb neg) m e
  end.

Module Num.

Definition isDigit (c : ascii) : bool :=
  let n := N_of_ascii c in ((48 <=? n) && (n <=? 57))%N.

Definition digitValue (c : ascii) : N := (N_of_ascii c - 48)%N.

(** The longest run of decimal digits at the head of [s], and the rest. *)
Fixpoint takeDigits (s : string) : list N * string :=
  match s with
  | EmptyString => ([], EmptyString)
  | String c s' =>
      if isDigit c
      then let '(ds, r) := takeDigits s' in (digitValue c :: ds, r)
      else ([], s)
  end.

Definition digitsToN (ds : list N) : N :=
  foldl (fun acc d => (10 * acc + d)%N) 0%N ds.

(** An optional sign at the head of [s]: whether it is a minus, and the
    text after it. *)
Definition signOf (s : string) : bool * string :=
  match s with
  | String c r =>
      if Ascii.eqb c "-" then (true, r)
      else if Ascii.eqb c "+" then (false, r)
      else (false, s)
  | EmptyString => (false, s)
  end.

(** [ExponentPart]: [e] or [E], an optional sign, and at least one digit;
    an incomplete exponent is not part of the literal. *)
Definition exponentPart (s : string) : Z :=
  match s with
  | String c r =>
      if (Ascii.eqb c "e" || Ascii.eqb c "E")%bool then
        let '(neg, r') := signOf r in
        match fst (takeDigits r') with
        | [] => 0%Z
        | ds => if neg then (- Z.of_N (digitsToN ds))%Z
                else Z.of_N (digitsToN ds)
        end
      else 0%Z
  | EmptyString => 0%Z
  end.

(** The least magnitude that rounds to [Infinity]: [2^1024 - 2^970],
    half way between the largest binary64, [2^1024 - 2^971], and [2^1024]
    (a tie goes to the even significand, which is the one of [2^1024]). *)
Definition overflowThreshold : Z := (2 ^ 1024 - 2 ^ 970)%Z.

(** [m * 10^e] is at or above the threshold. *)
Definition overflows (m : N) (e : Z) : bool :=
  if (0 <=? e)%Z then (overflowThreshold <=? Z.of_N m * 10 ^ e)%Z
  else (overflowThreshold * 10 ^ (- e) <=? Z.of_N m)%Z.

(** The Number of the literal with sign [neg], digits [m] and exponent
    [e], rounded to nearest as ECMAScript asks.  (For a literal of more
    than 20 significant digits ECMAScript lets an implementation replace
    the digits after the 20th before rounding; the engines round the
    literal as it stands, which is what is taken here.) *)
Definition toNumber (neg : bool) (m : N) (e : Z) : JsNumber :=
  if overflows m e then Infinity neg else Decimal neg m e.

(** The longest prefix of [s0] that is an unsigned decimal literal other
    than [Infinity]: digits, a dot and digits, an exponent part; at least
    one digit before the exponent.  Its digits and its exponent. *)
Definition literal (s0 : string) : option (N * Z) :=
  let '(ip, s1) := takeDigits s0 in
  let '(fp, s2) :=
    match s1 with
    | String c r => if Ascii.eqb c "." then takeDigits r else ([], s1)
    | EmptyString => ([], s1)
    end in
  match (ip ++ fp)%list with
  | [] => None
  | ds => Some (digitsToN ds, (exponentPart s2 - Z.of_nat (List.length fp))%Z)
  end.

(** [parseFloat]: leading white space is dropped, then the longest prefix
    that is a [StrDecimalLiteral] is read; [NaN] when there is none. *)
Definition parseFloat (input : string) : JsNumber :=
  let s := Js.trimStart input in
  let '(neg, s0) := signOf s in
  if Js.startsWith s0 "Infinity" then Infinity neg
  else
    match literal s0 with
    | None => NaN
    | Some (m, e) => toNumber neg m e
    end.

(** A first character with which a text can still read as a number:
    white space, a sign, a digit, a dot, or the [I] of [Infinity]. *)
Definition opensNumber (c : ascii) : bool :=
  Js.isWhiteSpace c || isDigit c || Ascii.eqb c "-" || Ascii.eqb c "+"
  || Ascii.eqb c "." || Ascii.eqb c "I".

End Num.

(* ===================================================================== *)
(** * Data model ([lib/db.ts])                                            *)
(* ===================================================================== *)

(** A parsed CSV row: column name to text ([Record<string, string>]). *)
Abbreviation Row := (gmap string string).

(** [interface Transaction].  [type] is the unchecked cast of the
    [Debit/Credit] column, so it is kept as the optional text it is at run
    time; ["C"] is a credit and ["D"] a debit. *)
Record Transaction : Type := mkTransaction {
  tx_id : string;
  tx_date : string;
  tx_amount : JsNumber;
  tx_type : option string;
  tx_beneficiary : string;
  tx_purpose : string;
  tx_categoryId : option string;
  tx_conflicts : option (list string);
  tx_originalRow : Row
}.

(** [interface Category]. *)
Record Category : Type := mkCategory {
  cat_id : string;
  cat_name : string;
  cat_color : string;
  cat_budget : Z
}.

(** [interface Mapping]. *)
Record Mapping : Type := mkMapping {
  map_id : string;
  map_pattern : string;
  map_categoryId : string
}.

#[global] Instance Transaction_eq_dec : EqDecision Transaction.
Proof. solve_decision. Defined.
#[global] Instance Category_eq_dec : EqDecision Category.
Proof. solve_decision. Defined.
#[global] Instance Mapping_eq_dec : EqDecision Mapping.
Proof. solve_decision. Defined.

Definition set_categoryId (c : option string) (tx : Transaction) : Transaction :=
  mkTransaction (tx_id tx) (tx_date tx) (tx_amount tx) (tx_type tx)
    (tx_beneficiary tx) (tx_purpose tx) c (tx_conflicts tx) (tx_originalRow tx).

Definition set_conflicts (cs : option (list string)) (tx : Transaction) : Transaction :=
  mkTransaction (tx_id tx) (tx_date tx) (tx_amount tx) (tx_type tx)
    (tx_beneficiary tx) (tx_purpose tx) (tx_categoryId tx) cs (tx_originalRow tx).

(** The reserved categories of [ensureSystemCategories]. *)
Definition IN : string := "IN".
Definition INTERNAL : string := "INTERNAL".

(* ===================================================================== *)
(** * Rule matcher ([lib/matcher.ts])                                     *)
(* ===================================================================== *)

(** The result object [{ match?: string, conflicts?: string[] }]. *)
Record MatchResult : Type := mkResult {
  res_match : option string;
  res_conflicts : option (list string)
}.

#[global] Instance MatchResult_eq_dec : EqDecision MatchResult.
Proof. solve_decision. Defined.

Module Matcher.

Definition relevantText (transaction : Transaction) : string :=
  Js.toLowerCase (tx_beneficiary transaction +:+ " " +:+ tx_purpose transaction).

Definition normalizedIgnored (ignoredAccounts : list string) : list string :=
  List.filter (fun acc => (0 <? String.length acc)%nat)
    (List.map (fun acc => Js.trim (Js.toLowerCase acc)) ignoredAccounts).

Definition isInternal (transaction : Transaction) (ignoredAccounts : list string) : bool :=
  existsb (fun acc => Js.includes (relevantText transaction) acc)
    (normalizedIgnored ignoredAccounts).

(** [Set.prototype.add] on a set kept in insertion order. *)
Definition setAdd (x : string) (s : list string) : list string :=
  if bool_decide (x ∈ s) then s else (s ++ [x])%list.

(** The test of the loop body: the lower-cased pattern occurs in the
    lower-cased beneficiary or purpose. *)
Definition patternMatches (transaction : Transaction) (mapping : Mapping) : bool :=
  let pattern := Js.toLowerCase (map_pattern mapping) in
  let beneficiary := Js.toLowerCase (tx_beneficiary transaction) in
  let purpose := Js.toLowerCase (tx_purpose transaction) in
  Js.includes beneficiary pattern || Js.includes purpose pattern.

(** The [for ... of] loop that fills [matches]. *)
Definition collectMatches (transaction : Transaction) (mappings : list Mapping)
    (matches : list string) : list string :=
  foldl (fun matches mapping =>
           if patternMatches transaction mapping
           then setAdd (map_categoryId mapping) matches
           else matches)
        matches mappings.

Definition applyMappings (transaction : Transaction) (mappings : list Mapping)
    (ignoredAccounts : list string) : MatchResult :=
  if isInternal transaction ignoredAccounts then mkResult (Some INTERNAL) None
  else
    let matches := collectMatches transaction mappings [] in
    if (List.length matches =? 1)%nat then mkResult (head matches) None
    else if (1 <? List.length matches)%nat then mkResult None (Some matches)
    else mkResult None None.

(** Two results agree when they carry the same category id and the same
    conflict set (the same ids, in any order). *)
Definition sameResult (r1 r2 : MatchResult) : Prop :=
  res_match r1 = res_match r2
  ∧ match res_conflicts r1, res_conflicts r2 with
    | Some c1, Some c2 => c1 ≡ₚ c2
    | None, None => True
    | _, _ => False
    end.

End Matcher.

(* ===================================================================== *)
(** * Normaliser ([lib/parser.ts])                                        *)
(* ===================================================================== *)

(** What the code takes from its platform: the date library and the
    clock.  [parseDate s] stands for date-fns'
    [parse(s, 'dd.MM.yyyy', new Date())] followed by [isValid] and
    [format(_, 'yyyy-MM-dd')]: the ISO date, or [None] when the parsed date
    is not valid.  [dateNow k] is the reading of [Date.now()] taken while
    item [k] of a loop is processed. *)
Class Platform : Type := mkPlatform {
  parseDate : string → option string;
  dateNow : nat → N
}.

(** An entry of the error list: [{ row, error }], the error being
    [new Error(message)]. *)
Record RowError : Type := mkRowError {
  err_row : Row;
  err_message : string
}.

(** [interface ParseResult]. *)
Record ParseResult : Type := mkParseResult {
  data : list Transaction;
  errors : list RowError
}.

Module Parser.
Section WithPlatform.
Context {platform : Platform}.

(** What one run of the [forEach] callback does. *)
Inductive RowOutcome : Type :=
  | Skipped
  | Pushed (tx : Transaction)
  | Thrown (e : RowError).

(** The body of the [forEach] callback, inside its [try]. *)
Definition processRow (index : nat) (row : Row) : RowOutcome :=
  if negb (Js.truthy (row !! "Value date")) || negb (Js.truthy (row !! "Amount"))
  then Skipped
  else
    let dateStr := default "" (row !! "Value date") in
    let amountStr := default "" (row !! "Amount") in
    let type := row !! "Debit/Credit" in
    let id := Js.orElse (row !! "Transaction No.")
                ("gen-" +:+ pretty index +:+ "-" +:+ pretty (dateNow index)) in
    match parseDate dateStr with
    | None => Thrown (mkRowError row ("Invalid date format: " +:+ dateStr))
    | Some isoDate =>
        let amount := Num.parseFloat amountStr in
        let beneAccount := row !! "Beneficiary/payer's account number" in
        let beneficiary := Js.orElse (row !! "Beneficiary/ Payer") "" in
        let beneficiary :=
          if Js.truthy beneAccount
          then beneficiary +:+ " (" +:+ default "" beneAccount +:+ ")"
          else beneficiary in
        Pushed (mkTransaction id isoDate amount type beneficiary
                  (Js.orElse (row !! "Purpose of payment") "")
                  None None row)
    end.

(** The callback with its [catch]: the two arrays after the row. *)
Definition stepRow (index : nat) (row : Row) (acc : ParseResult) : ParseResult :=
  match processRow index row with
  | Skipped => acc
  | Pushed tx => mkParseResult (data acc ++ [tx])%list (errors acc)
  | Thrown e => mkParseResult (data acc) (errors acc ++ [e])%list
  end.

(** [results.data.forEach((row, index) => ...)] from [index] on. *)
Fixpoint forEachRow (index : nat) (rows : list Row) (acc : ParseResult) : ParseResult :=
  match rows with
  | [] => acc
  | row :: rest => forEachRow (S index) rest (stepRow index row acc)
  end.

(** The [complete] callback of [parseBankCSV]; [rows] is [results.data],
    the rows Papa Parse read from the file content under its header. *)
Definition parseBankCSV (rows : list Row) : ParseResult :=
  forEachRow 0 rows (mkParseResult [] []).

(** A row that passes the required-fields check. *)
Definition hasRequiredFields (row : Row) : bool :=
  Js.truthy (row !! "Value date") && Js.truthy (row !! "Amount").

(** The date text of the row is read by the date library. *)
Definition dateParses (row : Row) : bool :=
  bool_decide (is_Some (parseDate (default "" (row !! "Value date")))).

(** The rows that give a transaction, and the rows that give an error. *)
Definition accepted (row : Row) : bool := hasRequiredFields row && dateParses row.
Definition rejected (row : Row) : bool := hasRequiredFields row && negb (dateParses row).

End WithPlatform.
End Parser.

(* ===================================================================== *)
(** * The store ([lib/db.ts])                                             *)
(* ===================================================================== *)

(** The object stores of the database, each keyed by its key path [id]
    (every write below stores a record under its own [id]), and the
    [ignoredAccounts] entry of the settings store. *)
Record DB : Type := mkDB {
  transactions : gmap string Transaction;
  categories : gmap string Category;
  mappings : gmap string Mapping;
  ignoredAccounts : list string
}.

Module Store.

(** Keys are ordered as strings, code unit by code unit. *)
Definition keyLe {V : Type} (a b : string * V) : Prop :=
  String.leb a.1 b.1 = true.

#[global] Instance keyLe_dec {V : Type} (a b : string * V) : Decision (keyLe a b).
Proof. unfold keyLe. apply _. Defined.

(** The records of a store with their keys, in ascending key order, as
    [getAll] returns them and as a cursor visits them. *)
Definition entries {V : Type} (store : gmap string V) : list (string * V) :=
  merge_sort keyLe (map_to_list store).

Definition getAllTransactions (db : DB) : list Transaction :=
  (entries (transactions db)).*2.

Definition getMappings (db : DB) : list Mapping :=
  (entries (mappings db)).*2.

Definition getCategories (db : DB) : list Category :=
  (entries (categories db)).*2.

Definition getIgnoredAccounts (db : DB) : list string := ignoredAccounts db.

(** [store.put(t)] on the transactions store. *)
Definition putTransaction (store : gmap string Transaction) (t : Transaction)
    : gmap string Transaction :=
  <[tx_id t := t]> store.

Definition saveTransactions (txs : list Transaction) (db : DB) : DB :=
  mkDB (foldl putTransaction (transactions db) txs)
       (categories db) (mappings db) (ignoredAccounts db).

Definition addMapping (mapping : Mapping) (db : DB) : DB :=
  mkDB (transactions db) (categories db)
       (<[map_id mapping := mapping]> (mappings db)) (ignoredAccounts db).

(** The records the [by-category] index holds under the key [id]. *)
Definition byCategory (id : string) (store : gmap string Transaction)
    : list (string * Transaction) :=
  entries (filter (fun kv => tx_categoryId kv.2 = Some id) store).

(** The first cursor loop of [deleteCategory]: every record under the
    cursor is written back at its own key without its [categoryId]. *)
Definition unsetCategory (id : string) (store : gmap string Transaction)
    : gmap string Transaction :=
  foldl (fun store kv => <[kv.1 := set_categoryId None kv.2]> store)
        store (byCategory id store).

(** The second cursor loop: a scan of the mappings store that deletes the
    records of the category. *)
Definition deleteMappingsOf (id : string) (store : gmap string Mapping)
    : gmap string Mapping :=
  foldl (fun store kv =>
           if bool_decide (map_categoryId kv.2 = id) then delete kv.1 store
           else store)
        store (entries store).

(** A transaction as the first cursor loop of [deleteCategory] leaves it. *)
Definition unassigned (id : string) (t : Transaction) : Transaction :=
  if bool_decide (tx_categoryId t = Some id) then set_categoryId None t else t.

(** [deleteCategory]: one read-write transaction over the three stores. *)
Definition deleteCategory (id : string) (db : DB) : DB :=
  mkDB (unsetCategory id (transactions db))
       (delete id (categories db))
       (deleteMappingsOf id (mappings db))
       (ignoredAccounts db).

End Store.

(* ===================================================================== *)
(** * Import page ([pages/Import.tsx])                                    *)
(* ===================================================================== *)

Module ImportPage.
Section WithPlatform.
Context {platform : Platform}.

(** The body of [parseResult.data.forEach(tx => ...)]. *)
Definition categorize (mappings : list Mapping) (ignored : list string)
    (tx : Transaction) : Transaction :=
  if negb (Js.truthy (tx_categoryId tx)) then
    let r := Matcher.applyMappings tx mappings ignored in
    if Js.truthy (res_match r) then set_categoryId (res_match r) tx
    else match res_conflicts r with
         | Some conflicts => set_conflicts (Some conflicts) tx
         | None =>
             if bool_decide (tx_type tx = Some "C")
             then set_categoryId (Some IN) tx
             else tx
         end
  else tx.

(** [handleFileSelect]: parse the file, then categorise what was parsed. *)
Definition handleFileSelect (rows : list Row) (db : DB) : ParseResult :=
  let ignored := Store.getIgnoredAccounts db in
  let parseResult := Parser.parseBankCSV rows in
  let mappings := Store.getMappings db in
  mkParseResult (List.map (categorize mappings ignored) (data parseResult))
                (errors parseResult).

(** [handleSave]: the categorised transactions go to the store. *)
Definition handleSave (result : ParseResult) (db : DB) : DB :=
  Store.saveTransactions (data result) db.

End WithPlatform.
End ImportPage.

(* ===================================================================== *)
(** * Manual resolution                                                   *)
(* ===================================================================== *)

Module Resolve.

Definition findById (txId : string) (txs : list Transaction) : option Transaction :=
  List.find (fun t => bool_decide (tx_id t = txId)) txs.

(** [updateCategory] of the transactions page.  The page holds the stored
    transactions sorted by date; a record is stored under its [id], so the
    order does not matter to [find]. *)
Definition updateCategory (txId newCategoryId : string) (db : DB) : DB :=
  match findById txId (Store.getAllTransactions db) with
  | Some tx =>
      if negb (bool_decide (tx_categoryId tx = Some newCategoryId))
      then Store.saveTransactions
             [set_conflicts None (set_categoryId (Some newCategoryId) tx)] db
      else db
  | None => db
  end.

(** [handleCategorize] of the uncategorised page. *)
Definition handleCategorize (txId catId : string) (db : DB) : DB :=
  match findById txId (Store.getAllTransactions db) with
  | Some tx =>
      Store.saveTransactions
        [set_conflicts None (set_categoryId (Some catId) tx)] db
  | None => db
  end.

End Resolve.

(* ===================================================================== *)
(** * Categories page ([pages/Categories.tsx])                            *)
(* ===================================================================== *)

(** An entry of the rule interchange file, [{ pattern, categoryId }]; a
    field the object does not carry reads as [undefined].  The array that
    [JSON.parse] gives is a list of [option ImportedRule]: [None] is a
    [null] entry, on which reading [rule.pattern] throws a [TypeError];
    any other value is read through its two properties, which are taken
    to be strings or absent, as the export writes them. *)
Record ImportedRule : Type := mkImportedRule {
  rule_pattern : option string;
  rule_categoryId : option string
}.

#[global] Instance ImportedRule_eq_dec : EqDecision ImportedRule.
Proof. solve_decision. Defined.

(** What the rule import tells the user when it ends: the count of
    [alert(`Import complete. Added ${added} new rules.`)], or the failure
    of the [catch], [alert('Failed to import. Invalid JSON.')]. *)
Inductive ImportOutcome : Type :=
  | ImportComplete (added : nat)
  | ImportFailed.

(** The entries of a payload the loop of the import reaches: the ones
    before the first [null]. *)
Fixpoint reached (imported : list (option ImportedRule)) : list ImportedRule :=
  match imported with
  | Some rule :: rest => rule :: reached rest
  | _ => []
  end.

Module CategoriesPage.

(** [tx.conflicts && tx.conflicts.length > 0]. *)
Definition hasConflicts (tx : Transaction) : bool :=
  match tx_conflicts tx with
  | Some (_ :: _) => true
  | _ => false
  end.

(** The body of [txs.forEach(tx => ...)] in [handleReapplyRules]: the
    transaction after the strict update, and the flag [changed].

    [JSON.stringify] is one-to-one on arrays of strings and is [undefined]
    on [undefined] only, so the two serialisations differ exactly when the
    stored array and the recomputed one differ as ordered arrays. *)
Definition reapplyOne (maps : list Mapping) (ignored : list string)
    (tx : Transaction) : Transaction * bool :=
  let r := Matcher.applyMappings tx maps ignored in
  if Js.truthy (res_match r) then
    if negb (bool_decide (tx_categoryId tx = res_match r)) || hasConflicts tx
    then (set_conflicts None (set_categoryId (res_match r) tx), true)
    else (tx, false)
  else
    match res_conflicts r with
    | Some conflicts =>
        if Js.truthy (tx_categoryId tx)
           || negb (bool_decide (tx_conflicts tx = Some conflicts))
        then (set_conflicts (Some conflicts) (set_categoryId None tx), true)
        else (tx, false)
    | None =>
        if bool_decide (tx_type tx = Some "C") then
          if negb (bool_decide (tx_categoryId tx = Some IN))
          then (set_conflicts None (set_categoryId (Some IN) tx), true)
          else (tx, false)
        else
          if Js.truthy (tx_categoryId tx) || bool_decide (is_Some (tx_conflicts tx))
          then (set_conflicts None (set_categoryId None tx), true)
          else (tx, false)
    end.

(** The [forEach] loop: the transactions as mutated, and [updatedCount]. *)
Definition reapplyAll (maps : list Mapping) (ignored : list string)
    (txs : list Transaction) : list Transaction * nat :=
  foldl (fun acc tx =>
           let '(tx', changed) := reapplyOne maps ignored tx in
           ((acc.1 ++ [tx'])%list, if changed then S acc.2 else acc.2))
        ([], 0) txs.

(** [handleReapplyRules] once the user has confirmed: the store afterwards
    and the count that is reported. *)
Definition handleReapplyRules (db : DB) : DB * nat :=
  let txs := Store.getAllTransactions db in
  let maps := Store.getMappings db in
  let ignored := Store.getIgnoredAccounts db in
  let '(txs', updatedCount) := reapplyAll maps ignored txs in
  (if (0 <? updatedCount)%nat then Store.saveTransactions txs' db else db,
   updatedCount).

(** A rule of the payload that the loop adds, given the patterns held
    when the import starts. *)
Definition isAdded (currentPatterns : list string) (rule : ImportedRule) : bool :=
  Js.truthy (rule_pattern rule) && Js.truthy (rule_categoryId rule)
  && negb (bool_decide (default "" (rule_pattern rule) ∈ currentPatterns)).

Section WithPlatform.
Context {platform : Platform}.

(** One turn of [for (const rule of imported)]; [index] counts the turns
    and [added] the rules added so far. *)
Definition importRule (currentPatterns : list string) (index : nat)
    (rule : ImportedRule) (acc : DB * nat) : DB * nat :=
  let '(db, added) := acc in
  if negb (Js.truthy (rule_pattern rule)) || negb (Js.truthy (rule_categoryId rule))
  then acc
  else
    let pattern := default "" (rule_pattern rule) in
    let categoryId := default "" (rule_categoryId rule) in
    if bool_decide (pattern ∈ currentPatterns) then acc
    else
      (Store.addMapping
         (mkMapping ("map-imp-" +:+ pretty (dateNow index) +:+ "-" +:+ pretty added)
                    pattern categoryId) db,
       S added).

(** [for (const rule of imported) { ... }] inside the [try]: at a [null]
    entry [rule.pattern] throws, the loop is left for the [catch], and
    the mappings added so far stay in the store ([addMapping] was
    awaited for each). *)
Fixpoint importRules (currentPatterns : list string) (index : nat)
    (imported : list (option ImportedRule)) (acc : DB * nat) : DB * ImportOutcome :=
  match imported with
  | [] => (acc.1, ImportComplete acc.2)
  | None :: _ => (acc.1, ImportFailed)
  | Some rule :: rest =>
      importRules currentPatterns (S index) rest
        (importRule currentPatterns index rule acc)
  end.

(** [handleImportRules] on a payload that parsed to an array, once the
    user has confirmed the merge: the store afterwards and what the user
    is told.  [currentPatterns] is built once, from the mappings the page
    holds. *)
Definition handleImportRules (imported : list (option ImportedRule)) (db : DB)
    : DB * ImportOutcome :=
  let currentPatterns := List.map map_pattern (Store.getMappings db) in
  importRules currentPatterns 0 imported (db, 0).

End WithPlatform.
End CategoriesPage.

(* ===================================================================== *)
(** * Invariants of the data model                                        *)
(* ===================================================================== *)

(** Exclusivity: not both a non-empty [categoryId] and a non-empty
    [conflicts]. *)
Definition exclusive (tx : Transaction) : bool :=
  negb (Js.truthy (tx_categoryId tx) && CategoriesPage.hasConflicts tx).

Definition dbExclusive (db : DB) : Prop :=
  ∀ k tx, transactions db !! k = Some tx → exclusive tx = true.

(** Invariant 1: a transaction's [categoryId], if set, names a category. *)
Definition transactionsReferToCategories (db : DB) : Prop :=
  ∀ k tx c, transactions db !! k = Some tx → tx_categoryId tx = Some c →
            is_Some (categories db !! c).

(** Invariant 2: a mapping's [categoryId] names a category. *)
Definition mappingsReferToCategories (db : DB) : Prop :=
  ∀ k m, mappings db !! k = Some m → is_Some (categories db !! map_categoryId m).

(** The operations of the core that write transactions. *)
Inductive CoreOp : Type :=
  | OpImport (rows : list Row)
  | OpUpdateCategory (txId newCategoryId : string)
  | OpCategorize (txId catId : string)
  | OpReapplyRules
  | OpDeleteCategory (id : string).

Definition runOp {platform : Platform} (op : CoreOp) (db : DB) : DB :=
  match op with
  | OpImport rows => ImportPage.handleSave (ImportPage.handleFileSelect rows db) db
  | OpUpdateCategory txId newCategoryId => Resolve.updateCategory txId newCategoryId db
  | OpCategorize txId catId => Resolve.handleCategorize txId catId db
  | OpReapplyRules => (CategoriesPage.handleReapplyRules db).1
  | OpDeleteCategory id => Store.deleteCategory id db
  end.

(** The stored state and the recomputed one agree field by field, the
    conflict sets being compared without regard to order. *)
Definition sameStateUpToOrder (t1 t2 : Transaction) : Prop :=
  tx_id t1 = tx_id t2 ∧ tx_date t1 = tx_date t2 ∧ tx_amount t1 = tx_amount t2
  ∧ tx_type t1 = tx_type t2 ∧ tx_beneficiary t1 = tx_beneficiary t2
  ∧ tx_purpose t1 = tx_purpose t2 ∧ tx_categoryId t1 = tx_categoryId t2
  ∧ tx_originalRow t1 = tx_originalRow t2
  ∧ match tx_conflicts t1, tx_conflicts t2 with
    | Some c1, Some c2 => c1 ≡ₚ c2
    | None, None => True
    | _, _ => False
    end.

(* ===================================================================== *)
(** * The other functions of the store ([lib/db.ts])                      *)
(* ===================================================================== *)

Module Db.

(** [addCategory]: a [put] on the categories store. *)
Definition addCategory (category : Category) (db : DB) : DB :=
  mkDB (transactions db) (<[cat_id category := category]> (categories db))
       (mappings db) (ignoredAccounts db).

(** [deleteMapping]. *)
Definition deleteMapping (id : string) (db : DB) : DB :=
  mkDB (transactions db) (categories db) (delete id (mappings db))
       (ignoredAccounts db).

(** [setIgnoredAccounts]. *)
Definition setIgnoredAccounts (accounts : list string) (db : DB) : DB :=
  mkDB (transactions db) (categories db) (mappings db) accounts.

(** The records [ensureSystemCategories] writes. *)
Definition incomeCategory : Category := mkCategory "IN" "Income" "#22c55e" 0.
Definition internalCategory : Category :=
  mkCategory "INTERNAL" "Internal / Ignored" "#9ca3af" 0.

(** [ensureSystemCategories]: each of the two records is written only if
    no record is stored under its id. *)
Definition ensureSystemCategories (db : DB) : DB :=
  let db1 :=
    match categories db !! "IN" with
    | Some _ => db
    | None => addCategory incomeCategory db
    end in
  match categories db1 !! "INTERNAL" with
  | Some _ => db1
  | None => addCategory internalCategory db1
  end.

End Db.

(* ===================================================================== *)
(** * Settings page ([pages/Settings.tsx])                                *)
(* ===================================================================== *)

Module SettingsPage.

(** [handleAddAccount]; the list the page holds is the stored one. *)
Definition handleAddAccount (newAccount : string) (db : DB) : DB :=
  if negb (Js.truthy (Some newAccount)) then db
  else Db.setIgnoredAccounts
         (Store.getIgnoredAccounts db ++ [Js.trim newAccount])%list db.

(** [handleDeleteAccount], once the user has confirmed. *)
Definition handleDeleteAccount (acc : string) (db : DB) : DB :=
  Db.setIgnoredAccounts
    (List.filter (fun a => negb (bool_decide (a = acc)))
       (Store.getIgnoredAccounts db)) db.

End SettingsPage.

(* ===================================================================== *)
(** * Categories page: rules, categories and suggestions                  *)
(* ===================================================================== *)

(** An entry of the suggestion list: [{ name, count, example }]. *)
Record Suggestion : Type := mkSuggestion {
  sug_name : string;
  sug_count : nat;
  sug_example : string
}.

Module RulesPage.

(** [handleExportRules]: the array of objects that is serialised to the
    file; [JSON.parse] gives back the array [JSON.stringify] was given. *)
Definition handleExportRules (mappings : list Mapping) : list ImportedRule :=
  List.map (fun m => mkImportedRule (Some (map_pattern m)) (Some (map_categoryId m)))
    mappings.

(** The key under which [findSuggestions] counts a transaction:
    [t.beneficiary || t.purpose]. *)
Definition suggestionKey (t : Transaction) : string :=
  Js.orElse (Some (tx_beneficiary t)) (tx_purpose t).

(** [counts.get(key) || { count: 0, example: key }], [entry.count++] and
    [counts.set(key, entry)] on a [Map] kept in insertion order. *)
Fixpoint countKey (key : string) (counts : list (string * (nat * string)))
    : list (string * (nat * string)) :=
  match counts with
  | [] => [(key, (1, key))]
  | (k, (n, example)) :: rest =>
      if bool_decide (k = key) then (k, (S n, example)) :: rest
      else (k, (n, example)) :: countKey key rest
  end.

(** The body of [uncategorized.forEach(t => ...)]. *)
Definition countTransaction (counts : list (string * (nat * string)))
    (t : Transaction) : list (string * (nat * string)) :=
  let key := suggestionKey t in
  if negb (Js.truthy (Some key)) || (String.length key <? 3)%nat then counts
  else countKey key counts.

(** A place for [x] in a list sorted by falling count: behind every entry
    that does not count less. *)
Fixpoint insertByCount (x : Suggestion) (l : list Suggestion) : list Suggestion :=
  match l with
  | [] => [x]
  | y :: l' =>
      if (sug_count y <? sug_count x)%nat then x :: y :: l'
      else y :: insertByCount x l'
  end.

(** [.sort((a, b) => b.count - a.count)]: the sort of an array is stable,
    so its result is the one of the insertion sort that takes the entries
    in their order. *)
Definition sortByCount (l : list Suggestion) : list Suggestion :=
  foldl (fun acc x => insertByCount x acc) [] l.

(** [findSuggestions] on the stored transactions: what [setSuggestions]
    is given. *)
Definition findSuggestions (txs : list Transaction) : list Suggestion :=
  let uncategorized := List.filter (fun t => negb (Js.truthy (tx_categoryId t))) txs in
  let counts := foldl countTransaction [] uncategorized in
  take 10 (sortByCount
             (List.map (fun e => mkSuggestion e.1 e.2.1 e.2.2) counts)).

Section WithPlatform.
Context {platform : Platform}.

(** [saveMapping], the body of [handleAddMapping]. *)
Definition saveMapping (pattern categoryId : string) (db : DB) : DB :=
  if negb (Js.truthy (Some pattern)) || negb (Js.truthy (Some categoryId)) then db
  else Store.addMapping
         (mkMapping ("map-" +:+ pretty (dateNow 0)) pattern categoryId) db.

(** [handleAddCategory]. *)
Definition handleAddCategory (catName catColor : string) (db : DB) : DB :=
  if negb (Js.truthy (Some catName)) then db
  else Db.addCategory
         (mkCategory ("cat-" +:+ pretty (dateNow 0)) catName catColor 0) db.

End WithPlatform.

(** [handleUpdateColor]: the category is written back with the new
    colour. *)
Definition handleUpdateColor (category : Category) (newColor : string) (db : DB) : DB :=
  Db.addCategory
    (mkCategory (cat_id category) (cat_name category) newColor (cat_budget category)) db.

End RulesPage.

(* ===================================================================== *)
(** * The lists the pages show                                            *)
(* ===================================================================== *)

Module Pages.

(** The uncategorised page keeps the transactions without a category
    ([txs.filter(t => !t.categoryId)]); it then sorts them by date. *)
Definition uncategorized (txs : list Transaction) : list Transaction :=
  List.filter (fun t => negb (Js.truthy (tx_categoryId t))) txs.

(** [t.date.substring(0, 7)]. *)
Definition monthOf (t : Transaction) : string := String.substring 0 7 (tx_date t).

(** [availableMonths]: the months of the transactions, collected in a
    [Set], sorted as strings and reversed. *)
Definition availableMonths (txs : list Transaction) : list string :=
  reverse (merge_sort String.le
             (foldl (fun months t => Matcher.setAdd (monthOf t) months) [] txs)).

(** The month filter of the transactions and uncategorised pages. *)
Definition filterByMonth (selectedMonth : string) (txs : list Transaction)
    : list Transaction :=
  List.filter (fun t => bool_decide (selectedMonth = "all")
                        || Js.startsWith (tx_date t) selectedMonth) txs.

(** The category filter of the transactions page; a transaction without a
    category goes under ['uncategorized']. *)
Definition filterByCategories (selectedCategories : list string)
    (txs : list Transaction) : list Transaction :=
  if (0 <? List.length selectedCategories)%nat
  then List.filter
         (fun t => bool_decide
                     (Js.orElse (tx_categoryId t) "uncategorized" ∈ selectedCategories))
         txs
  else txs.

(** [toggleCategory] of the transactions page. *)
Definition toggleCategory (catId : string) (prev : list string) : list string :=
  if bool_decide (catId ∈ prev)
  then List.filter (fun id => negb (bool_decide (id = catId))) prev
  else (prev ++ [catId])%list.

(** [internalCatIds] of the dashboard: the ids of the categories whose
    lower-cased name contains [internal], or whose id is [INTERNAL]. *)
Definition internalCatIds (categoryList : list Category) : list string :=
  List.map cat_id
    (List.filter (fun c => Js.includes (Js.toLowerCase (cat_name c)) "internal"
                           || bool_decide (cat_id c = INTERNAL))
       categoryList).

(** The transactions the dashboard counts: the test that opens the loop
    of [monthlyData] and the filter of [averageData]. *)
Definition counted (includeInternal : bool) (internalCatIds : list string)
    (t : Transaction) : bool :=
  negb (negb includeInternal && Js.truthy (tx_categoryId t)
        && bool_decide (default "" (tx_categoryId t) ∈ internalCatIds)).

End Pages.

(* ===================================================================== *)
(** * Further invariants and the operations of the other pages            *)
(* ===================================================================== *)

(** A record of the transactions store sits under its [id], the key path
    of the store. *)
Definition keyedById (db : DB) : Prop :=
  ∀ k t, transactions db !! k = Some t → tx_id t = k.

(** The two categories [ensureSystemCategories] looks after are stored. *)
Definition systemCategoriesPresent (db : DB) : Prop :=
  is_Some (categories db !! IN) ∧ is_Some (categories db !! INTERNAL).

(** Invariant 3 of the data model: conflicts, if present, list at least
    two ids, each once, and there is no non-empty [categoryId]. *)
Definition conflictsWellFormed (tx : Transaction) : Prop :=
  ∀ cs, tx_conflicts tx = Some cs →
        NoDup cs ∧ (2 ≤ List.length cs)%nat ∧ Js.truthy (tx_categoryId tx) = false.

Definition dbConflictsWellFormed (db : DB) : Prop :=
  ∀ k tx, transactions db !! k = Some tx → conflictsWellFormed tx.

(** No rule has an empty pattern or an empty category. *)
Definition rulesNonEmpty (db : DB) : Prop :=
  ∀ k m, mappings db !! k = Some m → map_pattern m ≠ "" ∧ map_categoryId m ≠ "".

(** A text without a dash, as the text of a number is. *)
Fixpoint noDash (s : string) : bool :=
  match s with
  | EmptyString => true
  | String c s' => negb (Ascii.eqb c "-") && noDash s'
  end.

(** A transaction whose row carries no transaction number: its id is the
    one the parser makes up. *)
Definition hasGeneratedId (t : Transaction) : bool :=
  negb (Js.truthy (tx_originalRow t !! "Transaction No.")).

(** The transactions the parser pushes for the rows from [index] on, in
    their order. *)
Fixpoint pushedFrom {platform : Platform} (index : nat) (rows : list Row)
    : list Transaction :=
  match rows with
  | [] => []
  | row :: rest =>
      match Parser.processRow index row with
      | Parser.Pushed tx => tx :: pushedFrom (S index) rest
      | _ => pushedFrom (S index) rest
      end
  end.

(** [counts.get(key)] on the [Map] of [findSuggestions]. *)
Fixpoint countsGet (key : string) (counts : list (string * (nat * string)))
    : option (nat * string) :=
  match counts with
  | [] => None
  | (k, v) :: rest => if bool_decide (k = key) then Some v else countsGet key rest
  end.

(** The number of uncategorised transactions that [findSuggestions]
    counts under [key]. *)
Definition occurrences (key : string) (txs : list Transaction) : nat :=
  List.length
    (List.filter (fun t => bool_decide (RulesPage.suggestionKey t = key))
       (Pages.uncategorized txs)).

(** A key that [findSuggestions] counts: the guard
    [if (!key || key.length < 3) return] lets it through. *)
Definition eligible (key : string) : bool :=
  negb (negb (Js.truthy (Some key)) || (String.length key <? 3)%nat).

(** The number of transactions of [l] whose key is [key]. *)
Definition occ (key : string) (l : list Transaction) : nat :=
  List.length (List.filter (fun t => bool_decide (RulesPage.suggestionKey t = key)) l).

(** The order of the suggestion list: the earlier entry counts no less. *)
Definition countsNoLess (a b : Suggestion) : Prop := (sug_count b ≤ sug_count a)%nat.

(** The category a manual resolution assigns is a stored one. *)
Definition targetExists (op : CoreOp) (db : DB) : Prop :=
  match op with
  | OpUpdateCategory _ c | OpCategorize _ c => is_Some (categories db !! c)
  | _ => True
  end.

(** The operations of the categories and settings pages on categories,
    rules and ignored accounts. *)
Inductive AdminOp : Type :=
  | OpAddCategory (catName catColor : string)
  | OpUpdateColor (category : Category) (newColor : string)
  | OpEnsureSystemCategories
  | OpSaveMapping (pattern categoryId : string)
  | OpDeleteMapping (id : string)
  | OpAddAccount (newAccount : string)
  | OpDeleteAccount (acc : string).

Definition runAdmin {platform : Platform} (op : AdminOp) (db : DB) : DB :=
  match op with
  | OpAddCategory catName catColor => RulesPage.handleAddCategory catName catColor db
  | OpUpdateColor category newColor => RulesPage.handleUpdateColor category newColor db
  | OpEnsureSystemCategories => Db.ensureSystemCategories db
  | OpSaveMapping pattern categoryId => RulesPage.saveMapping pattern categoryId db
  | OpDeleteMapping id => Db.deleteMapping id db
  | OpAddAccount newAccount => SettingsPage.handleAddAccount newAccount db
  | OpDeleteAccount acc => SettingsPage.handleDeleteAccount acc db
  end.

(** A rule is saved for a stored category (the form offers no other). *)
Definition adminTargetExists (op : AdminOp) (db : DB) : Prop :=
  match op with
  | OpSaveMapping _ categoryId => is_Some (categories db !! categoryId)
  | _ => True
  end.

(* ===================================================================== *)
(** * A platform and data for the examples                                *)
(* ===================================================================== *)

Module Sample.

Definition twoDigits (a b : ascii) : nat :=
  10 * N.to_nat (Num.digitValue a) + N.to_nat (Num.digitValue b).

Definition leapYear (y : nat) : bool :=
  ((y mod 4 =? 0) && negb (y mod 100 =? 0) || (y mod 400 =? 0))%nat.

Definition daysInMonth (y m : nat) : nat :=
  match m with
  | 2 => if leapYear y then 29 else 28
  | 4 | 6 | 9 | 11 => 30
  | _ => 31
  end.

(** A date reader for the examples: it accepts the ten characters
    [dd.MM.yyyy] of a calendar date and gives [yyyy-MM-dd]. *)
Definition readDate (s : string) : option string :=
  match list_ascii_of_string s with
  | [d1; d2; p1; m1; m2; p2; y1; y2; y3; y4] =>
      let day := twoDigits d1 d2 in
      let month := twoDigits m1 m2 in
      let year := (100 * twoDigits y1 y2 + twoDigits y3 y4)%nat in
      if Ascii.eqb p1 "." && Ascii.eqb p2 "."
         && forallb Num.isDigit [d1; d2; m1; m2; y1; y2; y3; y4]
         && (1 <=? year)%nat && (1 <=? month)%nat && (month <=? 12)%nat
         && (1 <=? day)%nat && (day <=? daysInMonth year month)%nat
      then Some (string_of_list_ascii
                   [y1; y2; y3; y4; "-"%char; m1; m2; "-"%char; d1; d2])
      else None
  | _ => None
  end.

(** The clock of the examples stands still. *)
Definition platform : Platform := mkPlatform readDate (fun _ => 1700000000000%N).

(** A debit at a shop, paid to the account LV11. *)
Definition rowRimi : Row :=
  list_to_map
    [("Value date", "01.02.2024"); ("Amount", "1.09"); ("Debit/Credit", "D");
     ("Transaction No.", "ID123");
     ("Beneficiary/payer's account number", "LV11");
     ("Purpose of payment", "Karte: ... Pirkums - RIMI MHM ADAZI")].

Definition txRimi : Transaction :=
  mkTransaction "ID123" "2024-02-01" (Decimal false 109 (-2)) (Some "D")
    " (LV11)" "Karte: ... Pirkums - RIMI MHM ADAZI" None None rowRimi.

(** A row whose date is not in the source format. *)
Definition rowBadDate : Row :=
  list_to_map [("Value date", "2024/02/01"); ("Amount", "5.00");
               ("Debit/Credit", "D")].

(** A footer line: no amount. *)
Definition rowFooter : Row := list_to_map [("Value date", "01.02.2024")].

(** A row whose amount carries a minus sign. *)
Definition rowNegative : Row :=
  list_to_map [("Value date", "03.02.2024"); ("Amount", "-5.00");
               ("Debit/Credit", "D"); ("Transaction No.", "ID124")].

Definition txNegative : Transaction :=
  mkTransaction "ID124" "2024-02-03" (Decimal true 500 (-2)) (Some "D")
    "" "" None None rowNegative.

Definition ruleRimi : Mapping := mkMapping "1" "RIMI" "cat-1".
Definition ruleNetflix : Mapping := mkMapping "2" "NETFLIX" "cat-a".
Definition ruleFlix : Mapping := mkMapping "3" "FLIX" "cat-b".

(** A subscription the two rules above both match, stored with its
    conflicts listed as an earlier order of the rules gave them. *)
Definition txNetflix : Transaction :=
  mkTransaction "ID200" "2024-02-05" (Decimal false 999 (-2)) (Some "D")
    "" "NETFLIX SUBSCRIPTION FLIX" None (Some ["cat-b"; "cat-a"]) ∅.

(** A salary payment no rule matches. *)
Definition txSalary : Transaction :=
  mkTransaction "ID300" "2024-02-10" (Decimal false 150000 (-2)) (Some "C")
    "ACME" "SALARY" None None ∅.

Definition cat1 : Category := mkCategory "cat-1" "Groceries" "#3b82f6" 0.
Definition catA : Category := mkCategory "cat-a" "Streaming" "#ef4444" 0.
Definition catB : Category := mkCategory "cat-b" "Other" "#22c55e" 0.

Definition db0 : DB :=
  mkDB (list_to_map [("ID200", txNetflix);
                     ("ID123", set_categoryId (Some "cat-1") txRimi)])
       (list_to_map [("cat-1", cat1); ("cat-a", catA); ("cat-b", catB)])
       (list_to_map [("1", ruleRimi); ("2", ruleNetflix); ("3", ruleFlix)])
       ["LV99"].

(** A statement of four rows. *)
Definition statement : list Row := [rowRimi; rowBadDate; rowFooter; rowNegative].

(** A salary payment as a row of a statement, and what the parser makes
    of it. *)
Definition rowSalary : Row :=
  list_to_map
    [("Value date", "10.02.2024"); ("Amount", "1500.00"); ("Debit/Credit", "C");
     ("Transaction No.", "ID300"); ("Beneficiary/ Payer", "ACME");
     ("Purpose of payment", "SALARY")].

Definition txSalaryParsed : Transaction :=
  mkTransaction "ID300" "2024-02-10" (Decimal false 150000 (-2)) (Some "C")
    "ACME" "SALARY" None None rowSalary.

(** The sample store with the salary payment stored without a category. *)
Definition dbSalary : DB := Store.saveTransactions [txSalary] db0.

(** The sample store once the application has started
    ([ensureSystemCategories] runs at start-up). *)
Definition db1 : DB := Db.ensureSystemCategories db0.

(** A second rule for the shop, for the same category. *)
Definition ruleRimiShop : Mapping := mkMapping "4" "rimi mhm" "cat-1".

End Sample.

(* ===================================================================== *)
(** * Facts about strings                                                 *)
(* ===================================================================== *)

Module JsFacts.
Import Js.

Lemma toLowerCase_app (s t : string) :
  toLowerCase (s +:+ t) = toLowerCase s +:+ toLowerCase t.
Proof. induction s as [|c s IH]; simpl; [done|]. by rewrite IH. Qed.

Lemma startsWith_app (p s : string) : startsWith (p +:+ s) p = true.
Proof.
  induction p as [|c p IH]; simpl; [done|].
  by rewrite Ascii.eqb_refl, IH.
Qed.

Lemma includes_cons (c : ascii) (s p : string) :
  includes s p = true → includes (String c s) p = true.
Proof. intros H. simpl. rewrite H. apply orb_true_r. Qed.

Lemma includes_app_l (a s p : string) :
  includes s p = true → includes (a +:+ s) p = true.
Proof.
  intros H. induction a as [|c a IH]; simpl in *; [done|].
  rewrite IH. apply orb_true_r.
Qed.

Lemma includes_here (p s : string) : includes (p +:+ s) p = true.
Proof.
  pose proof (startsWith_app p s) as H.
  destruct (p +:+ s); simpl; by rewrite H.
Qed.

(** A string includes whatever stands in its middle. *)
Lemma includes_middle (a p b : string) : includes (a +:+ p +:+ b) p = true.
Proof. apply includes_app_l, includes_here. Qed.

Lemma append_assoc (a b c : string) : (a +:+ b) +:+ c = a +:+ b +:+ c.
Proof.
  induction a as [|x a IH]; [reflexivity|].
  change (String x ((a +:+ b) +:+ c) = String x (a +:+ b +:+ c)).
  by f_equal.
Qed.

Lemma trimStart_suffix (s : string) : ∃ a, s = a +:+ trimStart s.
Proof.
  induction s as [|c s [a IH]]; [by exists ""|].
  cbn [trimStart]. destruct (isWhiteSpace c).
  - exists (String c a). change (String c s = String c (a +:+ trimStart s)).
    by f_equal.
  - by exists "".
Qed.

Lemma trimEnd_prefix (s : string) : ∃ b, s = trimEnd s +:+ b.
Proof.
  induction s as [|c s [b IH]]; [by exists ""|].
  cbn [trimEnd]. destruct (isWhiteSpace c && (trimEnd s =? "")%string).
  - by exists (String c s).
  - exists b. change (String c s = String c (trimEnd s +:+ b)). by f_equal.
Qed.

(** A string, followed by anything, includes what [trim] keeps of it. *)
Lemma includes_trim (s y : string) : includes (s +:+ y) (trim s) = true.
Proof.
  destruct (trimStart_suffix s) as [a Ha].
  destruct (trimEnd_prefix (trimStart s)) as [b Hb].
  fold (trim s) in Hb. revert Ha Hb. generalize (trim s) (trimStart s).
  intros t u -> ->. rewrite !append_assoc. apply includes_middle.
Qed.

Lemma includes_empty (s : string) : includes s "" = true.
Proof. by destruct s. Qed.

Lemma lowerChar_whiteSpace (c : ascii) :
  isWhiteSpace c = true → lowerChar c = c.
Proof.
  destruct c as [[] [] [] [] [] [] [] []]; vm_compute; congruence.
Qed.

Lemma toLowerCase_blank (s : string) :
  blank s = true → toLowerCase s = s.
Proof.
  induction s as [|c s IH]; simpl; [done|].
  intros [Hc Hs]%andb_true_iff. by rewrite lowerChar_whiteSpace, IH.
Qed.

Lemma trimStart_blank (s : string) : blank s = true → trimStart s = "".
Proof.
  induction s as [|c s IH]; simpl; [done|].
  intros [Hc Hs]%andb_true_iff. rewrite Hc. by apply IH.
Qed.

(** A blank identifier is empty once lower-cased and trimmed. *)
Lemma trim_toLowerCase_blank (s : string) :
  blank s = true → trim (toLowerCase s) = "".
Proof.
  intros H. rewrite toLowerCase_blank by done.
  unfold trim. by rewrite trimStart_blank.
Qed.

Lemma length_pos_nonempty (s : string) :
  (0 <? String.length s)%nat = true ↔ s ≠ "".
Proof. destruct s; simpl; split; (done || congruence). Qed.

Lemma truthy_Some (v : option string) :
  truthy v = true → ∃ s, v = Some s ∧ s ≠ "".
Proof.
  destruct v as [s|]; simpl; [|done].
  intros H. exists s. split; [done|]. intros ->. done.
Qed.

Lemma orElse_truthy (v : option string) (d : string) :
  truthy v = true → Some (orElse v d) = v.
Proof.
  destruct v as [s|]; simpl; [|done].
  by destruct (s =? "")%string.
Qed.

End JsFacts.

(* ===================================================================== *)
(** * The rule matcher                                                    *)
(* ===================================================================== *)

Module MatcherFacts.
Import Matcher.

Lemma elem_of_setAdd (x y : string) (s : list string) :
  x ∈ setAdd y s ↔ x ∈ s ∨ x = y.
Proof.
  unfold setAdd. case_bool_decide; [|set_solver].
  split; [by left|]. intros [?| ->]; done.
Qed.

Lemma NoDup_setAdd (y : string) (s : list string) :
  NoDup s → NoDup (setAdd y s).
Proof.
  intros Hs. unfold setAdd. case_bool_decide; [done|].
  apply NoDup_app. split_and!; [done|set_solver|apply NoDup_singleton].
Qed.

(** The matched set holds what it held before the loop and the category
    of every mapping whose pattern occurs in the transaction. *)
Lemma elem_of_collectMatches tx (maps : list Mapping) (acc : list string) x :
  x ∈ collectMatches tx maps acc
  ↔ x ∈ acc ∨ ∃ m, m ∈ maps ∧ patternMatches tx m = true ∧ map_categoryId m = x.
Proof.
  revert acc. induction maps as [|m maps IH]; intros acc.
  - unfold collectMatches; simpl. split; [by left|].
    intros [?|(m & Hm & _)]; [done|]. by apply elem_of_nil in Hm.
  - unfold collectMatches in *. simpl. rewrite IH.
    setoid_rewrite elem_of_cons.
    destruct (patternMatches tx m) eqn:Hm.
    + rewrite elem_of_setAdd. clear IH. naive_solver.
    + clear IH. split.
      * intros [?|(m' & ? & ? & ?)]; [by left|]. right. exists m'. tauto.
      * intros [?|(m' & [->|?] & ? & ?)]; [by left|congruence|].
        right. by exists m'.
Qed.

Lemma NoDup_collectMatches tx (maps : list Mapping) (acc : list string) :
  NoDup acc → NoDup (collectMatches tx maps acc).
Proof.
  revert acc. induction maps as [|m maps IH]; intros acc Hacc; [done|].
  unfold collectMatches in *. simpl. apply IH.
  destruct (patternMatches tx m); [by apply NoDup_setAdd|done].
Qed.

(** Permuting the mapping list permutes the matched set. *)
Lemma collectMatches_Permutation tx (maps maps' : list Mapping) :
  maps ≡ₚ maps' → collectMatches tx maps [] ≡ₚ collectMatches tx maps' [].
Proof.
  intros Hp. apply NoDup_Permutation.
  - apply NoDup_collectMatches, NoDup_nil_2.
  - apply NoDup_collectMatches, NoDup_nil_2.
  - intros x. rewrite !elem_of_collectMatches.
    by setoid_rewrite Hp.
Qed.

Lemma normalizedIgnored_blank (ignored : list string) :
  Forall (fun acc => Js.blank acc = true) ignored →
  normalizedIgnored ignored = [].
Proof.
  unfold normalizedIgnored.
  induction 1 as [|acc ignored Hacc _ IH]; simpl; [done|].
  by rewrite JsFacts.trim_toLowerCase_blank, IH.
Qed.

Lemma isInternal_intro tx (ignored : list string) acc :
  acc ∈ ignored →
  Js.trim (Js.toLowerCase acc) ≠ "" →
  Js.includes (relevantText tx) (Js.trim (Js.toLowerCase acc)) = true →
  isInternal tx ignored = true.
Proof.
  intros Hin Hne Hinc. unfold isInternal, normalizedIgnored.
  apply existsb_exists. exists (Js.trim (Js.toLowerCase acc)).
  split; [|done]. apply filter_In. split.
  - apply in_map_iff. exists acc. split; [done|]. by apply list_elem_of_In.
  - by apply JsFacts.length_pos_nonempty.
Qed.

(** C3: for every transaction, every ignored-account list and every
    permutation of the mapping list, [applyMappings] returns the same
    result: the same single category id, or the same conflict set (the
    same ids; the array may list them in another order), or the same
    empty result. *)
Theorem applyMappings_permutation tx (maps maps' : list Mapping)
    (ignored : list string) :
  maps ≡ₚ maps' →
  sameResult (applyMappings tx maps ignored) (applyMappings tx maps' ignored).
Proof.
  intros Hp. unfold applyMappings.
  destruct (isInternal tx ignored); [done|].
  pose proof (collectMatches_Permutation tx _ _ Hp) as Hc.
  cbv zeta. rewrite <- (Permutation_length Hc).
  destruct (collectMatches tx maps []) as [|x [|y l]] eqn:E; simpl.
  - done.
  - apply Permutation_singleton_l in Hc. by rewrite <- Hc.
  - done.
Qed.

(** A conflict result carries no category id; its array lists at least
    two ids, each once, and each the category of a mapping whose pattern
    occurs in the transaction. *)
Theorem applyMappings_conflicts tx (maps : list Mapping) (ignored : list string) cs :
  res_conflicts (applyMappings tx maps ignored) = Some cs →
  res_match (applyMappings tx maps ignored) = None
  ∧ NoDup cs ∧ (2 ≤ List.length cs)%nat
  ∧ ∀ c, c ∈ cs → ∃ m, m ∈ maps ∧ patternMatches tx m = true ∧ map_categoryId m = c.
Proof.
  unfold applyMappings. destruct (isInternal tx ignored); [done|]. cbv zeta.
  pose proof (NoDup_collectMatches tx maps [] (NoDup_nil_2)) as Hnd.
  pose proof (elem_of_collectMatches tx maps []) as Hel.
  destruct (collectMatches tx maps []) as [|x [|y l]]; simpl; try done.
  intros [= <-]. split_and!; [done|done|simpl; lia|].
  intros c [Hc|Hc]%Hel; [by apply elem_of_nil in Hc|done].
Qed.

(** C4, as amended: for every transaction whose lower-cased concatenated
    beneficiary and purpose text contains a configured account identifier
    that is not empty once lower-cased and trimmed, [applyMappings]
    returns the reserved internal category whatever the mapping list, and
    the result carries no conflicts. *)
Theorem internal_transfer_priority tx (maps : list Mapping)
    (ignored : list string) acc :
  acc ∈ ignored →
  Js.trim (Js.toLowerCase acc) ≠ "" →
  Js.includes (relevantText tx) (Js.trim (Js.toLowerCase acc)) = true →
  applyMappings tx maps ignored = mkResult (Some INTERNAL) None.
Proof.
  intros Hin Hne Hinc. unfold applyMappings.
  by rewrite (isInternal_intro tx ignored acc).
Qed.

(** C10: identifiers that are empty or white space only are discarded
    before the internal-transfer check: with an ignored list of blank
    strings only, [applyMappings] returns what it returns with the empty
    ignored list. *)
Theorem blank_identifiers_discarded tx (maps : list Mapping)
    (ignored : list string) :
  Forall (fun acc => Js.blank acc = true) ignored →
  applyMappings tx maps ignored = applyMappings tx maps [].
Proof.
  intros Hb. unfold applyMappings, isInternal.
  by rewrite (normalizedIgnored_blank ignored Hb).
Qed.

End MatcherFacts.

(* ===================================================================== *)
(** * The normaliser                                                      *)
(* ===================================================================== *)

Module ParserFacts.
Import Parser.
Section WithPlatform.
Context {platform : Platform}.

Lemma processRow_skipped index (row : Row) :
  hasRequiredFields row = false → processRow index row = Skipped.
Proof.
  unfold hasRequiredFields, processRow.
  intros [->| ->]%andb_false_iff; simpl; [done|].
  by rewrite orb_true_r.
Qed.

Lemma processRow_thrown index (row : Row) :
  rejected row = true →
  processRow index row
  = Thrown (mkRowError row
              ("Invalid date format: " +:+ default "" (row !! "Value date"))).
Proof.
  unfold rejected, hasRequiredFields, dateParses, processRow.
  intros [[-> ->]%andb_true_iff Hd%negb_true_iff]%andb_true_iff. simpl.
  apply bool_decide_eq_false in Hd.
  destruct (parseDate _) as [iso|]; [|done].
  destruct Hd. by exists iso.
Qed.

(** What a pushed transaction is made of. *)
Lemma processRow_pushed index (row : Row) tx :
  processRow index row = Pushed tx →
  accepted row = true
  ∧ tx_originalRow tx = row
  ∧ tx_categoryId tx = None
  ∧ tx_conflicts tx = None
  ∧ tx_type tx = row !! "Debit/Credit"
  ∧ tx_amount tx = Num.parseFloat (default "" (row !! "Amount"))
  ∧ parseDate (default "" (row !! "Value date")) = Some (tx_date tx).
Proof.
  unfold accepted, hasRequiredFields, dateParses, processRow.
  destruct (Js.truthy (row !! "Value date")); simpl; [|done].
  destruct (Js.truthy (row !! "Amount")); simpl; [|done].
  destruct (parseDate _) as [iso|] eqn:Hd; [|done].
  intros [= <-]. simpl. by split_and!.
Qed.

Lemma processRow_accepted index (row : Row) :
  accepted row = true → ∃ tx, processRow index row = Pushed tx.
Proof.
  unfold accepted, hasRequiredFields, dateParses, processRow.
  intros [[-> ->]%andb_true_iff Hd%bool_decide_eq_true]%andb_true_iff. simpl.
  destruct Hd as [iso ->]. eauto.
Qed.

Lemma stepRow_rows index (row : Row) acc :
  List.map tx_originalRow (data (stepRow index row acc))
  = (List.map tx_originalRow (data acc) ++ List.filter accepted [row])%list
  ∧ List.map err_row (errors (stepRow index row acc))
    = (List.map err_row (errors acc) ++ List.filter rejected [row])%list.
Proof.
  unfold stepRow. simpl.
  destruct (hasRequiredFields row) eqn:Hreq.
  - destruct (dateParses row) eqn:Hd.
    + assert (accepted row = true) as Ha by (unfold accepted; by rewrite Hreq, Hd).
      assert (rejected row = false) as Hr by (unfold rejected; by rewrite Hreq, Hd).
      destruct (processRow_accepted index row Ha) as [tx Htx].
      destruct (processRow_pushed index row tx Htx) as (_ & Ho & _).
      rewrite Htx, Ha, Hr. simpl. rewrite List.map_app. simpl.
      by rewrite Ho, app_nil_r.
    + assert (accepted row = false) as Ha by (unfold accepted; by rewrite Hreq, Hd).
      assert (rejected row = true) as Hr by (unfold rejected; by rewrite Hreq, Hd).
      rewrite (processRow_thrown index row Hr), Ha, Hr. simpl.
      rewrite List.map_app. simpl. by rewrite app_nil_r.
  - rewrite (processRow_skipped index row Hreq).
    unfold accepted, rejected. rewrite Hreq. simpl. by rewrite !app_nil_r.
Qed.

Lemma forEachRow_rows index (rows : list Row) acc :
  List.map tx_originalRow (data (forEachRow index rows acc))
  = (List.map tx_originalRow (data acc) ++ List.filter accepted rows)%list
  ∧ List.map err_row (errors (forEachRow index rows acc))
    = (List.map err_row (errors acc) ++ List.filter rejected rows)%list.
Proof.
  revert index acc. induction rows as [|row rows IH]; intros index acc.
  - simpl. by rewrite !app_nil_r.
  - cbn [forEachRow].
    destruct (IH (S index) (stepRow index row acc)) as [-> ->].
    destruct (stepRow_rows index row acc) as [-> ->].
    rewrite <- !app_assoc. split; f_equal.
    + change (row :: rows) with ([row] ++ rows)%list. by rewrite List.filter_app.
    + change (row :: rows) with ([row] ++ rows)%list. by rewrite List.filter_app.
Qed.

(** Every transaction of the output was pushed for some row of the input. *)
Lemma forEachRow_data_inv index (rows : list Row) acc tx :
  tx ∈ data (forEachRow index rows acc) →
  tx ∈ data acc ∨ ∃ j row, row ∈ rows ∧ processRow j row = Pushed tx.
Proof.
  revert index acc. induction rows as [|row rows IH]; intros index acc; simpl.
  - by left.
  - intros [H|(j & r & Hr & Hp)]%IH.
    + unfold stepRow in H.
      destruct (processRow index row) as [|tx'|e] eqn:Hp; simpl in H.
      * by left.
      * apply elem_of_app in H as [H|H]; [by left|].
        apply list_elem_of_singleton in H as ->.
        right. exists index, row. split; [left|done].
      * by left.
    + right. exists j, r. split; [by right|done].
Qed.

Lemma parseBankCSV_data_inv (rows : list Row) tx :
  tx ∈ data (parseBankCSV rows) →
  ∃ j row, row ∈ rows ∧ processRow j row = Pushed tx.
Proof.
  intros [H|H]%forEachRow_data_inv; [|done].
  by apply elem_of_nil in H.
Qed.

(** The parser leaves [categoryId] and [conflicts] unset. *)
Lemma parseBankCSV_fresh (rows : list Row) tx :
  tx ∈ data (parseBankCSV rows) →
  tx_categoryId tx = None ∧ tx_conflicts tx = None.
Proof.
  intros (j & row & _ & Hp)%parseBankCSV_data_inv.
  apply processRow_pushed in Hp. tauto.
Qed.

(** The beneficiary text of a row that names the beneficiary account. *)
Lemma processRow_beneficiary index (row : Row) tx acc :
  processRow index row = Pushed tx →
  row !! "Beneficiary/payer's account number" = Some acc → acc ≠ "" →
  tx_beneficiary tx
  = Js.orElse (row !! "Beneficiary/ Payer") "" +:+ " (" +:+ acc +:+ ")".
Proof.
  unfold processRow. intros Hp Hacc Hne.
  destruct (negb _ || negb _); [done|].
  destruct (parseDate _); [|done].
  injection Hp as <-. simpl. rewrite Hacc. simpl.
  destruct (String.eqb_spec acc ""); done.
Qed.

(** Priority of the internal-transfer check on what the parser builds: a
    transaction whose row names a beneficiary account that is among the
    ignored identifiers (and is not blank) is internal, whatever the
    mappings. *)
Theorem beneficiary_account_is_internal index (row : Row) tx acc
    (maps : list Mapping) (ignored : list string) :
  processRow index row = Pushed tx →
  row !! "Beneficiary/payer's account number" = Some acc →
  acc ∈ ignored →
  Js.trim (Js.toLowerCase acc) ≠ "" →
  Matcher.applyMappings tx maps ignored = mkResult (Some INTERNAL) None.
Proof.
  intros Hp Hacc Hin Hne.
  assert (acc ≠ "") as Hne' by (by intros ->).
  unfold Matcher.applyMappings.
  rewrite (MatcherFacts.isInternal_intro tx ignored acc Hin Hne); [done|].
  unfold Matcher.relevantText.
  rewrite (processRow_beneficiary index row tx acc Hp Hacc Hne').
  rewrite !JsFacts.toLowerCase_app, !JsFacts.append_assoc.
  do 2 apply JsFacts.includes_app_l. apply JsFacts.includes_trim.
Qed.

(** C8: rows are processed one by one with partial success.  The
    transactions of the output are, in input order, those of the rows that
    carry a date and an amount and whose date parses; the error list
    holds, in input order, the rows that carry both fields and whose date
    does not parse.  So a row missing its date or its amount is in neither
    list, a row with an unparseable date is reported and is not in the
    output, and no row stops the others from being processed. *)
Theorem parseBankCSV_partial_success (rows : list Row) :
  let result := parseBankCSV rows in
  List.map tx_originalRow (data result) = List.filter accepted rows
  ∧ List.map err_row (errors result) = List.filter rejected rows
  ∧ (∀ row, hasRequiredFields row = false →
        (row ∉ List.map tx_originalRow (data result))
        ∧ (row ∉ List.map err_row (errors result)))
  ∧ (∀ row, row ∈ rows → hasRequiredFields row = true → dateParses row = false →
        (row ∈ List.map err_row (errors result))
        ∧ (row ∉ List.map tx_originalRow (data result)))
  ∧ (∀ row, row ∈ rows → hasRequiredFields row = true → dateParses row = true →
        row ∈ List.map tx_originalRow (data result)).
Proof.
  intros result. subst result. unfold parseBankCSV.
  destruct (forEachRow_rows 0 rows (mkParseResult [] [])) as [Hd He].
  simpl in Hd, He. rewrite Hd, He.
  split_and!; try done.
  - intros row Hreq. unfold accepted, rejected.
    split; intros [_ H]%list_elem_of_In%filter_In; by rewrite Hreq in H.
  - intros row Hin Hreq Hdate. unfold accepted, rejected. split.
    + apply list_elem_of_In, filter_In. split; [by apply list_elem_of_In|].
      by rewrite Hreq, Hdate.
    + intros [_ H]%list_elem_of_In%filter_In. by rewrite Hreq, Hdate in H.
  - intros row Hin Hreq Hdate. unfold accepted.
    apply list_elem_of_In, filter_In. split; [by apply list_elem_of_In|].
    by rewrite Hreq, Hdate.
Qed.

End WithPlatform.

Lemma isDigit_facts (c : ascii) :
  Num.isDigit c = true →
  Js.isWhiteSpace c = false ∧ Ascii.eqb c "-" = false
  ∧ Ascii.eqb c "+" = false ∧ Ascii.eqb "I" c = false.
Proof.
  destruct c as [[] [] [] [] [] [] [] []]; vm_compute; intros; by split_and!.
Qed.

Lemma literal_digit (c : ascii) (rest : string) :
  Num.isDigit c = true → is_Some (Num.literal (String c rest)).
Proof.
  intros Hc. unfold Num.literal. cbn [Num.takeDigits]. rewrite Hc.
  destruct (Num.takeDigits rest) as [ds r].
  by destruct (match r with
               | String c0 r0 => if Ascii.eqb c0 "." then Num.takeDigits r0 else ([], r)
               | EmptyString => ([], r)
               end).
Qed.

(** An amount text that starts with a digit reads as the number of its
    literal, without a sign. *)
Lemma parseFloat_digit (c : ascii) (rest : string) :
  Num.isDigit c = true →
  ∃ m e, Num.literal (String c rest) = Some (m, e)
         ∧ Num.parseFloat (String c rest) = Num.toNumber false m e.
Proof.
  intros Hc. destruct (isDigit_facts c Hc) as (Hw & Hm & Hp & Hi).
  destruct (literal_digit c rest Hc) as [[m e] Hl]. exists m, e. split; [done|].
  unfold Num.parseFloat. cbn [Js.trimStart]. rewrite Hw.
  unfold Num.signOf. rewrite Hm, Hp.
  cbn [Js.startsWith]. rewrite Hi. cbn [andb]. by rewrite Hl.
Qed.

(** A minus sign before a digit is kept: the number is the one of the
    literal that follows, with the sign. *)
Lemma parseFloat_minus (c : ascii) (rest : string) :
  Num.isDigit c = true →
  ∃ m e, Num.literal (String c rest) = Some (m, e)
         ∧ Num.parseFloat (String "-" (String c rest)) = Num.toNumber true m e.
Proof.
  intros Hc. destruct (isDigit_facts c Hc) as (Hw & Hm & Hp & Hi).
  destruct (literal_digit c rest Hc) as [[m e] Hl]. exists m, e. split; [done|].
  unfold Num.parseFloat. cbn [Js.trimStart Js.isWhiteSpace].
  change (Js.isWhiteSpace "-") with false. cbv iota.
  unfold Num.signOf. change (Ascii.eqb "-" "-") with true. cbv iota.
  cbn [Js.startsWith]. rewrite Hi. cbn [andb]. by rewrite Hl.
Qed.

Lemma toNumber_negate (m : N) (e : Z) :
  Num.toNumber true m e = negate (Num.toNumber false m e).
Proof. unfold Num.toNumber. by destruct (Num.overflows m e). Qed.

(** A text whose first character cannot open a number reads as [NaN]. *)
Lemma parseFloat_NaN (c : ascii) (rest : string) :
  Num.opensNumber c = false → Num.parseFloat (String c rest) = NaN.
Proof.
  unfold Num.opensNumber. intros H.
  apply orb_false_iff in H as [H Hi]. apply orb_false_iff in H as [H Hdot].
  apply orb_false_iff in H as [H Hp]. apply orb_false_iff in H as [H Hm].
  apply orb_false_iff in H as [Hw Hd].
  unfold Num.parseFloat. cbn [Js.trimStart]. rewrite Hw.
  unfold Num.signOf. rewrite Hm, Hp.
  cbn [Js.startsWith]. rewrite Ascii.eqb_sym, Hi.
  cbn [andb]. unfold Num.literal. cbn [Num.takeDigits]. by rewrite Hd, Hdot.
Qed.

Section Amounts.
Context {platform : Platform}.

(** C9, as amended: every transaction the normaliser produces carries as
    amount what [parseFloat] reads from the amount text of its row, which
    is not empty, unchanged.  For a text that starts with a decimal digit
    this is the number of the literal at its head: a non-negative decimal
    magnitude exactly when that value is below the overflow threshold of
    binary64, and [+Infinity] otherwise.  For a text that starts with a
    minus sign followed by a digit it is the negation of what the text
    after the sign reads.  For a text whose first character is neither
    white space, a sign, a digit, a dot nor [I] it is [NaN]. *)
Theorem amount_of_parsed_transaction (rows : list Row) tx :
  tx ∈ data (parseBankCSV rows) →
  ∃ amountStr,
    tx_originalRow tx !! "Amount" = Some amountStr
    ∧ amountStr ≠ ""
    ∧ tx_amount tx = Num.parseFloat amountStr
    ∧ (∀ c rest, amountStr = String c rest → Num.isDigit c = true →
         ∃ m e, Num.literal amountStr = Some (m, e)
                ∧ tx_amount tx
                  = (if Num.overflows m e then Infinity false else Decimal false m e)
                ∧ (isNonNegativeDecimal (tx_amount tx) = true
                   ↔ Num.overflows m e = false))
    ∧ (∀ c rest, amountStr = String "-" (String c rest) → Num.isDigit c = true →
         ∃ m e, Num.literal (String c rest) = Some (m, e)
                ∧ tx_amount tx
                  = (if Num.overflows m e then Infinity true else Decimal true m e)
                ∧ tx_amount tx = negate (Num.parseFloat (String c rest)))
    ∧ (∀ c rest, amountStr = String c rest → Num.opensNumber c = false →
         tx_amount tx = NaN).
Proof.
  intros (j & row & _ & Hp)%parseBankCSV_data_inv.
  apply processRow_pushed in Hp as (Ha & Ho & _ & _ & _ & Hamt & _).
  unfold accepted, hasRequiredFields in Ha.
  apply andb_true_iff in Ha as [[_ Ht]%andb_true_iff _].
  apply JsFacts.truthy_Some in Ht as (s & Hs & Hne).
  exists s. rewrite Ho, Hamt, Hs. simpl. split_and!; try done.
  - intros c rest -> Hc.
    destruct (parseFloat_digit c rest Hc) as (m & e & Hl & Hpf).
    exists m, e. rewrite Hpf. unfold Num.toNumber. split_and!; try done.
    by destruct (Num.overflows m e).
  - intros c rest -> Hc.
    destruct (parseFloat_minus c rest Hc) as (m & e & Hl & Hpf).
    destruct (parseFloat_digit c rest Hc) as (m' & e' & Hl' & Hpf').
    rewrite Hl in Hl'. injection Hl' as <- <-.
    exists m, e. rewrite Hpf, Hpf', <- toNumber_negate. by split_and!.
  - intros c rest -> Hc. by apply parseFloat_NaN.
Qed.

End Amounts.
End ParserFacts.

(* ===================================================================== *)
(** * The store and the cascade of [deleteCategory]                       *)
(* ===================================================================== *)

Module StoreFacts.
Import Store.

Section Folds.
Context {V : Type}.

(** A loop that writes [f v] back at the key of every entry of [l]. *)
Lemma foldl_insert_lookup (f : V → V) (l : list (string * V))
    (s0 : gmap string V) (k : string) :
  NoDup l.*1 →
  foldl (fun s kv => <[kv.1 := f kv.2]> s) s0 l !! k
  = match (list_to_map l : gmap string V) !! k with
    | Some v => Some (f v)
    | None => s0 !! k
    end.
Proof.
  revert s0. induction l as [|[k' v] l IH]; intros s0 Hnd; simpl.
  - by rewrite lookup_empty.
  - apply NoDup_cons in Hnd as [Hk' Hnd]. rewrite IH by done.
    destruct (decide (k' = k)) as [->|Hne].
    + rewrite lookup_insert_eq.
      rewrite (not_elem_of_list_to_map_1 l k Hk').
      by rewrite lookup_insert_eq.
    + rewrite (lookup_insert_ne (list_to_map l)) by done.
      destruct (list_to_map l !! k); [done|].
      by rewrite lookup_insert_ne.
Qed.

(** A loop that deletes the entries of [l] that satisfy [p]. *)
Lemma foldl_delete_lookup (p : V → bool) (l : list (string * V))
    (s0 : gmap string V) (k : string) :
  NoDup l.*1 →
  foldl (fun s kv => if p kv.2 then delete kv.1 s else s) s0 l !! k
  = match (list_to_map l : gmap string V) !! k with
    | Some v => if p v then None else s0 !! k
    | None => s0 !! k
    end.
Proof.
  revert s0. induction l as [|[k' v] l IH]; intros s0 Hnd; simpl.
  - by rewrite lookup_empty.
  - apply NoDup_cons in Hnd as [Hk' Hnd]. rewrite IH by done.
    destruct (decide (k' = k)) as [->|Hne].
    + rewrite lookup_insert_eq.
      rewrite (not_elem_of_list_to_map_1 l k Hk').
      destruct (p v); [by rewrite lookup_delete_eq|done].
    + rewrite (lookup_insert_ne (list_to_map l)) by done.
      destruct (p v); [|done].
      rewrite lookup_delete_ne by done. done.
Qed.

End Folds.

Lemma entries_Permutation {V : Type} (store : gmap string V) :
  entries store ≡ₚ map_to_list store.
Proof. apply merge_sort_Permutation. Qed.

Lemma NoDup_fst_entries {V : Type} (store : gmap string V) :
  NoDup (entries store).*1.
Proof. rewrite entries_Permutation. apply NoDup_fst_map_to_list. Qed.

Lemma list_to_map_entries {V : Type} (store : gmap string V) :
  list_to_map (entries store) = store.
Proof.
  rewrite <- (list_to_map_to_list store) at 2.
  apply list_to_map_proper; [apply NoDup_fst_entries|apply entries_Permutation].
Qed.

Lemma elem_of_entries {V : Type} (store : gmap string V) k v :
  (k, v) ∈ entries store ↔ store !! k = Some v.
Proof. rewrite entries_Permutation. apply elem_of_map_to_list. Qed.

Lemma unsetCategory_lookup (id : string) (store : gmap string Transaction) k :
  unsetCategory id store !! k = unassigned id <$> store !! k.
Proof.
  unfold unsetCategory, byCategory.
  rewrite foldl_insert_lookup by apply NoDup_fst_entries.
  rewrite list_to_map_entries.
  destruct (filter _ store !! k) as [t|] eqn:Hf.
  - apply map_lookup_filter_Some in Hf as [Hk Ht]. simpl in Ht.
    rewrite Hk. simpl. unfold unassigned. by rewrite bool_decide_eq_true_2.
  - apply map_lookup_filter_None in Hf as [Hk|Hk].
    + by rewrite Hk.
    + destruct (store !! k) as [t|] eqn:Ht; [|done]. simpl.
      unfold unassigned. rewrite bool_decide_eq_false_2; [done|].
      by apply (Hk t).
Qed.

Lemma deleteMappingsOf_lookup (id : string) (store : gmap string Mapping) k :
  deleteMappingsOf id store !! k
  = match store !! k with
    | Some m => if bool_decide (map_categoryId m = id) then None else Some m
    | None => None
    end.
Proof.
  unfold deleteMappingsOf.
  pose proof (foldl_delete_lookup
                (fun m : Mapping => bool_decide (map_categoryId m = id))
                (entries store) store k (NoDup_fst_entries store)) as H.
  etrans; [exact H|].
  rewrite list_to_map_entries.
  by destruct (store !! k) as [m|] eqn:Hm.
Qed.

Lemma saveTransactions_lookup_inv (txs : list Transaction)
    (store : gmap string Transaction) k tx :
  foldl putTransaction store txs !! k = Some tx →
  tx ∈ txs ∨ store !! k = Some tx.
Proof.
  revert store. induction txs as [|t txs IH]; intros store; simpl; [by right|].
  intros [H|H]%IH; [left; by right|].
  unfold putTransaction in H.
  destruct (decide (tx_id t = k)) as [<-|Hne].
  - rewrite lookup_insert_eq in H. injection H as ->. left; left.
  - rewrite lookup_insert_ne in H by done. by right.
Qed.

Lemma elem_of_getAllTransactions (db : DB) tx :
  tx ∈ getAllTransactions db ↔ ∃ k, transactions db !! k = Some tx.
Proof.
  unfold getAllTransactions. rewrite list_elem_of_fmap. split.
  - intros ([k t] & -> & H%elem_of_entries). by exists k.
  - intros [k H]. exists (k, tx). split; [done|]. by apply elem_of_entries.
Qed.

(** C2: after [deleteCategory id], one step on the three stores together,
    the category [id] is gone and the other categories are as before;
    every transaction that referred to [id] has lost its [categoryId] and
    nothing else (it is unassigned, its conflicts are not recomputed), the
    others are untouched, so no transaction refers to [id]; the mappings of
    [id] are gone and the others are as before; and invariants 1 and 2 of
    the data model carry over from the store before to the store after. *)
Theorem deleteCategory_cascade (id : string) (db : DB) :
  let db' := deleteCategory id db in
  categories db' !! id = None
  ∧ (∀ c, c ≠ id → categories db' !! c = categories db !! c)
  ∧ (∀ k, transactions db' !! k = unassigned id <$> transactions db !! k)
  ∧ (∀ k tx, transactions db' !! k = Some tx → tx_categoryId tx ≠ Some id)
  ∧ (∀ k m, mappings db' !! k = Some m →
        mappings db !! k = Some m ∧ map_categoryId m ≠ id)
  ∧ (∀ k m, mappings db !! k = Some m → map_categoryId m ≠ id →
        mappings db' !! k = Some m)
  ∧ (transactionsReferToCategories db → transactionsReferToCategories db')
  ∧ (mappingsReferToCategories db → mappingsReferToCategories db').
Proof.
  intros db'. subst db'. unfold deleteCategory. simpl.
  assert (∀ k tx, unsetCategory id (transactions db) !! k = Some tx →
            tx_categoryId tx ≠ Some id
            ∧ ∃ t, transactions db !! k = Some t
                   ∧ (tx_categoryId tx = None ∨ tx = t)) as Htx.
  { intros k tx. rewrite unsetCategory_lookup.
    destruct (transactions db !! k) as [t|]; simpl; [|done].
    intros [= <-]. unfold unassigned. case_bool_decide; simpl.
    - split; [done|]. exists t. split; [done|by left].
    - split; [done|]. exists t. split; [done|by right]. }
  assert (∀ k m, deleteMappingsOf id (mappings db) !! k = Some m →
            mappings db !! k = Some m ∧ map_categoryId m ≠ id) as Hmap.
  { intros k m. rewrite deleteMappingsOf_lookup.
    destruct (mappings db !! k) as [m'|]; [|done].
    case_bool_decide; [done|]. by intros [= <-]. }
  split_and!.
  - apply lookup_delete_eq.
  - intros c Hc. by apply lookup_delete_ne.
  - intros k. apply unsetCategory_lookup.
  - intros k tx H. by apply Htx in H as [? _].
  - done.
  - intros k m Hm Hne. rewrite deleteMappingsOf_lookup, Hm.
    by rewrite bool_decide_eq_false_2.
  - intros Hinv k tx c Hk Hc. simpl in *.
    destruct (Htx k tx Hk) as (Hne & t & Ht & [Hnone| ->]); [congruence|].
    rewrite lookup_delete_ne by congruence. by apply (Hinv k t c).
  - intros Hinv k m Hk. simpl in *.
    destruct (Hmap k m Hk) as [Hm Hne].
    rewrite lookup_delete_ne by congruence. by apply (Hinv k m).
Qed.

End StoreFacts.

(* ===================================================================== *)
(** * Categorisation at import, recompute and manual resolution           *)
(* ===================================================================== *)

Module CategorisationFacts.
Import CategoriesPage.

Lemma exclusive_no_category tx : tx_categoryId tx = None → exclusive tx = true.
Proof. unfold exclusive. by intros ->. Qed.

Lemma exclusive_no_conflicts tx : tx_conflicts tx = None → exclusive tx = true.
Proof. unfold exclusive, hasConflicts. intros ->. by rewrite andb_false_r. Qed.

(** Import-time categorisation of a transaction as the parser builds it. *)
Lemma categorize_exclusive (maps : list Mapping) (ignored : list string) tx :
  tx_categoryId tx = None → tx_conflicts tx = None →
  exclusive (ImportPage.categorize maps ignored tx) = true.
Proof.
  intros Hc Hf. unfold ImportPage.categorize. rewrite Hc. simpl.
  destruct (Js.truthy (res_match _)).
  - by apply exclusive_no_conflicts.
  - destruct (res_conflicts _).
    + by apply exclusive_no_category.
    + case_bool_decide; by apply exclusive_no_conflicts.
Qed.

(** The strict update keeps exclusivity. *)
Lemma reapplyOne_exclusive (maps : list Mapping) (ignored : list string) tx :
  exclusive tx = true → exclusive (reapplyOne maps ignored tx).1 = true.
Proof.
  intros Hex. unfold reapplyOne.
  destruct (Js.truthy (res_match _)).
  - destruct (negb _ || hasConflicts tx) eqn:Hc; simpl.
    + by apply exclusive_no_conflicts.
    + done.
  - destruct (res_conflicts _).
    + destruct (_ || _); simpl; [by apply exclusive_no_category|done].
    + case_bool_decide.
      * destruct (negb _); simpl; [by apply exclusive_no_conflicts|done].
      * destruct (_ || _); simpl; [by apply exclusive_no_category|done].
Qed.

(** The loop of [handleReapplyRules], read off row by row. *)
Lemma reapplyAll_spec (maps : list Mapping) (ignored : list string)
    (txs : list Transaction) :
  reapplyAll maps ignored txs
  = (List.map (fun tx => (reapplyOne maps ignored tx).1) txs,
     List.length (List.filter (fun tx => (reapplyOne maps ignored tx).2) txs)).
Proof.
  unfold reapplyAll.
  enough (∀ acc : list Transaction * nat,
            foldl (fun acc tx =>
                     let '(tx', changed) := reapplyOne maps ignored tx in
                     ((acc.1 ++ [tx'])%list, if changed then S acc.2 else acc.2))
                  acc txs
            = ((acc.1 ++ List.map (fun tx => (reapplyOne maps ignored tx).1) txs)%list,
               acc.2 + List.length (List.filter
                                 (fun tx => (reapplyOne maps ignored tx).2) txs)))
    as H by apply (H ([], 0)).
  induction txs as [|tx txs IH]; intros [out n]; simpl.
  - by rewrite app_nil_r, Nat.add_0_r.
  - rewrite IH. destruct (reapplyOne maps ignored tx) as [tx' []]; simpl;
      rewrite <- app_assoc; simpl; f_equal; lia.
Qed.

(** The flag [changed] says whether the strict update changed the
    record. *)
Lemma reapplyOne_changed (maps : list Mapping) (ignored : list string) tx :
  (reapplyOne maps ignored tx).2 = true ↔ (reapplyOne maps ignored tx).1 ≠ tx.
Proof.
  unfold reapplyOne.
  destruct (Js.truthy (res_match _)) eqn:Hm.
  - destruct (negb _ || hasConflicts tx) eqn:Hc; simpl; [|naive_solver].
    split; [intros _ Heq|done].
    apply orb_true_iff in Hc as [Hc|Hc].
    + apply negb_true_iff, bool_decide_eq_false in Hc. apply Hc.
      by rewrite <- Heq.
    + unfold hasConflicts in Hc. by rewrite <- Heq in Hc.
  - destruct (res_conflicts _) as [conflicts|].
    + destruct (_ || _) eqn:Hc; simpl; [|naive_solver].
      split; [intros _ Heq|done].
      apply orb_true_iff in Hc as [Hc|Hc].
      * by rewrite <- Heq in Hc.
      * apply negb_true_iff, bool_decide_eq_false in Hc. apply Hc.
        by rewrite <- Heq.
    + case_bool_decide.
      * destruct (negb _) eqn:Hc; simpl; [|naive_solver].
        split; [intros _ Heq|done].
        apply negb_true_iff, bool_decide_eq_false in Hc. apply Hc.
        by rewrite <- Heq.
      * destruct (_ || _) eqn:Hc; simpl; [|naive_solver].
        split; [intros _ Heq|done].
        apply orb_true_iff in Hc as [Hc|Hc].
        -- by rewrite <- Heq in Hc.
        -- apply bool_decide_eq_true in Hc. rewrite <- Heq in Hc.
           by destruct Hc.
Qed.

(** Manual resolution sets the chosen category and clears the conflicts,
    whatever the rules say; the other transactions stay as they are. *)
Theorem handleCategorize_resolves (txId catId : string) (db : DB) tx :
  Resolve.findById txId (Store.getAllTransactions db) = Some tx →
  let db' := Resolve.handleCategorize txId catId db in
  transactions db' !! tx_id tx
  = Some (set_conflicts None (set_categoryId (Some catId) tx))
  ∧ ∀ k, k ≠ tx_id tx → transactions db' !! k = transactions db !! k.
Proof.
  intros Hf. unfold Resolve.handleCategorize. rewrite Hf. simpl.
  unfold Store.putTransaction. simpl. split.
  - apply lookup_insert_eq.
  - intros k Hk. by apply lookup_insert_ne.
Qed.

(** The guard of the import-time categorisation reads [categoryId] only:
    it is the parser that makes sure no conflicts are there before. *)
Example categorize_after_parser_only :
  exclusive Sample.txNetflix = true
  ∧ exclusive (ImportPage.categorize [Sample.ruleNetflix] [] Sample.txNetflix) = false.
Proof. split; vm_compute; reflexivity. Qed.

Section WithPlatform.
Context {platform : Platform}.

(** C1: every operation of the core that writes transactions (import
    with its categorisation, the two manual resolutions, the batch
    recompute and the category deletion) leaves a store in which no
    transaction has both a non-empty [categoryId] and a non-empty
    [conflicts], provided the store it started from was such. *)
Theorem exclusivity_preserved (op : CoreOp) (db : DB) :
  dbExclusive db → dbExclusive (runOp op db).
Proof.
  intros Hinv. destruct op as [rows|txId newCategoryId|txId catId| |id]; simpl.
  - intros k tx [Hin|Hold]%StoreFacts.saveTransactions_lookup_inv;
      [|by apply (Hinv k)].
    simpl in Hin. apply list_elem_of_In, in_map_iff in Hin as (t & <- & Ht).
    apply list_elem_of_In, ParserFacts.parseBankCSV_fresh in Ht as [Hc Hf].
    by apply categorize_exclusive.
  - unfold Resolve.updateCategory.
    destruct (Resolve.findById _ _) as [t|]; [|done].
    destruct (negb _); [|done].
    intros k tx [Hin|Hold]%StoreFacts.saveTransactions_lookup_inv;
      [|by apply (Hinv k)].
    apply list_elem_of_singleton in Hin as ->. by apply exclusive_no_conflicts.
  - unfold Resolve.handleCategorize.
    destruct (Resolve.findById _ _) as [t|]; [|done].
    intros k tx [Hin|Hold]%StoreFacts.saveTransactions_lookup_inv;
      [|by apply (Hinv k)].
    apply list_elem_of_singleton in Hin as ->. by apply exclusive_no_conflicts.
  - unfold handleReapplyRules. rewrite reapplyAll_spec.
    destruct (0 <? _)%nat; simpl; [|done].
    intros k tx [Hin|Hold]%StoreFacts.saveTransactions_lookup_inv;
      [|by apply (Hinv k)].
    apply list_elem_of_In, in_map_iff in Hin as (t & <- & Ht).
    apply reapplyOne_exclusive.
    apply list_elem_of_In, StoreFacts.elem_of_getAllTransactions in Ht as [k' Hk'].
    by apply (Hinv k').
  - intros k tx. simpl. rewrite StoreFacts.unsetCategory_lookup.
    destruct (transactions db !! k) as [t|] eqn:Ht; simpl; [|done].
    intros [= <-]. unfold Store.unassigned.
    case_bool_decide; [by apply exclusive_no_category|by apply (Hinv k)].
Qed.

End WithPlatform.

(** The fallback on one transaction that matches no ignored identifier
    and no mapping, in the body of the two loops: a credit is assigned
    the reserved income category, a debit is left (or made) unassigned:
    it has no non-empty [categoryId] and no conflicts.  At import the
    transaction is as the parser built it, with neither [categoryId] nor
    [conflicts]. *)
Lemma fallback_of_one_transaction (maps : list Mapping) (ignored : list string) tx :
  Matcher.isInternal tx ignored = false →
  Matcher.collectMatches tx maps [] = [] →
  (tx_type tx = Some "C" →
     tx_categoryId (reapplyOne maps ignored tx).1 = Some IN
     ∧ (tx_categoryId tx = None → tx_conflicts tx = None →
        ImportPage.categorize maps ignored tx = set_categoryId (Some IN) tx))
  ∧ (tx_type tx = Some "D" →
     Js.truthy (tx_categoryId (reapplyOne maps ignored tx).1) = false
     ∧ tx_conflicts (reapplyOne maps ignored tx).1 = None
     ∧ (tx_categoryId tx = None → tx_conflicts tx = None →
        ImportPage.categorize maps ignored tx = tx)).
Proof.
  intros Hint Hnone.
  assert (Matcher.applyMappings tx maps ignored = mkResult None None) as Hr.
  { unfold Matcher.applyMappings. by rewrite Hint, Hnone. }
  unfold reapplyOne, ImportPage.categorize. rewrite Hr. simpl.
  split; intros Hty; rewrite Hty; simpl.
  - split.
    + destruct (negb _) eqn:Hc; simpl; [done|].
      by apply negb_false_iff, bool_decide_eq_true in Hc.
    + by intros -> _.
  - split_and!.
    + destruct (_ || _) eqn:Hc; simpl; [done|].
      by apply orb_false_iff in Hc as [Hc _].
    + destruct (_ || _) eqn:Hc; simpl; [done|].
      apply orb_false_iff in Hc as [_ Hc].
      apply bool_decide_eq_false in Hc.
      destruct (tx_conflicts tx); [|done]. destruct Hc. by eexists.
    + by intros -> _.
Qed.

End CategorisationFacts.

(* ===================================================================== *)
(** * Batch recompute: the change count                                   *)
(* ===================================================================== *)

Module RecomputeFacts.
Import CategoriesPage.

(** C6, as amended: in the batch recompute a transaction is counted
    exactly when its recomputed state differs from its stored state,
    compared field by field, the conflicts being compared as ordered
    arrays (the same ids in another order count as a change); the count
    reported is the number of such transactions. *)
Theorem changeCount_counts_changed (maps : list Mapping) (ignored : list string)
    (txs : list Transaction) :
  (∀ tx, (reapplyOne maps ignored tx).2 = true
         ↔ (reapplyOne maps ignored tx).1 ≠ tx)
  ∧ (reapplyAll maps ignored txs).2
    = List.length
        (List.filter (fun tx => bool_decide ((reapplyOne maps ignored tx).1 ≠ tx))
           txs).
Proof.
  split; [intros tx; apply CategorisationFacts.reapplyOne_changed|].
  rewrite CategorisationFacts.reapplyAll_spec. simpl. f_equal.
  apply List.filter_ext. intros tx.
  pose proof (CategorisationFacts.reapplyOne_changed maps ignored tx) as H.
  destruct ((reapplyOne maps ignored tx).2).
  - symmetry. apply bool_decide_eq_true. by apply H.
  - symmetry. apply bool_decide_eq_false. intros Hne. by apply H in Hne.
Qed.

End RecomputeFacts.

(* ===================================================================== *)
(** * Rule import                                                         *)
(* ===================================================================== *)

Module RuleImportFacts.
Import CategoriesPage.
Section WithPlatform.
Context {platform : Platform}.

(** The loop leaves the categories alone; a mapping of the store
    afterwards was there before or carries the pattern and the category
    of an added rule, unchecked.  This holds also where the loop is left
    at a [null] entry. *)
Lemma importRules_inv (currentPatterns : list string)
    (imported : list (option ImportedRule)) index (db : DB) (added : nat) :
  categories (importRules currentPatterns index imported (db, added)).1
  = categories db
  ∧ ∀ k m,
      mappings (importRules currentPatterns index imported (db, added)).1 !! k
      = Some m →
      mappings db !! k = Some m
      ∨ ∃ rule, rule ∈ reached imported ∧ isAdded currentPatterns rule = true
                ∧ rule_categoryId rule = Some (map_categoryId m)
                ∧ rule_pattern rule = Some (map_pattern m).
Proof.
  revert index db added.
  induction imported as [|[rule|] rest IH]; intros index db added;
    cbn [importRules reached].
  - split; [done|]. intros k m H. by left.
  - destruct (IH (S index) (importRule currentPatterns index rule (db, added)).1
                 (importRule currentPatterns index rule (db, added)).2)
      as [Hcat Hmap].
    rewrite <- surjective_pairing in Hcat, Hmap.
    split.
    + rewrite Hcat. unfold importRule.
      destruct (negb _ || negb _); [done|].
      by case_bool_decide.
    + intros k m [Hm|(r & Hr & Ha & Hc & Hp)]%Hmap.
      * unfold importRule in Hm.
        destruct (Js.truthy (rule_pattern rule)) eqn:Htp; simpl in Hm; [|by left].
        destruct (Js.truthy (rule_categoryId rule)) eqn:Htc; simpl in Hm; [|by left].
        case_bool_decide as Hin; simpl in Hm; [by left|].
        destruct (decide
          ("map-imp-" +:+ pretty (dateNow index) +:+ "-" +:+ pretty added = k))
          as [Hk|Hk].
        -- rewrite Hk, lookup_insert_eq in Hm. injection Hm as <-. simpl.
           right. exists rule. split_and!.
           ++ left.
           ++ unfold isAdded. rewrite Htp, Htc. simpl.
              by rewrite bool_decide_eq_false_2.
           ++ apply JsFacts.truthy_Some in Htc as (c & -> & _). done.
           ++ apply JsFacts.truthy_Some in Htp as (c & -> & _). done.
        -- rewrite lookup_insert_ne in Hm by done. by left.
      * right. exists r. split_and!; try done. by right.
  - split; [done|]. intros k m H. by left.
Qed.


End WithPlatform.
End RuleImportFacts.

(* ===================================================================== *)
(** * More on the rule matcher                                            *)
(* ===================================================================== *)

Module MatcherOutcomes.
Import Matcher.

(** The four outcomes of [applyMappings], by the matched set. *)
Lemma applyMappings_cases tx (maps : list Mapping) (ignored : list string) :
  (isInternal tx ignored = true
   ∧ applyMappings tx maps ignored = mkResult (Some INTERNAL) None)
  ∨ (isInternal tx ignored = false ∧ collectMatches tx maps [] = []
     ∧ applyMappings tx maps ignored = mkResult None None)
  ∨ (∃ c, isInternal tx ignored = false ∧ collectMatches tx maps [] = [c]
          ∧ applyMappings tx maps ignored = mkResult (Some c) None)
  ∨ (∃ cs, isInternal tx ignored = false ∧ collectMatches tx maps [] = cs
           ∧ (2 ≤ List.length cs)%nat
           ∧ applyMappings tx maps ignored = mkResult None (Some cs)).
Proof.
  unfold applyMappings. destruct (isInternal tx ignored); [by left|].
  right. cbv zeta.
  destruct (collectMatches tx maps []) as [|c [|c' cs]] eqn:E; simpl.
  - by left.
  - right; left. by exists c.
  - right; right. exists (c :: c' :: cs).
    split_and!; [done|done|simpl; lia|done].
Qed.

(** A category the matcher assigns is the internal one or the category
    of a mapping. *)
Lemma applyMappings_match_origin tx (maps : list Mapping) (ignored : list string) c :
  res_match (applyMappings tx maps ignored) = Some c →
  c = INTERNAL ∨ ∃ m, m ∈ maps ∧ patternMatches tx m = true ∧ map_categoryId m = c.
Proof.
  destruct (applyMappings_cases tx maps ignored)
    as [[_ ->]|[(_ & _ & ->)|[(c' & _ & E & ->)|(cs & _ & _ & _ & ->)]]];
    simpl; try done.
  - intros [= <-]. by left.
  - intros [= <-]. right.
    pose proof (MatcherFacts.elem_of_collectMatches tx maps [] c') as H.
    rewrite E in H. destruct H as [H _].
    destruct H as [H|H]; [left| |done]. by apply elem_of_nil in H.
Qed.

(** The conflicts the matcher reports: at least two ids, each once. *)
Lemma applyMappings_conflicts_shape tx (maps : list Mapping) (ignored : list string) cs :
  res_conflicts (applyMappings tx maps ignored) = Some cs →
  NoDup cs ∧ (2 ≤ List.length cs)%nat.
Proof.
  destruct (applyMappings_cases tx maps ignored)
    as [[_ ->]|[(_ & _ & ->)|[(c' & _ & E & ->)|(cs' & _ & E & Hlen & ->)]]];
    simpl; try done.
  intros [= <-]. split; [|done]. rewrite <- E.
  apply MatcherFacts.NoDup_collectMatches, NoDup_nil_2.
Qed.

(** Several mappings of one category count once: when at least one
    mapping matches and all the mappings that match name the category
    [c], the result is [c], with no conflicts, however many they are. *)
Theorem one_category_counts_once tx (maps : list Mapping) (ignored : list string)
    m c :
  isInternal tx ignored = false →
  m ∈ maps → patternMatches tx m = true →
  (∀ m', m' ∈ maps → patternMatches tx m' = true → map_categoryId m' = c) →
  applyMappings tx maps ignored = mkResult (Some c) None.
Proof.
  intros Hint Hm Hpm Hall.
  pose proof (MatcherFacts.elem_of_collectMatches tx maps []) as Hel.
  pose proof (MatcherFacts.NoDup_collectMatches tx maps [] (NoDup_nil_2)) as Hnd.
  assert (∀ x, x ∈ collectMatches tx maps [] → x = c) as Hc.
  { intros x [H|(m' & ? & ? & <-)]%Hel; [by apply elem_of_nil in H|by apply Hall]. }
  assert (c ∈ collectMatches tx maps []) as Hin.
  { apply Hel. right. exists m. split_and!; try done. by apply Hall. }
  unfold applyMappings. rewrite Hint. cbv zeta.
  destruct (collectMatches tx maps []) as [|x [|y l]]; simpl.
  - by apply elem_of_nil in Hin.
  - by rewrite (Hc x) by left.
  - apply NoDup_cons in Hnd as [Hx _]. destruct Hx.
    rewrite (Hc x) by left. rewrite (Hc y) by (right; left). left.
Qed.

(** The empty result means exactly that no ignored identifier and no
    mapping matches. *)
Theorem empty_result_iff tx (maps : list Mapping) (ignored : list string) :
  applyMappings tx maps ignored = mkResult None None
  ↔ isInternal tx ignored = false ∧ ∀ m, m ∈ maps → patternMatches tx m = false.
Proof.
  pose proof (MatcherFacts.elem_of_collectMatches tx maps []) as Hel.
  destruct (applyMappings_cases tx maps ignored)
    as [[Hi ->]|[(Hi & E & ->)|[(c & Hi & E & ->)|(cs & Hi & E & Hlen & ->)]]].
  - split; [done|]. intros [? _]. congruence.
  - split; [intros _|done]. split; [done|]. intros m Hm.
    destruct (patternMatches tx m) eqn:Hpm; [|done].
    assert (map_categoryId m ∈ collectMatches tx maps []) as H.
    { apply Hel. right. by exists m. }
    rewrite E in H. by apply elem_of_nil in H.
  - split; [done|]. intros [_ Hno].
    assert (c ∈ collectMatches tx maps []) as H by (rewrite E; left).
    apply Hel in H as [H|(m & Hm & Hpm & _)]; [by apply elem_of_nil in H|].
    rewrite (Hno m Hm) in Hpm. done.
  - split; [done|]. intros [_ Hno].
    destruct cs as [|c cs]; [simpl in Hlen; lia|].
    assert (c ∈ collectMatches tx maps []) as H by (rewrite E; left).
    apply Hel in H as [H|(m & Hm & Hpm & _)]; [by apply elem_of_nil in H|].
    rewrite (Hno m Hm) in Hpm. done.
Qed.

(** A rule with the empty pattern matches every transaction. *)
Lemma empty_pattern_matches tx m : map_pattern m = "" → patternMatches tx m = true.
Proof.
  unfold patternMatches. intros ->. simpl.
  by rewrite JsFacts.includes_empty.
Qed.

End MatcherOutcomes.

(* ===================================================================== *)
(** * More on the store                                                   *)
(* ===================================================================== *)

Module DbFacts.
Import Store Db.

(** [saveTransactions] is an upsert by id: under an id the store holds
    the last of the saved transactions with that id, and what it held
    before where none has it. *)
Lemma foldl_putTransaction_lookup (txs : list Transaction)
    (store : gmap string Transaction) k :
  foldl putTransaction store txs !! k
  = match last (List.filter (fun t => bool_decide (tx_id t = k)) txs) with
    | Some t => Some t
    | None => store !! k
    end.
Proof.
  induction txs as [|t txs IH] using rev_ind; [done|].
  rewrite foldl_app, List.filter_app. simpl. unfold putTransaction at 1.
  case_bool_decide as Hk.
  - rewrite last_snoc. subst k. by rewrite lookup_insert_eq.
  - rewrite app_nil_r. rewrite lookup_insert_ne by done. apply IH.
Qed.

(** Upsert by id: after [saveTransactions], the store holds under an id
    the last saved transaction with that id, any other record is as it
    was, and the other stores are untouched. *)
Theorem saveTransactions_upsert (txs : list Transaction) (db : DB) :
  (∀ k, transactions (saveTransactions txs db) !! k
        = match last (List.filter (fun t => bool_decide (tx_id t = k)) txs) with
          | Some t => Some t
          | None => transactions db !! k
          end)
  ∧ categories (saveTransactions txs db) = categories db
  ∧ mappings (saveTransactions txs db) = mappings db
  ∧ ignoredAccounts (saveTransactions txs db) = ignoredAccounts db.
Proof. split_and!; try done. intros k. apply foldl_putTransaction_lookup. Qed.

(** Saving the same transactions again changes nothing. *)
Lemma saveTransactions_twice (txs : list Transaction) (db : DB) :
  saveTransactions txs (saveTransactions txs db) = saveTransactions txs db.
Proof.
  unfold saveTransactions. simpl. f_equal. apply map_eq. intros k.
  rewrite !foldl_putTransaction_lookup.
  by destruct (last _).
Qed.

Lemma saveTransactions_keyed (txs : list Transaction) (db : DB) :
  keyedById db → keyedById (saveTransactions txs db).
Proof.
  intros Hk k t. simpl. rewrite foldl_putTransaction_lookup.
  destruct (last _) as [t'|] eqn:Hl; [|apply Hk].
  intros [= <-]. apply last_Some_elem_of, list_elem_of_In, filter_In in Hl as [_ H].
  by apply bool_decide_eq_true in H.
Qed.

Lemma ensureSystemCategories_categories (db : DB) c :
  categories (ensureSystemCategories db) !! c
  = match categories db !! c with
    | Some x => Some x
    | None => if bool_decide (c = "IN") then Some incomeCategory
              else if bool_decide (c = "INTERNAL") then Some internalCategory
              else None
    end.
Proof.
  unfold ensureSystemCategories.
  set (db1 := match categories db !! "IN" with
              | Some _ => db
              | None => addCategory incomeCategory db
              end).
  assert (∀ c', categories db1 !! c'
                = match categories db !! c' with
                  | Some x => Some x
                  | None => if bool_decide (c' = "IN") then Some incomeCategory
                            else None
                  end) as H1.
  { intros c'. subst db1. destruct (categories db !! "IN") eqn:Hi; simpl.
    - destruct (categories db !! c') eqn:Hc'; [done|].
      case_bool_decide; [congruence|done].
    - destruct (decide (c' = "IN")) as [->|Hne].
      + rewrite lookup_insert_eq, Hi. by rewrite bool_decide_eq_true_2.
      + rewrite lookup_insert_ne by done.
        destruct (categories db !! c'); [done|].
        by rewrite bool_decide_eq_false_2. }
  destruct (categories db1 !! "INTERNAL") as [j|] eqn:Hj; simpl.
  - rewrite H1. destruct (categories db !! c) eqn:Hc; [done|].
    case_bool_decide; [done|]. case_bool_decide as Hc2; [|done].
    subst c. rewrite H1, Hc in Hj. done.
  - destruct (decide (c = "INTERNAL")) as [->|Hne].
    + rewrite lookup_insert_eq. rewrite H1 in Hj.
      by destruct (categories db !! "INTERNAL").
    + rewrite lookup_insert_ne by done. rewrite H1.
      destruct (categories db !! c); [done|].
      case_bool_decide; [done|]. by rewrite bool_decide_eq_false_2.
Qed.

Lemma ensureSystemCategories_others (db : DB) :
  transactions (ensureSystemCategories db) = transactions db
  ∧ mappings (ensureSystemCategories db) = mappings db
  ∧ ignoredAccounts (ensureSystemCategories db) = ignoredAccounts db.
Proof.
  unfold ensureSystemCategories. cbv zeta.
  by repeat case_match.
Qed.

Lemma ensureSystemCategories_present (db : DB) :
  systemCategoriesPresent (ensureSystemCategories db).
Proof.
  unfold systemCategoriesPresent, IN, INTERNAL.
  rewrite !ensureSystemCategories_categories.
  split.
  - destruct (categories db !! "IN"); [by eexists|]. by eexists.
  - destruct (categories db !! "INTERNAL"); [by eexists|]. by eexists.
Qed.

Lemma ensureSystemCategories_spec_aux (db : DB) :
  systemCategoriesPresent (ensureSystemCategories db)
  ∧ (∀ c x, categories db !! c = Some x →
            categories (ensureSystemCategories db) !! c = Some x)
  ∧ (∀ c, c ≠ IN → c ≠ INTERNAL →
          categories (ensureSystemCategories db) !! c = categories db !! c).
Proof.
  split_and!.
  - apply ensureSystemCategories_present.
  - intros c x Hc. by rewrite ensureSystemCategories_categories, Hc.
  - intros c H1 H2. rewrite ensureSystemCategories_categories.
    unfold IN, INTERNAL in *.
    destruct (categories db !! c); [done|]. by rewrite !bool_decide_eq_false_2.
Qed.

(** [ensureSystemCategories] makes the two system categories present,
    keeps every stored category as it is (also a system category the user
    has changed), touches nothing else, and does nothing when run
    again. *)
Theorem ensureSystemCategories_spec (db : DB) :
  systemCategoriesPresent (ensureSystemCategories db)
  ∧ (∀ c x, categories db !! c = Some x →
            categories (ensureSystemCategories db) !! c = Some x)
  ∧ (∀ c, c ≠ IN → c ≠ INTERNAL →
          categories (ensureSystemCategories db) !! c = categories db !! c)
  ∧ transactions (ensureSystemCategories db) = transactions db
  ∧ mappings (ensureSystemCategories db) = mappings db
  ∧ ensureSystemCategories (ensureSystemCategories db) = ensureSystemCategories db.
Proof.
  destruct (ensureSystemCategories_others db) as (Ht & Hm & Hi).
  split_and!; try done.
  - apply ensureSystemCategories_present.
  - intros c x Hc. by rewrite ensureSystemCategories_categories, Hc.
  - intros c H1 H2. rewrite ensureSystemCategories_categories.
    unfold IN, INTERNAL in *.
    destruct (categories db !! c); [done|]. by rewrite !bool_decide_eq_false_2.
  - destruct (ensureSystemCategories_present db) as [[i Hin] [j Hint]].
    unfold IN, INTERNAL in *.
    unfold ensureSystemCategories at 1. by rewrite Hin, Hint.
Qed.

End DbFacts.

(* ===================================================================== *)
(** * Invariants over all the operations                                  *)
(* ===================================================================== *)

Module IntegrityFacts.
Import CategoriesPage.

Lemma elem_of_getMappings (db : DB) m :
  m ∈ Store.getMappings db ↔ ∃ k, mappings db !! k = Some m.
Proof.
  unfold Store.getMappings. rewrite list_elem_of_fmap. split.
  - intros ([k x] & -> & H%StoreFacts.elem_of_entries). by exists k.
  - intros [k H]. exists (k, m). split; [done|]. by apply StoreFacts.elem_of_entries.
Qed.

Section Assigned.
Context (db : DB).
Hypothesis Hsys : systemCategoriesPresent db.
Hypothesis Hmaps : mappingsReferToCategories db.

(** What the matcher assigns from the stored rules is a stored
    category. *)
Lemma match_is_stored tx (ignored : list string) c :
  res_match (Matcher.applyMappings tx (Store.getMappings db) ignored) = Some c →
  is_Some (categories db !! c).
Proof.
  intros [->|(m & Hm & _ & <-)]%MatcherOutcomes.applyMappings_match_origin.
  - apply Hsys.
  - apply elem_of_getMappings in Hm as [k Hk]. by apply (Hmaps k).
Qed.

Lemma categorize_refers tx (ignored : list string) c :
  tx_categoryId tx = None →
  tx_categoryId (ImportPage.categorize (Store.getMappings db) ignored tx) = Some c →
  is_Some (categories db !! c).
Proof.
  intros Hnone. unfold ImportPage.categorize. rewrite Hnone. simpl.
  destruct (Js.truthy (res_match _)); simpl.
  - apply match_is_stored.
  - destruct (res_conflicts _); simpl; [by rewrite Hnone|].
    case_bool_decide; simpl; [|by rewrite Hnone].
    intros [= <-]. apply Hsys.
Qed.

Lemma reapplyOne_refers tx (ignored : list string) c :
  (∀ c', tx_categoryId tx = Some c' → is_Some (categories db !! c')) →
  tx_categoryId (reapplyOne (Store.getMappings db) ignored tx).1 = Some c →
  is_Some (categories db !! c).
Proof.
  intros Hold. unfold reapplyOne.
  destruct (Js.truthy (res_match _)).
  - destruct (negb _ || hasConflicts tx); simpl; [apply match_is_stored|apply Hold].
  - destruct (res_conflicts _).
    + destruct (_ || _); simpl; [done|apply Hold].
    + case_bool_decide.
      * destruct (negb _); simpl; [|apply Hold]. intros [= <-]. apply Hsys.
      * destruct (_ || _); simpl; [done|apply Hold].
Qed.

End Assigned.

Section WithPlatform.
Context {platform : Platform}.

(** Invariant 1 over the operations that write transactions: with the
    two system categories stored, every rule naming a stored category and
    a manual resolution choosing a stored category, each operation keeps
    every [categoryId] a stored category. *)
Theorem references_preserved (op : CoreOp) (db : DB) :
  systemCategoriesPresent db → mappingsReferToCategories db →
  targetExists op db →
  transactionsReferToCategories db →
  transactionsReferToCategories (runOp op db).
Proof.
  intros Hsys Hmaps Htarget Hinv.
  destruct op as [rows|txId newCategoryId|txId catId| |id]; simpl in *.
  - intros k tx c [Hin|Hold]%StoreFacts.saveTransactions_lookup_inv Hc;
      [|by apply (Hinv k tx)].
    simpl in Hin. apply list_elem_of_In, in_map_iff in Hin as (t & <- & Ht).
    apply list_elem_of_In, ParserFacts.parseBankCSV_fresh in Ht as [Hnone _].
    by apply (categorize_refers db Hsys Hmaps t (Store.getIgnoredAccounts db)).
  - unfold Resolve.updateCategory.
    destruct (Resolve.findById _ _) as [t|]; [|done].
    destruct (negb _); [|done].
    intros k tx c [Hin|Hold]%StoreFacts.saveTransactions_lookup_inv Hc;
      [|by apply (Hinv k tx)].
    apply list_elem_of_singleton in Hin as ->. simpl in Hc. by injection Hc as <-.
  - unfold Resolve.handleCategorize.
    destruct (Resolve.findById _ _) as [t|]; [|done].
    intros k tx c [Hin|Hold]%StoreFacts.saveTransactions_lookup_inv Hc;
      [|by apply (Hinv k tx)].
    apply list_elem_of_singleton in Hin as ->. simpl in Hc. by injection Hc as <-.
  - unfold handleReapplyRules. rewrite CategorisationFacts.reapplyAll_spec.
    destruct (0 <? _)%nat; simpl; [|done].
    intros k tx c [Hin|Hold]%StoreFacts.saveTransactions_lookup_inv Hc;
      [|by apply (Hinv k tx)].
    apply list_elem_of_In, in_map_iff in Hin as (t & <- & Ht).
    apply list_elem_of_In, StoreFacts.elem_of_getAllTransactions in Ht as [k' Hk'].
    apply (reapplyOne_refers db Hsys Hmaps t (Store.getIgnoredAccounts db)); [|done].
    intros c'. by apply (Hinv k' t).
  - intros k tx c. simpl. rewrite StoreFacts.unsetCategory_lookup.
    destruct (transactions db !! k) as [t|] eqn:Ht; simpl; [|done].
    intros [= <-]. unfold Store.unassigned. case_bool_decide as Hid; simpl; [done|].
    intros Hc. rewrite lookup_delete_ne by congruence. by apply (Hinv k t).
Qed.

(** Invariant 3 over the same operations: conflicts, where present, stay
    a list of at least two distinct ids beside an empty [categoryId]. *)
Theorem conflicts_stay_well_formed (op : CoreOp) (db : DB) :
  dbConflictsWellFormed db → dbConflictsWellFormed (runOp op db).
Proof.
  intros Hinv.
  assert (∀ maps ignored t, tx_categoryId t = None → tx_conflicts t = None →
            conflictsWellFormed (ImportPage.categorize maps ignored t)) as Hcat.
  { intros maps ignored t Hc Hf cs. unfold ImportPage.categorize. rewrite Hc. simpl.
    destruct (Js.truthy (res_match _)); simpl; [by rewrite Hf|].
    destruct (res_conflicts _) as [cs'|] eqn:Hr; simpl.
    - intros [= <-]. apply MatcherOutcomes.applyMappings_conflicts_shape in Hr.
      rewrite Hc. tauto.
    - case_bool_decide; simpl; by rewrite Hf. }
  assert (∀ maps ignored t, conflictsWellFormed t →
            conflictsWellFormed (reapplyOne maps ignored t).1) as Hre.
  { intros maps ignored t Ht. unfold reapplyOne.
    destruct (Js.truthy (res_match _)).
    - destruct (negb _ || hasConflicts t); simpl; [by intros cs|done].
    - destruct (res_conflicts _) as [cs'|] eqn:Hr.
      + destruct (_ || _); simpl; [|done]. intros cs [= <-].
        apply MatcherOutcomes.applyMappings_conflicts_shape in Hr. tauto.
      + case_bool_decide.
        * destruct (negb _); simpl; [by intros cs|done].
        * destruct (_ || _); simpl; [by intros cs|done]. }
  destruct op as [rows|txId newCategoryId|txId catId| |id]; simpl.
  - intros k tx [Hin|Hold]%StoreFacts.saveTransactions_lookup_inv;
      [|by apply (Hinv k)].
    simpl in Hin. apply list_elem_of_In, in_map_iff in Hin as (t & <- & Ht).
    apply list_elem_of_In, ParserFacts.parseBankCSV_fresh in Ht as [Hc Hf].
    by apply Hcat.
  - unfold Resolve.updateCategory.
    destruct (Resolve.findById _ _) as [t|]; [|done].
    destruct (negb _); [|done].
    intros k tx [Hin|Hold]%StoreFacts.saveTransactions_lookup_inv;
      [|by apply (Hinv k)].
    apply list_elem_of_singleton in Hin as ->. by intros cs.
  - unfold Resolve.handleCategorize.
    destruct (Resolve.findById _ _) as [t|]; [|done].
    intros k tx [Hin|Hold]%StoreFacts.saveTransactions_lookup_inv;
      [|by apply (Hinv k)].
    apply list_elem_of_singleton in Hin as ->. by intros cs.
  - unfold handleReapplyRules. rewrite CategorisationFacts.reapplyAll_spec.
    destruct (0 <? _)%nat; simpl; [|done].
    intros k tx [Hin|Hold]%StoreFacts.saveTransactions_lookup_inv;
      [|by apply (Hinv k)].
    apply list_elem_of_In, in_map_iff in Hin as (t & <- & Ht).
    apply list_elem_of_In, StoreFacts.elem_of_getAllTransactions in Ht as [k' Hk'].
    apply Hre. by apply (Hinv k').
  - intros k tx. simpl. rewrite StoreFacts.unsetCategory_lookup.
    destruct (transactions db !! k) as [t|] eqn:Ht; simpl; [|done].
    intros [= <-]. unfold Store.unassigned. case_bool_decide; [|by apply (Hinv k)].
    intros cs Hcs. simpl in *. destruct (Hinv k t Ht cs Hcs) as (? & ? & _). done.
Qed.

(** The operations write a transaction under its id. *)
Lemma keyedById_preserved (op : CoreOp) (db : DB) :
  keyedById db → keyedById (runOp op db).
Proof.
  intros Hk. destruct op as [rows|txId newCategoryId|txId catId| |id]; simpl.
  - by apply DbFacts.saveTransactions_keyed.
  - unfold Resolve.updateCategory.
    destruct (Resolve.findById _ _) as [t|]; [|done].
    destruct (negb _); [|done]. by apply DbFacts.saveTransactions_keyed.
  - unfold Resolve.handleCategorize.
    destruct (Resolve.findById _ _) as [t|]; [|done].
    by apply DbFacts.saveTransactions_keyed.
  - unfold handleReapplyRules. rewrite CategorisationFacts.reapplyAll_spec.
    destruct (0 <? _)%nat; simpl; [|done]. by apply DbFacts.saveTransactions_keyed.
  - intros k tx. simpl. rewrite StoreFacts.unsetCategory_lookup.
    destruct (transactions db !! k) as [t|] eqn:Ht; simpl; [|done].
    intros [= <-]. unfold Store.unassigned. case_bool_decide; simpl; by apply Hk.
Qed.

Lemma runAdmin_transactions (op : AdminOp) (db : DB) :
  transactions (runAdmin op db) = transactions db.
Proof.
  destruct op; simpl; try done.
  - unfold RulesPage.handleAddCategory. by destruct (negb _).
  - apply DbFacts.ensureSystemCategories_others.
  - unfold RulesPage.saveMapping. by destruct (_ || _).
  - unfold SettingsPage.handleAddAccount. by destruct (negb _).
Qed.

Lemma runAdmin_categories_grow (op : AdminOp) (db : DB) c :
  is_Some (categories db !! c) → is_Some (categories (runAdmin op db) !! c).
Proof.
  intros Hc. destruct op; simpl; try done.
  - unfold RulesPage.handleAddCategory. destruct (negb _); [done|]. simpl.
    rewrite lookup_insert. case_decide; [by eexists|done].
  - rewrite lookup_insert. case_decide; [by eexists|done].
  - destruct Hc as [x Hx].
    rewrite (proj1 (proj2 (DbFacts.ensureSystemCategories_spec_aux db)) c x Hx).
    by eexists.
  - unfold RulesPage.saveMapping. by destruct (_ || _).
  - unfold SettingsPage.handleAddAccount. by destruct (negb _).
Qed.

Lemma runAdmin_mappings (op : AdminOp) (db : DB) k m :
  mappings (runAdmin op db) !! k = Some m →
  mappings db !! k = Some m
  ∨ ∃ pattern categoryId,
      op = OpSaveMapping pattern categoryId ∧ pattern ≠ "" ∧ categoryId ≠ ""
      ∧ map_pattern m = pattern ∧ map_categoryId m = categoryId.
Proof.
  destruct op; simpl; try by left.
  - unfold RulesPage.handleAddCategory. destruct (negb _); by left.
  - rewrite (proj1 (proj2 (DbFacts.ensureSystemCategories_others db))). by left.
  - unfold RulesPage.saveMapping.
    destruct (Js.truthy (Some pattern)) eqn:Hp;
      destruct (Js.truthy (Some categoryId)) eqn:Hc; cbn [negb orb];
      try by left.
    cbn [Store.addMapping mappings map_id].
    rewrite lookup_insert. case_decide; [|by left].
    intros [= <-]. right. exists pattern, categoryId. simpl.
    apply JsFacts.truthy_Some in Hp as (? & [= <-] & ?).
    apply JsFacts.truthy_Some in Hc as (? & [= <-] & ?). done.
  - intros H. left. apply lookup_delete_Some in H. tauto.
  - unfold SettingsPage.handleAddAccount. destruct (negb _); by left.
Qed.

(** The operations on categories, rules and ignored accounts never touch
    a transaction, never remove a category, and keep invariants 1 and 2
    and the presence of the system categories, a rule being saved for a
    stored category. *)
Theorem admin_operations_keep_integrity (op : AdminOp) (db : DB) :
  adminTargetExists op db →
  transactions (runAdmin op db) = transactions db
  ∧ (∀ c, is_Some (categories db !! c) → is_Some (categories (runAdmin op db) !! c))
  ∧ (transactionsReferToCategories db → transactionsReferToCategories (runAdmin op db))
  ∧ (mappingsReferToCategories db → mappingsReferToCategories (runAdmin op db))
  ∧ (systemCategoriesPresent db → systemCategoriesPresent (runAdmin op db)).
Proof.
  intros Htarget. split_and!.
  - apply runAdmin_transactions.
  - intros c. apply runAdmin_categories_grow.
  - intros Hinv k tx c. rewrite runAdmin_transactions. intros Hk Hc.
    apply runAdmin_categories_grow. by apply (Hinv k tx).
  - intros Hinv k m [Hold|(p & c & -> & _ & _ & _ & Hc)]%runAdmin_mappings.
    + apply runAdmin_categories_grow. by apply (Hinv k).
    + apply (runAdmin_categories_grow (OpSaveMapping p c)).
      rewrite Hc. exact Htarget.
  - intros [H1 H2]. split; by apply runAdmin_categories_grow.
Qed.

(** Neither the rule form nor the rule import stores a rule with an
    empty pattern (it would match every transaction) or an empty
    category. *)
Theorem rules_stay_non_empty (op : AdminOp) (imported : list (option ImportedRule))
    (db : DB) :
  rulesNonEmpty db →
  rulesNonEmpty (runAdmin op db)
  ∧ rulesNonEmpty (handleImportRules imported db).1.
Proof.
  intros Hinv. split.
  - intros k m [Hold|(p & c & _ & Hp & Hc & -> & ->)]%runAdmin_mappings;
      [by apply (Hinv k)|done].
  - unfold handleImportRules.
    destruct (RuleImportFacts.importRules_inv
                (List.map map_pattern (Store.getMappings db)) imported 0 db 0)
      as [_ Hmap].
    intros k m [Hold|(rule & _ & Ha & Hc & Hp)]%Hmap; [by apply (Hinv k)|].
    unfold isAdded in Ha.
    apply andb_true_iff in Ha as [[Htp Htc]%andb_true_iff _].
    rewrite Hp in Htp. rewrite Hc in Htc.
    apply JsFacts.truthy_Some in Htp as (? & [= <-] & ?).
    apply JsFacts.truthy_Some in Htc as (? & [= <-] & ?). done.
Qed.

End WithPlatform.
End IntegrityFacts.

(* ===================================================================== *)
(** * Ignored accounts ([pages/Settings.tsx])                             *)
(* ===================================================================== *)

Module SettingsFacts.
Import SettingsPage.

Lemma normalizedIgnored_app (l1 l2 : list string) :
  Matcher.normalizedIgnored (l1 ++ l2)%list
  = (Matcher.normalizedIgnored l1 ++ Matcher.normalizedIgnored l2)%list.
Proof. unfold Matcher.normalizedIgnored. by rewrite List.map_app, List.filter_app. Qed.

Lemma trim_blank (s : string) : Js.blank s = true → Js.trim s = "".
Proof. intros H. unfold Js.trim. by rewrite JsFacts.trimStart_blank. Qed.

(** The result of the matcher depends on the ignored list through the
    identifiers that are left after normalising. *)
Lemma applyMappings_normalized tx (maps : list Mapping) (l1 l2 : list string) :
  Matcher.normalizedIgnored l1 = Matcher.normalizedIgnored l2 →
  Matcher.applyMappings tx maps l1 = Matcher.applyMappings tx maps l2.
Proof. intros H. unfold Matcher.applyMappings, Matcher.isInternal. by rewrite H. Qed.

(** Adding an account that is white space only stores an empty
    identifier, and no transaction is categorised otherwise for it. *)
Theorem blank_account_changes_nothing (newAccount : string) (db : DB)
    tx (maps : list Mapping) :
  Js.blank newAccount = true →
  Matcher.applyMappings tx maps
    (Store.getIgnoredAccounts (handleAddAccount newAccount db))
  = Matcher.applyMappings tx maps (Store.getIgnoredAccounts db).
Proof.
  intros Hb. unfold handleAddAccount.
  destruct (negb _); [done|]. simpl.
  apply applyMappings_normalized.
  rewrite normalizedIgnored_app, (trim_blank newAccount Hb).
  apply app_nil_r.
Qed.

Lemma filter_ne_snoc (a : string) (l : list string) :
  a ∉ l →
  List.filter (fun x => negb (bool_decide (x = a))) (l ++ [a])%list = l.
Proof.
  intros Ha. rewrite List.filter_app. simpl.
  rewrite bool_decide_eq_true_2 by done. simpl. rewrite app_nil_r.
  induction l as [|x l IH]; simpl; [done|].
  apply not_elem_of_cons in Ha as [Hx Hl].
  rewrite bool_decide_eq_false_2 by congruence. simpl. by rewrite IH.
Qed.

(** Deleting an account removes every entry equal to it and keeps the
    others; deleting what was just added to a list that did not hold it
    gives back the store as it was. *)
Theorem delete_account_round_trip (newAccount acc : string) (db : DB) :
  (acc ∉ Store.getIgnoredAccounts (handleDeleteAccount acc db))
  ∧ (∀ a, a ≠ acc →
          a ∈ Store.getIgnoredAccounts (handleDeleteAccount acc db)
          ↔ a ∈ Store.getIgnoredAccounts db)
  ∧ (newAccount ≠ "" → Js.trim newAccount ∉ Store.getIgnoredAccounts db →
     handleDeleteAccount (Js.trim newAccount) (handleAddAccount newAccount db) = db).
Proof.
  unfold handleDeleteAccount, handleAddAccount, Store.getIgnoredAccounts. simpl.
  split_and!.
  - intros [_ H]%list_elem_of_In%filter_In.
    by rewrite bool_decide_eq_true_2 in H.
  - intros a Ha. rewrite !list_elem_of_In, filter_In.
    rewrite bool_decide_eq_false_2 by done. simpl. tauto.
  - intros Hne Hnot. destruct (String.eqb_spec newAccount ""); [done|]. simpl.
    unfold Db.setIgnoredAccounts. simpl. rewrite filter_ne_snoc by done.
    by destruct db.
Qed.

End SettingsFacts.

(* ===================================================================== *)
(** * Rule export and import, taken together                              *)
(* ===================================================================== *)

Module RuleExchangeFacts.
Import CategoriesPage RulesPage.
Section WithPlatform.
Context {platform : Platform}.

Lemma importRule_not_added (cur : list string) index rule (acc : DB * nat) :
  isAdded cur rule = false → importRule cur index rule acc = acc.
Proof.
  unfold isAdded, importRule. destruct acc as [db added].
  destruct (Js.truthy (rule_pattern rule)); simpl; [|done].
  destruct (Js.truthy (rule_categoryId rule)); simpl; [|done].
  intros H%negb_false_iff. by rewrite H.
Qed.





Lemma importRules_none_added (cur : list string) (rules : list ImportedRule)
    index (acc : DB * nat) :
  (∀ rule, rule ∈ rules → isAdded cur rule = false) →
  importRules cur index (List.map Some rules) acc = (acc.1, ImportComplete acc.2).
Proof.
  revert index. induction rules as [|rule rest IH]; intros index Hall;
    cbn [importRules List.map]; [done|].
  rewrite importRule_not_added by (apply Hall; left).
  apply IH. intros r Hr. apply Hall. by right.
Qed.


(** Importing the rules a store exports into that same store adds
    nothing, reports the count 0 and leaves the store as it is. *)
Theorem own_export_adds_nothing (db : DB) :
  handleImportRules (List.map Some (handleExportRules (Store.getMappings db))) db
  = (db, ImportComplete 0).
Proof.
  unfold handleImportRules.
  rewrite importRules_none_added; [done|].
  intros rule (m & <- & Hm)%list_elem_of_In%in_map_iff.
  unfold isAdded. simpl.
  rewrite (bool_decide_eq_true_2 (map_pattern m ∈ _)).
  - by rewrite andb_false_r.
  - apply list_elem_of_In, in_map_iff. by exists m.
Qed.

End WithPlatform.
End RuleExchangeFacts.

(* ===================================================================== *)
(** * Importing a statement again                                         *)
(* ===================================================================== *)

Module ReimportFacts.
Import Parser.

(** With a transaction number in the row the clock is not read. *)
Lemma processRow_clock (p : Platform) (clock : nat → N) index (row : Row) :
  (hasRequiredFields row = true → Js.truthy (row !! "Transaction No.") = true) →
  @processRow (mkPlatform (@parseDate p) clock) index row = @processRow p index row.
Proof.
  intros Hno. unfold processRow.
  destruct (negb (Js.truthy (row !! "Value date")) || negb (Js.truthy (row !! "Amount")))
    eqn:Hreq; [done|].
  assert (hasRequiredFields row = true) as Hr.
  { unfold hasRequiredFields. apply orb_false_iff in Hreq as [H1 H2].
    apply negb_false_iff in H1, H2. by rewrite H1, H2. }
  specialize (Hno Hr).
  destruct (row !! "Transaction No.") as [s|]; [|done]. simpl in *.
  destruct (s =? "")%string; [done|]. done.
Qed.

Lemma forEachRow_clock (p : Platform) (clock : nat → N) index (rows : list Row) acc :
  (∀ row, row ∈ rows → hasRequiredFields row = true →
          Js.truthy (row !! "Transaction No.") = true) →
  @forEachRow (mkPlatform (@parseDate p) clock) index rows acc
  = @forEachRow p index rows acc.
Proof.
  revert index acc. induction rows as [|row rows IH]; intros index acc Hall;
    [done|].
  cbn [forEachRow]. unfold stepRow.
  rewrite processRow_clock by (apply Hall; left).
  apply IH. intros r Hr. apply Hall. by right.
Qed.

(** Importing the same statement a second time, at any later reading of
    the clock, leaves the transactions, categories, rules and ignored
    accounts as the first import left them, when every row that carries
    a date and an amount carries a transaction number. *)
Theorem reimport_changes_nothing (p : Platform) (clock : nat → N)
    (rows : list Row) (db : DB) :
  (∀ row, row ∈ rows → hasRequiredFields row = true →
          Js.truthy (row !! "Transaction No.") = true) →
  @runOp (mkPlatform (@parseDate p) clock) (OpImport rows)
    (@runOp p (OpImport rows) db)
  = @runOp p (OpImport rows) db.
Proof.
  intros Hall. simpl. unfold ImportPage.handleSave, ImportPage.handleFileSelect.
  unfold parseBankCSV. rewrite forEachRow_clock by done. simpl.
  apply DbFacts.saveTransactions_twice.
Qed.

End ReimportFacts.

(* ===================================================================== *)
(** * The ids the parser makes up                                         *)
(* ===================================================================== *)

Module GeneratedIdFacts.
Import Parser.

Lemma append_cons (c : ascii) (s t : string) :
  String c s +:+ t = String c (s +:+ t).
Proof. reflexivity. Qed.

Lemma noDash_pretty_N_go (x : N) (s : string) :
  noDash s = true → noDash (pretty_N_go x s) = true.
Proof.
  revert s. induction (N.lt_wf_0 x) as [x _ IH]; intros s Hs.
  assert (x = 0 ∨ 0 < x)%N as [->|Hx] by lia.
  - by rewrite pretty_N_go_0.
  - rewrite pretty_N_go_step by done. apply IH.
    { by apply N.div_lt. }
    simpl. rewrite Hs. unfold pretty_N_char. by repeat case_match.
Qed.

Lemma noDash_pretty_N (x : N) : noDash (pretty x) = true.
Proof.
  unfold pretty, pretty_N. case_decide; [done|]. by apply noDash_pretty_N_go.
Qed.

Lemma noDash_pretty_nat (n : nat) : noDash (pretty n) = true.
Proof. apply (noDash_pretty_N (N.of_nat n)). Qed.

(** Two texts without a dash that are followed by a dash are the same
    when the whole texts are. *)
Lemma dash_split (s1 s2 x y : string) :
  noDash s1 = true → noDash s2 = true →
  s1 +:+ "-" +:+ x = s2 +:+ "-" +:+ y → s1 = s2.
Proof.
  revert s2. induction s1 as [|a s1 IH]; intros [|b s2] H1 H2 Heq.
  - done.
  - rewrite append_cons in Heq. change ("" +:+ "-" +:+ x) with (String "-" x) in Heq.
    injection Heq as <- _. simpl in H2. done.
  - rewrite append_cons in Heq. change ("" +:+ "-" +:+ y) with (String "-" y) in Heq.
    injection Heq as -> _. simpl in H1. done.
  - rewrite !append_cons in Heq. injection Heq as -> Heq.
    simpl in H1, H2. apply andb_true_iff in H1 as [_ H1].
    apply andb_true_iff in H2 as [_ H2]. f_equal. by apply IH.
Qed.

(** The made-up id tells the index of the row. *)
Lemma generated_id_index (i j : nat) (a b : N) :
  "gen-" +:+ pretty i +:+ "-" +:+ pretty a = "gen-" +:+ pretty j +:+ "-" +:+ pretty b →
  i = j.
Proof.
  intros H%(inj (String.app "gen-")).
  apply dash_split in H; [|apply noDash_pretty_nat..].
  by apply (inj pretty) in H.
Qed.

Section WithPlatform.
Context {platform : Platform}.

Lemma forEachRow_data index (rows : list Row) acc :
  data (forEachRow index rows acc) = (data acc ++ pushedFrom index rows)%list.
Proof.
  revert index acc. induction rows as [|row rows IH]; intros index acc; simpl.
  - by rewrite app_nil_r.
  - rewrite IH. unfold stepRow.
    destruct (processRow index row); simpl; [done| |done].
    by rewrite <- app_assoc.
Qed.

Lemma pushedFrom_index index (rows : list Row) t :
  t ∈ pushedFrom index rows →
  ∃ j row, (index ≤ j)%nat ∧ processRow j row = Pushed t.
Proof.
  revert index. induction rows as [|row rows IH]; intros index; simpl.
  - intros H. by apply elem_of_nil in H.
  - destruct (processRow index row) as [|tx|e] eqn:Hp.
    + intros (j & r & Hj & Hr)%IH. exists j, r. split; [lia|done].
    + intros [->|(j & r & Hj & Hr)%IH]%elem_of_cons.
      * by exists index, row.
      * exists j, r. split; [lia|done].
    + intros (j & r & Hj & Hr)%IH. exists j, r. split; [lia|done].
Qed.

Lemma processRow_generated index (row : Row) t :
  processRow index row = Pushed t → hasGeneratedId t = true →
  tx_id t = "gen-" +:+ pretty index +:+ "-" +:+ pretty (dateNow index).
Proof.
  unfold processRow, hasGeneratedId.
  destruct (negb _ || negb _); [done|].
  destruct (parseDate _); [|done].
  intros [= <-]. simpl. intros Hg%negb_true_iff.
  destruct (row !! "Transaction No.") as [txNo|]; [|done]. simpl in *.
  apply negb_false_iff in Hg. by rewrite Hg.
Qed.

(** Within one statement the ids the parser makes up (for the rows
    without a transaction number) are all different. *)
Theorem generated_ids_distinct (rows : list Row) :
  NoDup (List.map tx_id (List.filter hasGeneratedId (data (parseBankCSV rows)))).
Proof.
  unfold parseBankCSV. rewrite forEachRow_data. simpl.
  generalize 0. induction rows as [|row rows IH]; intros index; simpl.
  - apply NoDup_nil_2.
  - destruct (processRow index row) as [|tx|e] eqn:Hp; [apply IH| |apply IH].
    simpl. destruct (hasGeneratedId tx) eqn:Hg; [|apply IH].
    simpl. apply NoDup_cons. split; [|apply IH].
    intros (t & Hid & [Ht Hgt]%filter_In)%list_elem_of_In%in_map_iff.
    apply list_elem_of_In, pushedFrom_index in Ht as (j & r & Hj & Hr).
    rewrite (processRow_generated index row tx Hp Hg) in Hid.
    rewrite (processRow_generated j r t Hr Hgt) in Hid.
    apply generated_id_index in Hid. lia.
Qed.

End WithPlatform.
End GeneratedIdFacts.

(* ===================================================================== *)
(** * The lists of the pages                                              *)
(* ===================================================================== *)

Module PagesFacts.
Import Pages.

Lemma elem_of_uncategorized (txs : list Transaction) t :
  t ∈ uncategorized txs ↔ t ∈ txs ∧ Js.truthy (tx_categoryId t) = false.
Proof.
  unfold uncategorized. rewrite !list_elem_of_In, filter_In, negb_true_iff. done.
Qed.

(** A stored transaction with conflicts is on the uncategorised page, in
    a store that keeps exclusivity. *)
Theorem conflicted_are_listed (db : DB) k tx :
  dbExclusive db →
  transactions db !! k = Some tx →
  CategoriesPage.hasConflicts tx = true →
  tx ∈ uncategorized (Store.getAllTransactions db).
Proof.
  intros Hex Hk Hc. apply elem_of_uncategorized. split.
  - apply StoreFacts.elem_of_getAllTransactions. by exists k.
  - specialize (Hex k tx Hk). unfold exclusive in Hex. rewrite Hc in Hex.
    rewrite andb_true_r in Hex. by apply negb_true_iff in Hex.
Qed.

(** Resolving a transaction by hand with a category takes that
    transaction, and no other, off the uncategorised page. *)
Theorem resolve_removes_from_list (txId catId : string) (db : DB) tx :
  keyedById db →
  Resolve.findById txId (Store.getAllTransactions db) = Some tx →
  catId ≠ "" →
  ∀ t, t ∈ uncategorized (Store.getAllTransactions (Resolve.handleCategorize txId catId db))
       ↔ t ∈ uncategorized (Store.getAllTransactions db) ∧ tx_id t ≠ txId.
Proof.
  intros Hkey Hf Hcat t. unfold Resolve.handleCategorize. rewrite Hf.
  apply find_some in Hf as [Hin Hid%bool_decide_eq_true].
  rewrite !elem_of_uncategorized, !StoreFacts.elem_of_getAllTransactions.
  simpl. unfold Store.putTransaction. simpl. rewrite Hid. split.
  - intros [[k Hk] Hun]. destruct (decide (txId = k)) as [<-|Hne].
    + rewrite lookup_insert_eq in Hk. injection Hk as <-. simpl in Hun.
      destruct (String.eqb_spec catId ""); done.
    + rewrite lookup_insert_ne in Hk by done.
      split; [split; [by exists k|done]|]. by rewrite (Hkey k t Hk).
  - intros [[[k Hk] Hun] Hne]. split; [|done]. exists k.
    rewrite lookup_insert_ne; [done|]. by rewrite <- (Hkey k t Hk).
Qed.

Lemma elem_of_months (txs : list Transaction) (acc : list string) m :
  m ∈ foldl (fun months t => Matcher.setAdd (monthOf t) months) acc txs
  ↔ m ∈ acc ∨ ∃ t, t ∈ txs ∧ monthOf t = m.
Proof.
  revert acc. induction txs as [|t txs IH]; intros acc; simpl.
  - split; [by left|]. intros [?|(t & Ht & _)]; [done|]. by apply elem_of_nil in Ht.
  - rewrite IH, MatcherFacts.elem_of_setAdd. setoid_rewrite elem_of_cons.
    clear IH. naive_solver.
Qed.

Lemma NoDup_months (txs : list Transaction) (acc : list string) :
  NoDup acc → NoDup (foldl (fun months t => Matcher.setAdd (monthOf t) months) acc txs).
Proof.
  revert acc. induction txs as [|t txs IH]; intros acc Hacc; simpl; [done|].
  by apply IH, MatcherFacts.NoDup_setAdd.
Qed.

Lemma startsWith_substring (s : string) (n : nat) :
  Js.startsWith s (String.substring 0 n s) = true.
Proof.
  revert n. induction s as [|c s IH]; intros [|n]; simpl; try done.
  by rewrite Ascii.eqb_refl, IH.
Qed.

(** The month selector lists the months of the transactions, each once,
    the latest first, and every month it lists selects at least one
    transaction. *)
Theorem availableMonths_spec (txs : list Transaction) :
  (∀ m, m ∈ availableMonths txs ↔ ∃ t, t ∈ txs ∧ monthOf t = m)
  ∧ NoDup (availableMonths txs)
  ∧ Sorted (flip String.le) (availableMonths txs)
  ∧ (∀ m, m ∈ availableMonths txs → filterByMonth m txs ≠ []).
Proof.
  assert (∀ m, m ∈ availableMonths txs ↔ ∃ t, t ∈ txs ∧ monthOf t = m) as Hel.
  { intros m. unfold availableMonths.
    rewrite elem_of_reverse, merge_sort_Permutation, elem_of_months.
    split; [intros [H|H]; [by apply elem_of_nil in H|done]|by right]. }
  split_and!.
  - exact Hel.
  - unfold availableMonths. rewrite reverse_Permutation, merge_sort_Permutation.
    apply NoDup_months, NoDup_nil_2.
  - unfold availableMonths. apply Sorted_reverse, Sorted_merge_sort, _.
  - intros m (t & Ht & <-)%Hel Hnil.
    assert (t ∈ filterByMonth (monthOf t) txs) as Hin.
    { unfold filterByMonth. apply list_elem_of_In, filter_In.
      split; [by apply list_elem_of_In|].
      unfold monthOf. by rewrite startsWith_substring, orb_true_r. }
    rewrite Hnil in Hin. by apply elem_of_nil in Hin.
Qed.

Lemma elem_of_internalCatIds (cats : list Category) id :
  id ∈ internalCatIds cats
  ↔ ∃ c, c ∈ cats ∧ cat_id c = id
         ∧ (Js.includes (Js.toLowerCase (cat_name c)) "internal" = true
            ∨ cat_id c = INTERNAL).
Proof.
  unfold internalCatIds. rewrite list_elem_of_In, in_map_iff. split.
  - intros (c & <- & [Hc Hp]%filter_In). exists c.
    split_and!; [by apply list_elem_of_In|done|].
    apply orb_true_iff in Hp as [?|?%bool_decide_eq_true]; tauto.
  - intros (c & Hc & <- & Hp). exists c. split; [done|].
    apply filter_In. split; [by apply list_elem_of_In|].
    apply orb_true_iff. destruct Hp as [?|?]; [by left|right].
    by apply bool_decide_eq_true.
Qed.

(** What the dashboard leaves out: with internal transfers switched off,
    exactly the transactions whose non-empty [categoryId] is the id of a
    category of the list named like [internal] or with the id
    [INTERNAL]; nothing with them switched on.  The category has to be in
    the list: an id without its category is counted. *)
Theorem dashboard_exclusion (includeInternal : bool) (cats : list Category) t :
  counted includeInternal (internalCatIds cats) t = false
  ↔ includeInternal = false
    ∧ ∃ c, c ∈ cats ∧ tx_categoryId t = Some (cat_id c) ∧ cat_id c ≠ ""
           ∧ (Js.includes (Js.toLowerCase (cat_name c)) "internal" = true
              ∨ cat_id c = INTERNAL).
Proof.
  unfold counted. rewrite negb_false_iff, !andb_true_iff, negb_true_iff.
  rewrite bool_decide_eq_true, elem_of_internalCatIds. split.
  - intros [[Hi Ht] (c & Hc & Hid & Hp)]. split; [done|].
    apply JsFacts.truthy_Some in Ht as (s & Hs & Hne).
    rewrite Hs in Hid. simpl in Hid. subst s. by exists c.
  - intros [Hi (c & Hc & Hid & Hne & Hp)]. rewrite Hid. simpl.
    split; [split; [done|]|by exists c].
    destruct (String.eqb_spec (cat_id c) ""); done.
Qed.

Lemma elem_of_toggleCategory (catId : string) (prev : list string) c :
  c ∈ toggleCategory catId prev
  ↔ (c ≠ catId ∧ c ∈ prev) ∨ (c = catId ∧ catId ∉ prev).
Proof.
  unfold toggleCategory. case_bool_decide as Hin.
  - rewrite list_elem_of_In, filter_In, <- list_elem_of_In, negb_true_iff,
      bool_decide_eq_false. naive_solver.
  - rewrite elem_of_app, list_elem_of_singleton.
    destruct (decide (c = catId)); naive_solver.
Qed.

(** Clicking a category of the filter switches it: a selected one is
    deselected (every copy of it), another one is selected; clicking twice
    gives the list of transactions shown before. *)
Theorem toggleCategory_twice (catId : string) (prev : list string)
    (txs : list Transaction) :
  (∀ c, c ∈ toggleCategory catId prev
        ↔ (c ≠ catId ∧ c ∈ prev) ∨ (c = catId ∧ catId ∉ prev))
  ∧ filterByCategories (toggleCategory catId (toggleCategory catId prev)) txs
    = filterByCategories prev txs.
Proof.
  split; [apply elem_of_toggleCategory|].
  assert (∀ c, c ∈ toggleCategory catId (toggleCategory catId prev) ↔ c ∈ prev) as Hel.
  { intros c. rewrite !elem_of_toggleCategory.
    destruct (decide (c = catId)); destruct (decide (catId ∈ prev)); naive_solver. }
  unfold filterByCategories.
  assert ((0 <? List.length (toggleCategory catId (toggleCategory catId prev)))%nat
          = (0 <? List.length prev)%nat) as ->.
  { destruct prev as [|p prev]; destruct (toggleCategory _ (toggleCategory _ _)) as [|q l] eqn:Hq;
      try done.
    - exfalso. eapply elem_of_nil, (Hel q). left.
    - exfalso. eapply elem_of_nil, (Hel p). left. }
  destruct (0 <? _)%nat; [|done].
  apply List.filter_ext. intros t. apply bool_decide_ext, Hel.
Qed.

End PagesFacts.

(* ===================================================================== *)
(** * Suggestions ([findSuggestions])                                     *)
(* ===================================================================== *)

Module SuggestionFacts.
Import RulesPage.

Lemma eligible_length (key : string) :
  eligible key = true ↔ (3 ≤ String.length key)%nat.
Proof.
  unfold eligible. destruct key as [|a [|b [|c key]]]; simpl; split; (done || lia).
Qed.

Lemma countTransaction_eligible counts (t : Transaction) :
  countTransaction counts t
  = if eligible (suggestionKey t) then countKey (suggestionKey t) counts else counts.
Proof.
  unfold countTransaction, eligible.
  by destruct (negb (Js.truthy (Some (suggestionKey t)))
               || (String.length (suggestionKey t) <? 3)%nat).
Qed.

Lemma countsGet_countKey (key k : string) counts :
  countsGet k (countKey key counts)
  = if bool_decide (k = key)
    then Some (match countsGet key counts with
               | Some (n, e) => (S n, e)
               | None => (1, key)
               end)
    else countsGet k counts.
Proof.
  induction counts as [|[k' [n e]] counts IH]; simpl.
  - by repeat case_bool_decide.
  - destruct (decide (k' = key)) as [->|Hne].
    + rewrite !bool_decide_eq_true_2 by done. simpl.
      case_bool_decide; [subst; by rewrite bool_decide_eq_true_2|].
      by rewrite (bool_decide_eq_false_2 (key = k)) by congruence.
    + rewrite (bool_decide_eq_false_2 (k' = key)) by done. simpl. rewrite IH.
      repeat case_bool_decide; congruence.
Qed.

Lemma keys_countKey (key : string) counts k :
  k ∈ (countKey key counts).*1 ↔ k = key ∨ k ∈ counts.*1.
Proof.
  induction counts as [|[k' [n e]] counts IH]; simpl.
  - rewrite list_elem_of_singleton. split; [by left|]. intros [?|H]; [done|].
    by apply elem_of_nil in H.
  - case_bool_decide; simpl; rewrite !elem_of_cons; [naive_solver|].
    rewrite IH. naive_solver.
Qed.

Lemma NoDup_countKey (key : string) counts :
  NoDup counts.*1 → NoDup (countKey key counts).*1.
Proof.
  induction counts as [|[k' [n e]] counts IH]; simpl.
  - intros _. apply NoDup_singleton.
  - intros [Hk Hnd]%NoDup_cons. case_bool_decide; simpl.
    + by apply NoDup_cons.
    + apply NoDup_cons. split; [|by apply IH].
      rewrite keys_countKey. simpl in Hk. intros [?|?]; [congruence|done].
Qed.

Lemma countsGet_elem_of counts k v :
  NoDup counts.*1 → (k, v) ∈ counts ↔ countsGet k counts = Some v.
Proof.
  induction counts as [|[k' v'] counts IH]; simpl.
  - intros _. split; [intros H; by apply elem_of_nil in H|done].
  - intros [Hk Hnd]%NoDup_cons. rewrite elem_of_cons, IH by done.
    case_bool_decide as Heq.
    + subst k'. split; [intros [[= ->]|H]; [done|]|intros [= ->]; by left].
      destruct Hk. apply list_elem_of_fmap. exists (k, v). split; [done|].
      by apply IH.
    + split; [intros [[= ? ?]|H]; [congruence|done]|by right].
Qed.

(** The [Map] after the loop: a key is there when it is long enough and
    was met, with the number of times it was met. *)
Lemma counts_spec (l : list Transaction) :
  NoDup (foldl countTransaction [] l).*1
  ∧ ∀ k, countsGet k (foldl countTransaction [] l)
         = if eligible k && (0 <? occ k l)%nat then Some (occ k l, k) else None.
Proof.
  induction l as [|t l [Hnd IH]] using rev_ind.
  - split; [apply NoDup_nil_2|]. intros k. simpl. by rewrite andb_false_r.
  - rewrite foldl_app. cbn [foldl]. rewrite countTransaction_eligible.
    assert (∀ k, occ k (l ++ [t])
                 = occ k l + (if bool_decide (suggestionKey t = k) then 1 else 0)) as Hocc.
    { intros k. unfold occ. rewrite List.filter_app, length_app. simpl.
      by case_bool_decide. }
    destruct (eligible (suggestionKey t)) eqn:He; simpl.
    + split; [by apply NoDup_countKey|]. intros k.
      rewrite countsGet_countKey, Hocc, !IH.
      case_bool_decide as Hk.
      * subst k. rewrite bool_decide_eq_true_2 by done. rewrite He. simpl.
        replace (0 <? occ (suggestionKey t) l + 1)%nat with true
          by (symmetry; apply Nat.ltb_lt; lia).
        destruct (0 <? occ (suggestionKey t) l)%nat eqn:Hz.
        -- do 2 f_equal. lia.
        -- apply Nat.ltb_ge in Hz. do 2 f_equal. lia.
      * rewrite bool_decide_eq_false_2 by congruence. by rewrite Nat.add_0_r.
    + split; [done|]. intros k. rewrite IH, Hocc.
      case_bool_decide as Hk; [|by rewrite Nat.add_0_r].
      subst k. by rewrite He.
Qed.

Lemma insertByCount_Permutation x (l : list Suggestion) :
  insertByCount x l ≡ₚ x :: l.
Proof.
  induction l as [|y l IH]; simpl; [done|].
  destruct (sug_count y <? sug_count x)%nat; [done|].
  rewrite IH. apply Permutation_swap.
Qed.

Lemma insertByCount_sorted x (l : list Suggestion) :
  StronglySorted countsNoLess l → StronglySorted countsNoLess (insertByCount x l).
Proof.
  induction 1 as [|y l Hs IH Hy]; simpl.
  - repeat constructor.
  - destruct (sug_count y <? sug_count x)%nat eqn:Hlt.
    + apply Nat.ltb_lt in Hlt. constructor; [by constructor|].
      constructor; [unfold countsNoLess; lia|].
      eapply Forall_impl; [exact Hy|]. unfold countsNoLess. intros; lia.
    + apply Nat.ltb_ge in Hlt. constructor; [done|].
      rewrite insertByCount_Permutation. by constructor.
Qed.

Lemma sortByCount_spec (l : list Suggestion) :
  sortByCount l ≡ₚ l ∧ StronglySorted countsNoLess (sortByCount l).
Proof.
  unfold sortByCount.
  enough (∀ acc, StronglySorted countsNoLess acc →
            foldl (fun acc x => insertByCount x acc) acc l ≡ₚ (acc ++ l)%list
            ∧ StronglySorted countsNoLess
                (foldl (fun acc x => insertByCount x acc) acc l)) as H
    by (apply (H []); constructor).
  induction l as [|x l IH]; intros acc Hacc; simpl.
  - by rewrite app_nil_r.
  - destruct (IH (insertByCount x acc) (insertByCount_sorted x acc Hacc)) as [Hp Hs].
    split; [|done]. rewrite Hp, insertByCount_Permutation.
    simpl. apply Permutation_middle.
Qed.

(** The suggestions: at most ten; each with a name of three characters
    or more, met on an uncategorised transaction, and the number of such
    transactions; each name once; in falling order of the count; and a
    name that is left out counts no more than any of the ten listed. *)
Theorem findSuggestions_spec (txs : list Transaction) :
  (List.length (findSuggestions txs) ≤ 10)%nat
  ∧ (∀ s, s ∈ findSuggestions txs →
          (3 ≤ String.length (sug_name s))%nat
          ∧ sug_example s = sug_name s
          ∧ sug_count s = occurrences (sug_name s) txs
          ∧ (1 ≤ sug_count s)%nat)
  ∧ NoDup (List.map sug_name (findSuggestions txs))
  ∧ StronglySorted countsNoLess (findSuggestions txs)
  ∧ (∀ key, (3 ≤ String.length key)%nat → (1 ≤ occurrences key txs)%nat →
            (∃ s, s ∈ findSuggestions txs ∧ sug_name s = key)
            ∨ (List.length (findSuggestions txs) = 10
               ∧ ∀ s, s ∈ findSuggestions txs →
                      (occurrences key txs ≤ sug_count s)%nat)).
Proof.
  unfold findSuggestions, occurrences. fold (Pages.uncategorized txs).
  set (unc := Pages.uncategorized txs).
  destruct (counts_spec unc) as [Hnd Hget]. fold (occ) in *.
  set (counts := foldl countTransaction [] unc) in *.
  set (all := List.map (fun e => mkSuggestion e.1 e.2.1 e.2.2) counts).
  destruct (sortByCount_spec all) as [Hperm Hsorted].
  assert (∀ s, s ∈ all ↔ countsGet (sug_name s) counts = Some (sug_count s, sug_example s))
    as Hall.
  { intros [name n ex]. simpl. rewrite <- countsGet_elem_of by done.
    unfold all. rewrite list_elem_of_In, in_map_iff. split.
    - intros ([k [n' e']] & [= -> -> ->] & Hin). by apply list_elem_of_In.
    - intros Hin. exists (name, (n, ex)). split; [done|]. by apply list_elem_of_In. }
  assert (∀ s, s ∈ take 10 (sortByCount all) → s ∈ all) as Htake.
  { intros s Hs. rewrite <- Hperm. by apply (subseteq_take 10). }
  assert (List.map sug_name all = counts.*1) as Hnames.
  { unfold all. rewrite List.map_map. simpl. done. }
  split_and!.
  - rewrite length_take. lia.
  - intros s Hs%Htake%Hall. rewrite Hget in Hs.
    destruct (eligible (sug_name s)) eqn:He; simpl in Hs; [|done].
    destruct (0 <? occ (sug_name s) unc)%nat eqn:Hz; [|done].
    injection Hs as Hn Hex. apply Nat.ltb_lt in Hz. apply eligible_length in He.
    unfold occ in *. split_and!; try done; lia.
  - eapply (sublist_NoDup _ (List.map sug_name (sortByCount all))).
    + rewrite Hperm, Hnames. exact Hnd.
    + rewrite <- List.firstn_map. apply sublist_take.
  - rewrite <- (take_drop 10 (sortByCount all)) in Hsorted.
    by apply StronglySorted_app_1_l in Hsorted.
  - intros key Hlen Hocc.
    assert (mkSuggestion key (occ key unc) key ∈ sortByCount all) as Hin.
    { rewrite Hperm. apply Hall. simpl. rewrite Hget.
      rewrite (proj2 (eligible_length key) Hlen). simpl.
      by rewrite (proj2 (Nat.ltb_lt 0 (occ key unc))) by (unfold occ; lia). }
    rewrite <- (take_drop 10 (sortByCount all)) in Hin, Hsorted.
    apply elem_of_app in Hin as [Hin|Hin].
    + left. by eexists.
    + right. split.
      * rewrite length_take. apply Nat.min_l.
        destruct (decide (10 ≤ List.length (sortByCount all))%nat); [done|].
        rewrite drop_ge in Hin by lia. by apply elem_of_nil in Hin.
      * intros s Hs.
        apply (StronglySorted_app_1_elem_of _ _ _ s _ Hsorted Hs Hin).
Qed.

End SuggestionFacts.

(* ===================================================================== *)
(** * Re-applying the rules twice, and after an import                    *)
(* ===================================================================== *)

Module ReapplyFacts.
Import CategoriesPage.

Lemma reapplyOne_applyMappings (maps : list Mapping) (ignored : list string) tx :
  Matcher.applyMappings (reapplyOne maps ignored tx).1 maps ignored
  = Matcher.applyMappings tx maps ignored.
Proof.
  unfold reapplyOne.
  destruct (Js.truthy (res_match _)).
  - by destruct (negb _ || hasConflicts tx).
  - destruct (res_conflicts _).
    + by destruct (_ || _).
    + case_bool_decide.
      * by destruct (negb _).
      * by destruct (_ || _).
Qed.

Lemma reapplyOne_result (maps : list Mapping) (ignored : list string) tx :
  tx_type (reapplyOne maps ignored tx).1 = tx_type tx
  ∧ if Js.truthy (res_match (Matcher.applyMappings tx maps ignored))
    then tx_categoryId (reapplyOne maps ignored tx).1
         = res_match (Matcher.applyMappings tx maps ignored)
         ∧ hasConflicts (reapplyOne maps ignored tx).1 = false
    else match res_conflicts (Matcher.applyMappings tx maps ignored) with
         | Some conflicts =>
             Js.truthy (tx_categoryId (reapplyOne maps ignored tx).1) = false
             ∧ tx_conflicts (reapplyOne maps ignored tx).1 = Some conflicts
         | None =>
             if bool_decide (tx_type tx = Some "C")
             then tx_categoryId (reapplyOne maps ignored tx).1 = Some IN
             else Js.truthy (tx_categoryId (reapplyOne maps ignored tx).1) = false
                  ∧ tx_conflicts (reapplyOne maps ignored tx).1 = None
         end.
Proof.
  unfold reapplyOne.
  destruct (Js.truthy (res_match _)) eqn:Hm.
  - destruct (negb _ || hasConflicts tx) eqn:Hc; simpl; [done|].
    apply orb_false_iff in Hc as [Hc%negb_false_iff%bool_decide_eq_true Hc'].
    done.
  - destruct (res_conflicts _) as [conflicts|].
    + destruct (_ || _) eqn:Hc; simpl; [done|].
      apply orb_false_iff in Hc as [Hc Hc'%negb_false_iff%bool_decide_eq_true].
      done.
    + case_bool_decide as Ht.
      * destruct (negb _) eqn:Hc; simpl; [done|].
        by apply negb_false_iff, bool_decide_eq_true in Hc.
      * destruct (_ || _) eqn:Hc; simpl; [done|].
        apply orb_false_iff in Hc as [Hc Hc'%bool_decide_eq_false].
        split_and!; try done. destruct (tx_conflicts tx); [|done].
        destruct Hc'. by eexists.
Qed.

Lemma reapplyOne_settled (maps : list Mapping) (ignored : list string) tx :
  (reapplyOne maps ignored (reapplyOne maps ignored tx).1).2 = false.
Proof.
  pose proof (reapplyOne_result maps ignored tx) as [Ht Hr].
  pose proof (reapplyOne_applyMappings maps ignored tx) as Ha.
  revert Ht Hr Ha. generalize (reapplyOne maps ignored tx).1. intros tx' Ht Hr Ha.
  unfold reapplyOne. rewrite Ha, Ht.
  destruct (Js.truthy (res_match _)).
  - destruct Hr as [-> ->]. by rewrite bool_decide_eq_true_2.
  - destruct (res_conflicts _) as [conflicts|].
    + destruct Hr as [-> ->]. by rewrite bool_decide_eq_true_2.
    + case_bool_decide.
      * rewrite Hr. by rewrite bool_decide_eq_true_2.
      * destruct Hr as [-> ->]. rewrite bool_decide_eq_false_2; [done|].
        by intros [? ?].
Qed.

Lemma reapplyOne_id (maps : list Mapping) (ignored : list string) tx :
  tx_id (reapplyOne maps ignored tx).1 = tx_id tx.
Proof.
  unfold reapplyOne.
  destruct (Js.truthy (res_match _)).
  - by destruct (negb _ || hasConflicts tx).
  - destruct (res_conflicts _).
    + by destruct (_ || _).
    + case_bool_decide.
      * by destruct (negb _).
      * by destruct (_ || _).
Qed.

Lemma filter_none {A} (f : A → bool) (l : list A) :
  (∀ x, x ∈ l → f x = false) → List.filter f l = [].
Proof.
  induction l as [|x l IH]; intros H; simpl; [done|].
  rewrite (H x) by left. apply IH. intros y Hy. apply H. by right.
Qed.

(** Re-applying the rules a second time, with nothing changed in between,
    changes no transaction and reports no update. *)
Theorem reapply_twice_changes_nothing (db : DB) :
  keyedById db →
  handleReapplyRules (handleReapplyRules db).1 = ((handleReapplyRules db).1, 0%nat).
Proof.
  intros Hkey.
  assert (∀ db', mappings db' = mappings db → ignoredAccounts db' = ignoredAccounts db →
                 (∀ k t, transactions db' !! k = Some t →
                         (reapplyOne (Store.getMappings db)
                            (Store.getIgnoredAccounts db) t).2 = false) →
                 handleReapplyRules db' = (db', 0%nat)) as Hfix.
  { intros db' Hm Hi Hall. unfold handleReapplyRules.
    rewrite CategorisationFacts.reapplyAll_spec.
    replace (Store.getMappings db') with (Store.getMappings db)
      by (unfold Store.getMappings; by rewrite Hm).
    replace (Store.getIgnoredAccounts db') with (Store.getIgnoredAccounts db)
      by (unfold Store.getIgnoredAccounts; by rewrite Hi).
    rewrite filter_none; [done|].
    intros t [k Hk]%StoreFacts.elem_of_getAllTransactions. by apply (Hall k). }
  apply Hfix; unfold handleReapplyRules;
    rewrite CategorisationFacts.reapplyAll_spec; cbn [fst];
    destruct (0 <? _)%nat eqn:Hcount; try done.
  - intros k t. simpl.
    rewrite DbFacts.foldl_putTransaction_lookup.
    destruct (last _) as [t'|] eqn:Hl.
    + intros [= <-].
      apply last_Some_elem_of, list_elem_of_In, filter_In in Hl as [Hl _].
      apply in_map_iff in Hl as (t0 & <- & _). apply reapplyOne_settled.
    + intros Hk. apply last_None in Hl.
      assert ((reapplyOne (Store.getMappings db) (Store.getIgnoredAccounts db) t).1
              ∈ @nil Transaction) as Hin; [|by apply elem_of_nil in Hin].
      rewrite <- Hl. apply list_elem_of_In, filter_In. split.
      * apply in_map_iff. exists t. split; [done|].
        apply list_elem_of_In, StoreFacts.elem_of_getAllTransactions. by exists k.
      * apply bool_decide_eq_true. rewrite reapplyOne_id. by apply Hkey.
  - intros k t Hk.
    apply Nat.ltb_ge in Hcount.
    destruct (reapplyOne _ _ t).2 eqn:Hc; [|done].
    assert (t ∈ List.filter (fun tx => (reapplyOne (Store.getMappings db)
                                         (Store.getIgnoredAccounts db) tx).2)
                  (Store.getAllTransactions db)) as Hin.
    { apply list_elem_of_In, filter_In. split; [|done].
      apply list_elem_of_In, StoreFacts.elem_of_getAllTransactions. by exists k. }
    destruct (List.filter _ _); [by apply elem_of_nil in Hin|simpl in Hcount; lia].
Qed.

Section WithPlatform.
Context {platform : Platform}.

Lemma categorize_settled (maps : list Mapping) (ignored : list string) tx :
  tx_categoryId tx = None → tx_conflicts tx = None →
  reapplyOne maps ignored (ImportPage.categorize maps ignored tx)
  = (ImportPage.categorize maps ignored tx, false).
Proof.
  intros Hc Hn.
  assert (Matcher.applyMappings (ImportPage.categorize maps ignored tx) maps ignored
          = Matcher.applyMappings tx maps ignored) as Ha.
  { unfold ImportPage.categorize. destruct (negb _); [|done].
    cbv zeta. destruct (Js.truthy (res_match _)); [done|].
    destruct (res_conflicts _); [done|]. by case_bool_decide. }
  unfold reapplyOne. rewrite Ha. unfold ImportPage.categorize.
  rewrite Hc. cbn [Js.truthy negb]. cbv zeta.
  destruct (Js.truthy (res_match _)) eqn:Hm.
  - unfold hasConflicts. simpl. rewrite Hn.
    rewrite bool_decide_eq_true_2 by done. reflexivity.
  - destruct (res_conflicts _) as [conflicts|].
    + simpl. rewrite Hc. rewrite bool_decide_eq_true_2 by done. reflexivity.
    + destruct (decide (tx_type tx = Some "C")) as [Ht|Ht].
      * rewrite (bool_decide_eq_true_2 _ Ht). simpl.
        rewrite ?(bool_decide_eq_true_2 _ Ht). reflexivity.
      * rewrite !(bool_decide_eq_false_2 _ Ht). rewrite Hc, Hn. reflexivity.
Qed.

(** What an import stores is already what re-applying the rules gives:
    on every transaction of a freshly categorised statement, the strict
    update of [handleReapplyRules] with the same rules and ignored accounts
    changes nothing. *)
Theorem import_agrees_with_reapply (rows : list Row) (db : DB) :
  Forall (fun tx => reapplyOne (Store.getMappings db) (Store.getIgnoredAccounts db) tx
                    = (tx, false))
         (data (ImportPage.handleFileSelect rows db)).
Proof.
  apply Forall_forall. intros tx Hin. unfold ImportPage.handleFileSelect in Hin.
  simpl in Hin. apply list_elem_of_In, in_map_iff in Hin as (t0 & <- & Hin).
  apply list_elem_of_In, ParserFacts.parseBankCSV_fresh in Hin as [Hc Hn].
  by apply categorize_settled.
Qed.

End WithPlatform.

End ReapplyFacts.

(* ===================================================================== *)
(** * The fallback at import time and in the batch recompute              *)
(* ===================================================================== *)

Module FallbackFacts.
Import CategoriesPage.

Lemma last_filter_at {A} (f : A → bool) (l : list A) i x :
  l !! i = Some x → f x = true →
  (∀ j y, l !! j = Some y → (i < j)%nat → f y = false) →
  last (List.filter f l) = Some x.
Proof.
  intros Hi Hx Hlater. rewrite <- (take_drop_middle l i x Hi).
  rewrite List.filter_app. cbn [List.filter]. rewrite Hx.
  rewrite (ReapplyFacts.filter_none f (drop (S i) l)).
  - apply last_snoc.
  - intros y [j Hj]%list_elem_of_lookup. rewrite lookup_drop in Hj.
    apply (Hlater _ _ Hj). lia.
Qed.

(** The batch recompute writes back, under its key, what the strict
    update makes of each stored transaction. *)
Lemma handleReapplyRules_lookup (db : DB) k tx :
  keyedById db → transactions db !! k = Some tx →
  transactions (handleReapplyRules db).1 !! k
  = Some (reapplyOne (Store.getMappings db) (Store.getIgnoredAccounts db) tx).1.
Proof.
  intros Hkey Hk. unfold handleReapplyRules.
  rewrite CategorisationFacts.reapplyAll_spec. cbn [fst].
  destruct (0 <? _)%nat eqn:Hcount.
  - simpl. rewrite DbFacts.foldl_putTransaction_lookup.
    destruct (last _) as [t'|] eqn:Hl.
    + apply last_Some_elem_of, list_elem_of_In, filter_In in Hl as [Hl Hid].
      apply in_map_iff in Hl as (t0 & <- & Hin).
      apply bool_decide_eq_true in Hid. rewrite ReapplyFacts.reapplyOne_id in Hid.
      apply list_elem_of_In, StoreFacts.elem_of_getAllTransactions in Hin as [k0 Hk0].
      rewrite (Hkey k0 t0 Hk0) in Hid. subst k0. rewrite Hk in Hk0.
      by injection Hk0 as ->.
    + apply last_None in Hl.
      assert ((reapplyOne (Store.getMappings db) (Store.getIgnoredAccounts db) tx).1
              ∈ @nil Transaction) as Hin; [|by apply elem_of_nil in Hin].
      rewrite <- Hl. apply list_elem_of_In, filter_In. split.
      * apply in_map_iff. exists tx. split; [done|].
        apply list_elem_of_In, StoreFacts.elem_of_getAllTransactions. by exists k.
      * apply bool_decide_eq_true. rewrite ReapplyFacts.reapplyOne_id. by apply Hkey.
  - rewrite Hk. f_equal. apply Nat.ltb_ge in Hcount.
    destruct (decide ((reapplyOne (Store.getMappings db)
                         (Store.getIgnoredAccounts db) tx).1 = tx)) as [->|Hne]; [done|].
    apply CategorisationFacts.reapplyOne_changed in Hne.
    assert (tx ∈ List.filter (fun tx => (reapplyOne (Store.getMappings db)
                                          (Store.getIgnoredAccounts db) tx).2)
                  (Store.getAllTransactions db)) as Hin.
    { apply list_elem_of_In, filter_In. split; [|done].
      apply list_elem_of_In, StoreFacts.elem_of_getAllTransactions. by exists k. }
    destruct (List.filter _ _); [by apply elem_of_nil in Hin|simpl in Hcount; lia].
Qed.

Section WithPlatform.
Context {platform : Platform}.

Lemma categorize_id (maps : list Mapping) (ignored : list string) tx :
  tx_id (ImportPage.categorize maps ignored tx) = tx_id tx.
Proof.
  unfold ImportPage.categorize. destruct (negb _); [|done]. cbv zeta.
  destruct (Js.truthy (res_match _)); [done|].
  destruct (res_conflicts _); [done|]. by case_bool_decide.
Qed.

(** The import stores, under its id, what the categorisation makes of a
    parsed transaction, unless a later row of the statement has the same
    id. *)
Lemma import_lookup (rows : list Row) (db : DB) i tx :
  data (Parser.parseBankCSV rows) !! i = Some tx →
  (∀ j tx', data (Parser.parseBankCSV rows) !! j = Some tx' → (i < j)%nat →
            tx_id tx' ≠ tx_id tx) →
  transactions (ImportPage.handleSave (ImportPage.handleFileSelect rows db) db)
    !! tx_id tx
  = Some (ImportPage.categorize (Store.getMappings db) (Store.getIgnoredAccounts db) tx).
Proof.
  intros Hi Hlast. unfold ImportPage.handleSave, ImportPage.handleFileSelect.
  cbn [data Store.saveTransactions transactions].
  rewrite DbFacts.foldl_putTransaction_lookup.
  rewrite (last_filter_at _ _ i
             (ImportPage.categorize (Store.getMappings db)
                (Store.getIgnoredAccounts db) tx)); [done| | |].
  - change (List.map ?f ?l) with (f <$> l). by rewrite list_lookup_fmap, Hi.
  - apply bool_decide_eq_true, categorize_id.
  - intros j y Hj Hlt. change (List.map ?f ?l) with (f <$> l) in Hj.
    rewrite list_lookup_fmap in Hj.
    destruct (data (Parser.parseBankCSV rows) !! j) as [tx'|] eqn:Hj'; [|done].
    injection Hj as <-. apply bool_decide_eq_false. rewrite categorize_id.
    by apply (Hlast j).
Qed.

(** C5: a transaction that matches no ignored identifier and no mapping
    gets the same fallback at import time and in the batch recompute.
    At import ([handleFileSelect], then [handleSave]), a parsed credit is
    stored with the reserved income category and a parsed debit is stored
    as parsed, with neither [categoryId] nor [conflicts] (the record is
    the one stored under the id unless a later row of the statement has
    the same id).  In the batch recompute ([handleReapplyRules]), on a
    store keyed by id, a stored credit has the income category afterwards
    and a stored debit has no non-empty [categoryId] and no conflicts. *)
Theorem fallback_policy (rows : list Row) (db : DB) :
  (∀ i tx,
     data (Parser.parseBankCSV rows) !! i = Some tx →
     Matcher.isInternal tx (Store.getIgnoredAccounts db) = false →
     Matcher.collectMatches tx (Store.getMappings db) [] = [] →
     (∀ j tx', data (Parser.parseBankCSV rows) !! j = Some tx' → (i < j)%nat →
               tx_id tx' ≠ tx_id tx) →
     (tx_type tx = Some "C" →
        data (ImportPage.handleFileSelect rows db) !! i
        = Some (set_categoryId (Some IN) tx)
        ∧ transactions (ImportPage.handleSave (ImportPage.handleFileSelect rows db) db)
            !! tx_id tx
          = Some (set_categoryId (Some IN) tx))
     ∧ (tx_type tx = Some "D" →
        tx_categoryId tx = None ∧ tx_conflicts tx = None
        ∧ data (ImportPage.handleFileSelect rows db) !! i = Some tx
        ∧ transactions (ImportPage.handleSave (ImportPage.handleFileSelect rows db) db)
            !! tx_id tx
          = Some tx))
  ∧ (keyedById db →
     ∀ k tx,
       transactions db !! k = Some tx →
       Matcher.isInternal tx (Store.getIgnoredAccounts db) = false →
       Matcher.collectMatches tx (Store.getMappings db) [] = [] →
       ∃ tx',
         transactions (handleReapplyRules db).1 !! k = Some tx'
         ∧ (tx_type tx = Some "C" → tx_categoryId tx' = Some IN)
         ∧ (tx_type tx = Some "D" →
            Js.truthy (tx_categoryId tx') = false ∧ tx_conflicts tx' = None)).
Proof.
  split.
  - intros i tx Hi Hint Hnone Hlast.
    destruct (ParserFacts.parseBankCSV_fresh rows tx) as [Hc Hn];
      [by eapply list_elem_of_lookup_2|].
    destruct (CategorisationFacts.fallback_of_one_transaction
                (Store.getMappings db) (Store.getIgnoredAccounts db) tx Hint Hnone)
      as [Hcredit Hdebit].
    assert (data (ImportPage.handleFileSelect rows db) !! i
            = Some (ImportPage.categorize (Store.getMappings db)
                      (Store.getIgnoredAccounts db) tx)) as Hout.
    { unfold ImportPage.handleFileSelect. cbn [data].
      change (List.map ?f ?l) with (f <$> l). by rewrite list_lookup_fmap, Hi. }
    rewrite Hout, (import_lookup rows db i tx Hi Hlast).
    split; intros Hty.
    + destruct (Hcredit Hty) as [_ ->]; done.
    + destruct (Hdebit Hty) as (_ & _ & ->); done.
  - intros Hkey k tx Hk Hint Hnone.
    exists (reapplyOne (Store.getMappings db) (Store.getIgnoredAccounts db) tx).1.
    destruct (CategorisationFacts.fallback_of_one_transaction
                (Store.getMappings db) (Store.getIgnoredAccounts db) tx Hint Hnone)
      as [Hcredit Hdebit].
    split_and!.
    + by apply handleReapplyRules_lookup.
    + intros Hty. by destruct (Hcredit Hty).
    + intros Hty. destruct (Hdebit Hty) as (? & ? & _). done.
Qed.

End WithPlatform.

End FallbackFacts.

(* ===================================================================== *)
(** * Accounts typed with spaces around them                              *)
(* ===================================================================== *)

Module TrimFacts.
Import Js.

Lemma isWhiteSpace_lowerChar (c : ascii) :
  isWhiteSpace (lowerChar c) = isWhiteSpace c.
Proof. destruct c as [[] [] [] [] [] [] [] []]; vm_compute; reflexivity. Qed.

Lemma toLowerCase_trimStart (s : string) :
  toLowerCase (trimStart s) = trimStart (toLowerCase s).
Proof.
  induction s as [|c s IH]; simpl; [done|].
  rewrite isWhiteSpace_lowerChar. by destruct (isWhiteSpace c).
Qed.

Lemma toLowerCase_empty (s : string) :
  (toLowerCase s =? "")%string = (s =? "")%string.
Proof. by destruct s. Qed.

Lemma toLowerCase_trimEnd (s : string) :
  toLowerCase (trimEnd s) = trimEnd (toLowerCase s).
Proof.
  induction s as [|c s IH]; simpl; [done|].
  rewrite isWhiteSpace_lowerChar, <- IH, toLowerCase_empty.
  by destruct (isWhiteSpace c && _).
Qed.

Lemma trimEnd_trimEnd (s : string) : trimEnd (trimEnd s) = trimEnd s.
Proof.
  induction s as [|c s IH]; simpl; [done|].
  destruct (isWhiteSpace c && _) eqn:Hc; simpl; [done|].
  by rewrite IH, Hc.
Qed.

Lemma trimStart_trimEnd_trimStart (s : string) :
  trimStart (trimEnd (trimStart s)) = trimEnd (trimStart s).
Proof.
  induction s as [|c s IH]; simpl; [done|].
  destruct (isWhiteSpace c) eqn:Hc; [done|]. simpl. rewrite Hc. simpl.
  by rewrite Hc.
Qed.

Lemma trim_trim (s : string) : trim (trim s) = trim s.
Proof. unfold trim. by rewrite trimStart_trimEnd_trimStart, trimEnd_trimEnd. Qed.

Lemma trim_toLowerCase_trim (s : string) :
  trim (toLowerCase (trim s)) = trim (toLowerCase s).
Proof.
  unfold trim at 2. rewrite toLowerCase_trimEnd, toLowerCase_trimStart.
  apply trim_trim.
Qed.

(** An account typed with spaces around it is stored trimmed and matches
    as typed: once added, every transaction whose text contains it
    (lower-cased and trimmed) is an internal transfer, whatever the rules. *)
Theorem added_account_is_internal (newAccount : string) (db : DB)
    tx (maps : list Mapping) :
  trim (toLowerCase newAccount) ≠ "" →
  includes (Matcher.relevantText tx) (trim (toLowerCase newAccount)) = true →
  Matcher.applyMappings tx maps
    (Store.getIgnoredAccounts (SettingsPage.handleAddAccount newAccount db))
  = mkResult (Some INTERNAL) None.
Proof.
  intros Hne Hinc. unfold SettingsPage.handleAddAccount.
  destruct newAccount as [|c s]; [done|]. cbn [truthy negb String.eqb].
  set (acc := String c s) in *. simpl.
  unfold Matcher.applyMappings.
  rewrite (MatcherFacts.isInternal_intro tx _ (trim acc)); [done| | |].
  - apply elem_of_app. right. apply list_elem_of_singleton. reflexivity.
  - by rewrite trim_toLowerCase_trim.
  - by rewrite trim_toLowerCase_trim.
Qed.

End TrimFacts.

(* ===================================================================== *)
(** * Checking the invariants of a given store                            *)
(* ===================================================================== *)

Module Checks.

Lemma elem_of_values {V : Type} (m : gmap string V) k v :
  m !! k = Some v → In v (Store.entries m).*2.
Proof.
  intros H. apply list_elem_of_In, list_elem_of_fmap.
  exists (k, v). split; [done|]. by apply StoreFacts.elem_of_entries.
Qed.

Lemma dbExclusive_check (db : DB) :
  forallb exclusive (Store.getAllTransactions db) = true → dbExclusive db.
Proof.
  intros H k tx Hk. rewrite forallb_forall in H.
  by apply H, (elem_of_values _ k).
Qed.

Lemma transactionsRefer_check (db : DB) :
  forallb (fun tx => match tx_categoryId tx with
                     | Some c => bool_decide (is_Some (categories db !! c))
                     | None => true
                     end)
          (Store.getAllTransactions db) = true →
  transactionsReferToCategories db.
Proof.
  intros H k tx c Hk Hc. rewrite forallb_forall in H.
  specialize (H tx (elem_of_values _ k tx Hk)). rewrite Hc in H.
  by apply bool_decide_eq_true in H.
Qed.

Lemma mappingsRefer_check (db : DB) :
  forallb (fun m => bool_decide (is_Some (categories db !! map_categoryId m)))
          (Store.getMappings db) = true →
  mappingsReferToCategories db.
Proof.
  intros H k m Hk. rewrite forallb_forall in H.
  specialize (H m (elem_of_values _ k m Hk)).
  by apply bool_decide_eq_true in H.
Qed.

End Checks.

(* ===================================================================== *)
(** * The properties at concrete inputs                                   *)
(* ===================================================================== *)

Module Examples.
Import Sample.

(** The sample statement parses to two transactions and one error. *)
Example parseBankCSV_statement :
  data (@Parser.parseBankCSV platform statement) = [txRimi; txNegative]
  ∧ errors (@Parser.parseBankCSV platform statement)
    = [mkRowError rowBadDate "Invalid date format: 2024/02/01"].
Proof. split; vm_compute; reflexivity. Qed.

(** A row without a transaction number gets an id made of its index and
    the clock. *)
Example generated_id :
  List.map tx_id
    (data (@Parser.parseBankCSV platform
             [rowFooter; list_to_map [("Value date", "01.02.2024"); ("Amount", "2")]]))
  = ["gen-1-1700000000000"].
Proof. vm_compute. reflexivity. Qed.

Lemma db0_exclusive : dbExclusive db0.
Proof. apply Checks.dbExclusive_check. vm_compute. reflexivity. Qed.

Lemma db0_mappings_refer : mappingsReferToCategories db0.
Proof. apply Checks.mappingsRefer_check. vm_compute. reflexivity. Qed.

Lemma db0_transactions_refer : transactionsReferToCategories db0.
Proof. apply Checks.transactionsRefer_check. vm_compute. reflexivity. Qed.

(** C1 at the sample store: the import of the sample statement and the
    batch recompute. *)
Lemma exclusivity_preserved_example :
  dbExclusive db0
  ∧ dbExclusive (@runOp platform (OpImport statement) db0)
  ∧ dbExclusive (@runOp platform OpReapplyRules db0).
Proof.
  split_and!.
  - exact db0_exclusive.
  - apply CategorisationFacts.exclusivity_preserved. exact db0_exclusive.
  - apply CategorisationFacts.exclusivity_preserved. exact db0_exclusive.
Defined.

(** C2 at the sample store: deleting the category of the shop rule. *)
Lemma deleteCategory_cascade_example :
  (transactionsReferToCategories db0 ∧ mappingsReferToCategories db0)
  ∧ categories (Store.deleteCategory "cat-1" db0) !! "cat-1" = None
  ∧ List.map (fun t => (tx_id t, tx_categoryId t))
      (Store.getAllTransactions (Store.deleteCategory "cat-1" db0))
    = [("ID123", None); ("ID200", None)]
  ∧ Store.getMappings (Store.deleteCategory "cat-1" db0) = [ruleNetflix; ruleFlix]
  ∧ transactionsReferToCategories (Store.deleteCategory "cat-1" db0)
  ∧ mappingsReferToCategories (Store.deleteCategory "cat-1" db0).
Proof.
  destruct (StoreFacts.deleteCategory_cascade "cat-1" db0)
    as (Hcat & _ & _ & _ & _ & _ & Htx & Hmap).
  split_and!.
  - exact db0_transactions_refer.
  - exact db0_mappings_refer.
  - exact Hcat.
  - vm_compute. reflexivity.
  - vm_compute. reflexivity.
  - exact (Htx db0_transactions_refer).
  - exact (Hmap db0_mappings_refer).
Defined.

(** C3 at the two subscription rules, in both orders. *)
Lemma applyMappings_permutation_example :
  [ruleNetflix; ruleFlix] ≡ₚ [ruleFlix; ruleNetflix]
  ∧ Matcher.sameResult
      (Matcher.applyMappings txNetflix [ruleNetflix; ruleFlix] [])
      (Matcher.applyMappings txNetflix [ruleFlix; ruleNetflix] []).
Proof.
  split; [apply Permutation_swap|].
  apply MatcherFacts.applyMappings_permutation, Permutation_swap.
Defined.

(** The two orders give the same conflict set as arrays in two orders. *)
Example applyMappings_array_order :
  Matcher.applyMappings txNetflix [ruleNetflix; ruleFlix] []
  = mkResult None (Some ["cat-a"; "cat-b"])
  ∧ Matcher.applyMappings txNetflix [ruleFlix; ruleNetflix] []
    = mkResult None (Some ["cat-b"; "cat-a"]).
Proof. split; vm_compute; reflexivity. Qed.

(** C4 as stated fails at a blank identifier: the text of the transaction
    contains the identifier lower-cased and trimmed (the empty string),
    and the result is the category of the rule. *)
Lemma blank_identifier_is_not_internal :
  " " ∈ [" "]
  ∧ Js.includes (Matcher.relevantText txRimi) (Js.trim (Js.toLowerCase " ")) = true
  ∧ Matcher.applyMappings txRimi [ruleRimi] [" "] = mkResult (Some "cat-1") None.
Proof.
  split_and!; [by apply list_elem_of_singleton| |]; vm_compute; reflexivity.
Qed.

(** C4 at the scenario of the specification: the identifier LV11, the
    rule RIMI for cat-1, and the transaction the parser builds from a row
    whose beneficiary account is LV11 and whose purpose contains RIMI. *)
Lemma internal_transfer_priority_LV11 :
  data (@Parser.parseBankCSV platform [rowRimi]) = [txRimi]
  ∧ "LV11" ∈ ["LV11"]
  ∧ Js.trim (Js.toLowerCase "LV11") ≠ ""
  ∧ Js.includes (Matcher.relevantText txRimi) (Js.trim (Js.toLowerCase "LV11")) = true
  ∧ Matcher.applyMappings txRimi [ruleRimi] ["LV11"] = mkResult (Some INTERNAL) None
  ∧ Matcher.applyMappings txRimi [ruleRimi] [] = mkResult (Some "cat-1") None.
Proof.
  assert ("LV11" ∈ ["LV11"]) as Hin by (by apply list_elem_of_singleton).
  assert (Js.trim (Js.toLowerCase "LV11") ≠ "") as Hne by (vm_compute; discriminate).
  assert (Js.includes (Matcher.relevantText txRimi)
            (Js.trim (Js.toLowerCase "LV11")) = true) as Hinc
    by (vm_compute; reflexivity).
  split_and!.
  - vm_compute. reflexivity.
  - exact Hin.
  - exact Hne.
  - exact Hinc.
  - exact (MatcherFacts.internal_transfer_priority
             txRimi [ruleRimi] ["LV11"] "LV11" Hin Hne Hinc).
  - vm_compute. reflexivity.
Defined.

(** The conflict scenario: both subscription rules match. *)
Lemma applyMappings_conflicts_example :
  res_conflicts (Matcher.applyMappings txNetflix [ruleNetflix; ruleFlix] [])
  = Some ["cat-a"; "cat-b"]
  ∧ res_match (Matcher.applyMappings txNetflix [ruleNetflix; ruleFlix] []) = None
  ∧ NoDup ["cat-a"; "cat-b"].
Proof.
  destruct (MatcherFacts.applyMappings_conflicts txNetflix [ruleNetflix; ruleFlix] []
              ["cat-a"; "cat-b"] eq_refl) as (Hm & Hnd & _).
  split_and!; [reflexivity|exact Hm|exact Hnd].
Defined.

(** The card payment of the sample statement, with its beneficiary
    account among the ignored identifiers. *)
Lemma beneficiary_account_is_internal_example :
  @Parser.processRow platform 0 rowRimi = Parser.Pushed txRimi
  ∧ Matcher.applyMappings txRimi [ruleRimi] ["LV99"; "LV11"]
    = mkResult (Some INTERNAL) None.
Proof.
  assert (@Parser.processRow platform 0 rowRimi = Parser.Pushed txRimi) as Hp
    by (vm_compute; reflexivity).
  split; [exact Hp|].
  apply (@ParserFacts.beneficiary_account_is_internal platform 0 rowRimi txRimi
           "LV11" [ruleRimi] ["LV99"; "LV11"]).
  - exact Hp.
  - vm_compute. reflexivity.
  - apply elem_of_cons. right. apply list_elem_of_singleton. reflexivity.
  - vm_compute. discriminate.
Defined.

(** Manual resolution of the conflicted subscription of the sample store. *)
Lemma handleCategorize_resolves_example :
  Resolve.findById "ID200" (Store.getAllTransactions db0) = Some txNetflix
  ∧ transactions (Resolve.handleCategorize "ID200" "cat-a" db0) !! "ID200"
    = Some (set_conflicts None (set_categoryId (Some "cat-a") txNetflix)).
Proof.
  assert (Resolve.findById "ID200" (Store.getAllTransactions db0) = Some txNetflix)
    as Hf by (vm_compute; reflexivity).
  split; [exact Hf|].
  exact (proj1 (CategorisationFacts.handleCategorize_resolves
                  "ID200" "cat-a" db0 txNetflix Hf)).
Defined.

(** C6 as stated fails where the stored conflicts list the ids of the
    recomputed set in another order: the transaction is counted, and its
    state is the stored one up to that order. *)
Lemma reordered_conflicts_are_counted :
  (CategoriesPage.reapplyOne [ruleNetflix; ruleFlix] [] txNetflix).2 = true
  ∧ sameStateUpToOrder txNetflix
      (CategoriesPage.reapplyOne [ruleNetflix; ruleFlix] [] txNetflix).1
  ∧ (CategoriesPage.reapplyAll [ruleNetflix; ruleFlix] [] [txNetflix]).2 = 1
  ∧ (CategoriesPage.handleReapplyRules db0).2 = 1
  ∧ Forall2 sameStateUpToOrder
      (Store.getAllTransactions db0)
      (Store.getAllTransactions (CategoriesPage.handleReapplyRules db0).1).
Proof.
  assert (sameStateUpToOrder txNetflix
            (CategoriesPage.reapplyOne [ruleNetflix; ruleFlix] [] txNetflix).1) as H.
  { vm_compute. split_and!; try reflexivity. apply Permutation_swap. }
  split_and!; try (vm_compute; reflexivity); [exact H|].
  assert (Store.getAllTransactions (CategoriesPage.handleReapplyRules db0).1
          = [set_categoryId (Some "cat-1") txRimi;
             (CategoriesPage.reapplyOne [ruleNetflix; ruleFlix] [] txNetflix).1])
    as -> by (vm_compute; reflexivity).
  assert (Store.getAllTransactions db0
          = [set_categoryId (Some "cat-1") txRimi; txNetflix])
    as -> by (vm_compute; reflexivity).
  repeat constructor; try exact H.
Qed.



(** A payload with a [null] entry: the rule before it is stored, the
    rule behind it is not, and the failure is reported instead of a
    count. *)
Example import_fails_at_null :
  List.map map_pattern
    (Store.getMappings
       (@CategoriesPage.handleImportRules platform
          [Some (mkImportedRule (Some "LIDL") (Some "cat-1")); None;
           Some (mkImportedRule (Some "ALDI") (Some "cat-1"))] db0).1)
  = ["RIMI"; "NETFLIX"; "FLIX"; "LIDL"]
  ∧ (@CategoriesPage.handleImportRules platform
       [Some (mkImportedRule (Some "LIDL") (Some "cat-1")); None;
        Some (mkImportedRule (Some "ALDI") (Some "cat-1"))] db0).2
    = ImportFailed
  ∧ (@CategoriesPage.handleImportRules platform
       [Some (mkImportedRule (Some "LIDL") (Some "cat-1"));
        Some (mkImportedRule (Some "ALDI") (Some "cat-1"))] db0).2
    = ImportComplete 2.
Proof. split_and!; vm_compute; reflexivity. Qed.

(** C9 as stated fails at an amount with a minus sign. *)
Lemma negative_amount_is_kept :
  data (@Parser.parseBankCSV platform [rowNegative]) = [txNegative]
  ∧ tx_originalRow txNegative !! "Amount" = Some "-5.00"
  ∧ tx_amount txNegative = Decimal true 500 (-2)
  ∧ isNonNegativeDecimal (tx_amount txNegative) = false.
Proof. split_and!; vm_compute; reflexivity. Qed.

(** C9 at the card payment and at the refund of the sample statement. *)
Lemma amount_of_parsed_transaction_example :
  txRimi ∈ data (@Parser.parseBankCSV platform statement)
  ∧ txNegative ∈ data (@Parser.parseBankCSV platform statement)
  ∧ tx_amount txRimi = Num.parseFloat "1.09"
  ∧ isNonNegativeDecimal (tx_amount txRimi) = true
  ∧ tx_amount txNegative = negate (Num.parseFloat "5.00").
Proof.
  assert (data (@Parser.parseBankCSV platform statement) = [txRimi; txNegative])
    as Hdata by (vm_compute; reflexivity).
  assert (txRimi ∈ data (@Parser.parseBankCSV platform statement)) as Hin
    by (rewrite Hdata; left).
  assert (txNegative ∈ data (@Parser.parseBankCSV platform statement)) as Hin'
    by (rewrite Hdata; right; left).
  destruct (@ParserFacts.amount_of_parsed_transaction platform statement txRimi Hin)
    as (s & Hs & Hne & Hamt & Hpos & _ & _).
  assert (s = "1.09") as -> by (vm_compute in Hs; congruence).
  destruct (Hpos "1"%char ".09" eq_refl eq_refl) as (m & e & Hl & _ & Hnn).
  assert (m = 109%N ∧ e = (-2)%Z) as [-> ->]
    by (vm_compute in Hl; split; congruence).
  destruct (@ParserFacts.amount_of_parsed_transaction platform statement txNegative Hin')
    as (s' & Hs' & _ & _ & _ & Hneg & _).
  assert (s' = "-5.00") as -> by (vm_compute in Hs'; congruence).
  destruct (Hneg "5"%char ".00" eq_refl eq_refl) as (m' & e' & _ & _ & Hnegate).
  split_and!; [exact Hin|exact Hin'|exact Hamt| |exact Hnegate].
  apply Hnn. vm_compute. reflexivity.
Defined.

(** An amount above the range of binary64 is stored as [Infinity], the
    amount [-0] as minus zero, and an amount that is no number as
    [NaN]. *)
Example amounts_out_of_range :
  List.map tx_amount
    (data (@Parser.parseBankCSV platform
             [<["Amount" := "1e400"]> rowRimi; <["Amount" := "-0"]> rowRimi;
              <["Amount" := "n/a"]> rowRimi;
              <["Amount" := "179769313486231570e291"]> rowRimi;
              <["Amount" := "179769313486231581e291"]> rowRimi]))
  = [Infinity false; Decimal true 0 0; NaN;
     Decimal false 179769313486231570 291; Infinity false].
Proof. vm_compute. reflexivity. Qed.

(** C10 at an ignored list of a space and an empty string. *)
Lemma blank_identifiers_discarded_example :
  Forall (fun acc => Js.blank acc = true) [" "; ""]
  ∧ Matcher.applyMappings txRimi [ruleRimi] [" "; ""]
    = Matcher.applyMappings txRimi [ruleRimi] [].
Proof.
  assert (Forall (fun acc => Js.blank acc = true) [" "; ""]) as H
    by (repeat constructor).
  split; [exact H|].
  exact (MatcherFacts.blank_identifiers_discarded txRimi [ruleRimi] [" "; ""] H).
Defined.

End Examples.

(* ===================================================================== *)
(** * Checking the further invariants of a given store                    *)
(* ===================================================================== *)

Module StoreChecks.

Lemma keyedById_check (db : DB) :
  forallb (fun e => bool_decide (tx_id e.2 = e.1)) (Store.entries (transactions db))
  = true →
  keyedById db.
Proof.
  intros H k t Hk. rewrite forallb_forall in H.
  assert (In (k, t) (Store.entries (transactions db))) as Hin
    by (by apply list_elem_of_In, StoreFacts.elem_of_entries).
  specialize (H (k, t) Hin). by apply bool_decide_eq_true in H.
Qed.

Lemma conflictsWellFormed_check (db : DB) :
  forallb (fun tx => match tx_conflicts tx with
                     | Some cs => bool_decide (NoDup cs)
                                  && (2 <=? List.length cs)%nat
                                  && negb (Js.truthy (tx_categoryId tx))
                     | None => true
                     end)
          (Store.getAllTransactions db) = true →
  dbConflictsWellFormed db.
Proof.
  intros H k tx Hk cs Hcs. rewrite forallb_forall in H.
  specialize (H tx (Checks.elem_of_values _ k tx Hk)). rewrite Hcs in H.
  apply andb_true_iff in H as [[H1 H2]%andb_true_iff H3].
  split_and!.
  - by apply bool_decide_eq_true in H1.
  - by apply Nat.leb_le.
  - by apply negb_true_iff.
Qed.

Lemma rulesNonEmpty_check (db : DB) :
  forallb (fun m => negb (map_pattern m =? "")%string
                    && negb (map_categoryId m =? "")%string)
          (Store.getMappings db) = true →
  rulesNonEmpty db.
Proof.
  intros H k m Hk. rewrite forallb_forall in H.
  specialize (H m (Checks.elem_of_values _ k m Hk)).
  apply andb_true_iff in H as [H1 H2].
  split; intros Heq; rewrite Heq in *; done.
Qed.

End StoreChecks.

(* ===================================================================== *)
(** * The further properties at the sample data                           *)
(* ===================================================================== *)

Module MoreExamples.
Import Sample.

Lemma db0_keyed : keyedById db0.
Proof. apply StoreChecks.keyedById_check. vm_compute. reflexivity. Qed.

Lemma db0_conflicts : dbConflictsWellFormed db0.
Proof. apply StoreChecks.conflictsWellFormed_check. vm_compute. reflexivity. Qed.

Lemma db0_rules : rulesNonEmpty db0.
Proof. apply StoreChecks.rulesNonEmpty_check. vm_compute. reflexivity. Qed.

Lemma db1_system : systemCategoriesPresent db1.
Proof. split; vm_compute; by eexists. Qed.

Lemma db1_mappings_refer : mappingsReferToCategories db1.
Proof. apply Checks.mappingsRefer_check. vm_compute. reflexivity. Qed.

Lemma db1_transactions_refer : transactionsReferToCategories db1.
Proof. apply Checks.transactionsRefer_check. vm_compute. reflexivity. Qed.

(** Two rules of the shop, both for cat-1: the purchase gets cat-1. *)
Lemma one_category_counts_once_example :
  Matcher.isInternal txRimi [] = false
  ∧ ruleRimi ∈ [ruleRimi; ruleRimiShop]
  ∧ Matcher.patternMatches txRimi ruleRimi = true
  ∧ Matcher.patternMatches txRimi ruleRimiShop = true
  ∧ Matcher.applyMappings txRimi [ruleRimi; ruleRimiShop] []
    = mkResult (Some "cat-1") None.
Proof.
  assert (ruleRimi ∈ [ruleRimi; ruleRimiShop]) as Hin by left.
  split_and!; [reflexivity|exact Hin|reflexivity|reflexivity|].
  apply (MatcherOutcomes.one_category_counts_once txRimi _ [] ruleRimi "cat-1");
    [reflexivity|exact Hin|reflexivity|].
  intros m' Hm' _. apply elem_of_cons in Hm' as [->|Hm']; [reflexivity|].
  apply list_elem_of_singleton in Hm' as ->. reflexivity.
Defined.

(** Invariant 1 at the started sample store: the batch recompute and a
    manual resolution with a stored category. *)
Lemma references_preserved_example :
  systemCategoriesPresent db1
  ∧ mappingsReferToCategories db1
  ∧ transactionsReferToCategories db1
  ∧ transactionsReferToCategories (@runOp platform OpReapplyRules db1)
  ∧ transactionsReferToCategories (@runOp platform (OpCategorize "ID200" "cat-a") db1).
Proof.
  split_and!.
  - exact db1_system.
  - exact db1_mappings_refer.
  - exact db1_transactions_refer.
  - apply IntegrityFacts.references_preserved;
      [exact db1_system|exact db1_mappings_refer|exact I|exact db1_transactions_refer].
  - apply IntegrityFacts.references_preserved;
      [exact db1_system|exact db1_mappings_refer| |exact db1_transactions_refer].
    vm_compute. by eexists.
Defined.

(** Invariant 3 at the sample store, over the batch recompute, which
    rewrites the conflicts of the subscription. *)
Lemma conflicts_stay_well_formed_example :
  dbConflictsWellFormed db0
  ∧ List.map tx_conflicts
      (Store.getAllTransactions (@runOp platform OpReapplyRules db0))
    = [None; Some ["cat-a"; "cat-b"]]
  ∧ dbConflictsWellFormed (@runOp platform OpReapplyRules db0).
Proof.
  split_and!.
  - exact db0_conflicts.
  - vm_compute. reflexivity.
  - apply IntegrityFacts.conflicts_stay_well_formed. exact db0_conflicts.
Defined.

(** Saving a rule for a stored category at the sample store. *)
Lemma admin_operations_keep_integrity_example :
  is_Some (categories db0 !! "cat-1")
  ∧ transactions (@runAdmin platform (OpSaveMapping "LIDL" "cat-1") db0)
    = transactions db0
  ∧ mappingsReferToCategories (@runAdmin platform (OpSaveMapping "LIDL" "cat-1") db0).
Proof.
  assert (is_Some (categories db0 !! "cat-1")) as Hcat by (vm_compute; by eexists).
  destruct (@IntegrityFacts.admin_operations_keep_integrity platform
              (OpSaveMapping "LIDL" "cat-1") db0 Hcat) as (Htx & _ & _ & Hmap & _).
  split_and!.
  - exact Hcat.
  - exact Htx.
  - exact (Hmap Examples.db0_mappings_refer).
Defined.

(** The rule form with an empty pattern, and a payload with an empty
    pattern, at the sample store. *)
Lemma rules_stay_non_empty_example :
  rulesNonEmpty db0
  ∧ rulesNonEmpty (@runAdmin platform (OpSaveMapping "" "cat-1") db0)
  ∧ rulesNonEmpty
      (@CategoriesPage.handleImportRules platform
         [Some (mkImportedRule (Some "") (Some "cat-1"));
          Some (mkImportedRule (Some "LIDL") (Some "cat-1"))] db0).1.
Proof.
  split; [exact db0_rules|].
  apply IntegrityFacts.rules_stay_non_empty. exact db0_rules.
Defined.

(** An account of one space. *)
Lemma blank_account_changes_nothing_example :
  Js.blank " " = true
  ∧ Store.getIgnoredAccounts (SettingsPage.handleAddAccount " " db0) = ["LV99"; ""]
  ∧ Matcher.applyMappings txRimi [ruleRimi]
      (Store.getIgnoredAccounts (SettingsPage.handleAddAccount " " db0))
    = Matcher.applyMappings txRimi [ruleRimi] (Store.getIgnoredAccounts db0).
Proof.
  split_and!; [reflexivity|reflexivity|].
  apply SettingsFacts.blank_account_changes_nothing. reflexivity.
Defined.

(** An account typed with spaces around it. *)
Lemma added_account_is_internal_example :
  Js.trim (Js.toLowerCase " LV11 ") ≠ ""
  ∧ Js.includes (Matcher.relevantText txRimi) (Js.trim (Js.toLowerCase " LV11 ")) = true
  ∧ Store.getIgnoredAccounts (SettingsPage.handleAddAccount " LV11 " db0)
    = ["LV99"; "LV11"]
  ∧ Matcher.applyMappings txRimi [ruleRimi]
      (Store.getIgnoredAccounts (SettingsPage.handleAddAccount " LV11 " db0))
    = mkResult (Some INTERNAL) None.
Proof.
  assert (Js.trim (Js.toLowerCase " LV11 ") ≠ "") as Hne by (vm_compute; discriminate).
  split_and!; [exact Hne|reflexivity|reflexivity|].
  apply TrimFacts.added_account_is_internal; [exact Hne|reflexivity].
Defined.

(** A statement whose rows with a date and an amount carry a transaction
    number: importing it again, at another reading of the clock, changes
    nothing. *)
Lemma reimport_changes_nothing_example :
  List.map tx_id
    (Store.getAllTransactions
       (@runOp platform (OpImport [rowRimi; rowFooter; rowNegative]) db0))
  = ["ID123"; "ID124"; "ID200"]
  ∧ @runOp (mkPlatform (@parseDate platform) (fun _ => 1800000000000%N))
      (OpImport [rowRimi; rowFooter; rowNegative])
      (@runOp platform (OpImport [rowRimi; rowFooter; rowNegative]) db0)
    = @runOp platform (OpImport [rowRimi; rowFooter; rowNegative]) db0.
Proof.
  split; [vm_compute; reflexivity|].
  apply ReimportFacts.reimport_changes_nothing.
  intros row Hrow.
  repeat (apply elem_of_cons in Hrow as [->|Hrow]; [vm_compute; congruence|]).
  by apply elem_of_nil in Hrow.
Defined.

(** The subscription stored with conflicts is on the uncategorised
    page. *)
Lemma conflicted_are_listed_example :
  dbExclusive db0
  ∧ transactions db0 !! "ID200" = Some txNetflix
  ∧ CategoriesPage.hasConflicts txNetflix = true
  ∧ txNetflix ∈ Pages.uncategorized (Store.getAllTransactions db0).
Proof.
  split_and!; [exact Examples.db0_exclusive|reflexivity|reflexivity|].
  apply (PagesFacts.conflicted_are_listed db0 "ID200");
    [exact Examples.db0_exclusive|reflexivity|reflexivity].
Defined.

(** Resolving the subscription takes it off the uncategorised page. *)
Lemma resolve_removes_from_list_example :
  keyedById db0
  ∧ Resolve.findById "ID200" (Store.getAllTransactions db0) = Some txNetflix
  ∧ (∀ t, t ∈ Pages.uncategorized
               (Store.getAllTransactions (Resolve.handleCategorize "ID200" "cat-a" db0))
          ↔ t ∈ Pages.uncategorized (Store.getAllTransactions db0)
            ∧ tx_id t ≠ "ID200").
Proof.
  split_and!; [exact db0_keyed|reflexivity|].
  apply (PagesFacts.resolve_removes_from_list "ID200" "cat-a" db0 txNetflix);
    [exact db0_keyed|reflexivity|discriminate].
Defined.

(** Re-applying the rules twice at the sample store: the first run
    rewrites one transaction, the second none. *)
Lemma reapply_twice_changes_nothing_example :
  keyedById db0
  ∧ (CategoriesPage.handleReapplyRules db0).2 = 1%nat
  ∧ CategoriesPage.handleReapplyRules (CategoriesPage.handleReapplyRules db0).1
    = ((CategoriesPage.handleReapplyRules db0).1, 0%nat).
Proof.
  split_and!; [exact db0_keyed|vm_compute; reflexivity|].
  apply ReapplyFacts.reapply_twice_changes_nothing. exact db0_keyed.
Defined.

(** C5 at a statement of a salary payment and a card payment that no
    rule and no ignored account matches, and at a store that holds the
    salary payment without a category. *)
Lemma fallback_policy_example :
  data (@Parser.parseBankCSV platform [rowSalary; rowNegative])
  = [txSalaryParsed; txNegative]
  ∧ transactions
      (ImportPage.handleSave
         (@ImportPage.handleFileSelect platform [rowSalary; rowNegative] db0) db0)
      !! "ID300"
    = Some (set_categoryId (Some IN) txSalaryParsed)
  ∧ transactions
      (ImportPage.handleSave
         (@ImportPage.handleFileSelect platform [rowSalary; rowNegative] db0) db0)
      !! "ID124"
    = Some txNegative
  ∧ keyedById dbSalary
  ∧ transactions dbSalary !! "ID300" = Some txSalary
  ∧ ∃ tx', transactions (CategoriesPage.handleReapplyRules dbSalary).1 !! "ID300"
           = Some tx'
           ∧ tx_categoryId tx' = Some IN.
Proof.
  assert (data (@Parser.parseBankCSV platform [rowSalary; rowNegative])
          = [txSalaryParsed; txNegative]) as Hdata by (vm_compute; reflexivity).
  assert (keyedById dbSalary) as Hkey
    by (apply StoreChecks.keyedById_check; vm_compute; reflexivity).
  destruct (@FallbackFacts.fallback_policy platform [rowSalary; rowNegative] db0)
    as [Himport _].
  destruct (@FallbackFacts.fallback_policy platform [] dbSalary) as [_ Hrecompute].
  destruct (Himport 0%nat txSalaryParsed) as [Hcredit _].
  { by rewrite Hdata. }
  { vm_compute. reflexivity. }
  { vm_compute. reflexivity. }
  { intros j tx' Hj Hlt. rewrite Hdata in Hj.
    destruct j as [|[|j]]; [lia| |done]. injection Hj as <-. discriminate. }
  destruct (Himport 1%nat txNegative) as [_ Hdebit].
  { by rewrite Hdata. }
  { vm_compute. reflexivity. }
  { vm_compute. reflexivity. }
  { intros j tx' Hj Hlt. rewrite Hdata in Hj.
    destruct j as [|[|j]]; [lia|lia|done]. }
  destruct (Hrecompute Hkey "ID300" txSalary) as (tx' & Hstored & Hin & _).
  { vm_compute. reflexivity. }
  { vm_compute. reflexivity. }
  { vm_compute. reflexivity. }
  split_and!.
  - exact Hdata.
  - exact (proj2 (Hcredit eq_refl)).
  - destruct (Hdebit eq_refl) as (_ & _ & _ & H). exact H.
  - exact Hkey.
  - vm_compute. reflexivity.
  - exists tx'. split; [exact Hstored|exact (Hin eq_refl)].
Defined.

End MoreExamples.
